(** * bot.js: wallet derivation and the batch loop

    A shallow embedding of [src/bot.js].  The file follows the source top
    down: the JavaScript string methods the program uses, completion
    records and the effect monad, the external collaborators (the TON
    libraries, the platform service clients, the console, the file system
    and the random source) as interfaces, then the program's own functions
    under their source names, and last the theorems. *)

From Stdlib Require Import String Ascii List ZArith Lia Bool Arith PeanoNat Sorted.
From Stdlib.Strings Require Import Byte.
From Stdlib Require Import DecimalString.
Import ListNotations.
Open Scope string_scope.
Open Scope nat_scope.
Open Scope list_scope.

(** ** JavaScript strings

    A string is a sequence of code units; the model keeps the code units
    below 256, one [ascii] each.  On that range the methods below are the
    ECMAScript ones. *)

Module JSString.

(** [WhiteSpace] and [LineTerminator] code units below 256: TAB, LF, VT, FF,
    CR, SP and NBSP.  This is the set [String.prototype.trim] strips. *)
Definition isWhiteSpace (c : ascii) : bool :=
  let n := nat_of_ascii c in
  ((9 <=? n) && (n <=? 13)) || (n =? 32) || (n =? 160).

Fixpoint trimStart (s : string) : string :=
  match s with
  | EmptyString => EmptyString
  | String c s' => if isWhiteSpace c then trimStart s' else s
  end.

Definition reverse (s : string) : string :=
  string_of_list_ascii (rev (list_ascii_of_string s)).

Definition trimEnd (s : string) : string := reverse (trimStart (reverse s)).

(** [s.trim()] *)
Definition trim (s : string) : string := trimEnd (trimStart s).

(** [s.split(sep)] for a separator of one code unit, as in [split(' ')] and
    [split('\n')]: the pieces between the separators, the empty ones kept;
    the empty string splits into one empty piece. *)
Fixpoint split (sep : ascii) (s : string) : list string :=
  match s with
  | EmptyString => [EmptyString]
  | String c s' =>
      if Ascii.eqb c sep then EmptyString :: split sep s'
      else match split sep s' with
           | piece :: pieces => String c piece :: pieces
           | [] => [String c EmptyString]
           end
  end.

Definition mapChars (f : ascii -> ascii) (s : string) : string :=
  string_of_list_ascii (map f (list_ascii_of_string s)).

(** Code units with a lower-case partner below 256: A-Z and the Latin-1
    capitals U+00C0-U+00DE without the multiplication sign U+00D7. *)
Definition isUpper (n : nat) : bool :=
  ((65 <=? n) && (n <=? 90)) || ((192 <=? n) && (n <=? 222) && negb (n =? 215)).

Definition lowerChar (c : ascii) : ascii :=
  let n := nat_of_ascii c in if isUpper n then ascii_of_nat (n + 32) else c.

(** [s.toLowerCase()] *)
Definition toLowerCase : string -> string := mapChars lowerChar.

(** A string is truthy exactly when it is not empty. *)
Definition truthy (s : string) : bool :=
  match s with EmptyString => false | String _ _ => true end.

End JSString.

(** A possibly [undefined] or [null] string, as a condition. *)
Definition truthyOpt (v : option string) : bool :=
  match v with Some s => JSString.truthy s | None => false end.

(** ** [Buffer.from(bytes).toString('hex')] *)

Definition hexDigit (n : N) : ascii :=
  match N.to_nat n with
  | 0 => "0" | 1 => "1" | 2 => "2" | 3 => "3" | 4 => "4" | 5 => "5"
  | 6 => "6" | 7 => "7" | 8 => "8" | 9 => "9" | 10 => "a" | 11 => "b"
  | 12 => "c" | 13 => "d" | 14 => "e" | _ => "f"
  end%char.

Definition byteToHex (b : byte) : string :=
  let n := Byte.to_N b in
  String (hexDigit (n / 16)%N) (String (hexDigit (n mod 16)%N) EmptyString).

Definition toHex (bytes : list byte) : string :=
  String.concat "" (map byteToHex bytes).

(** ** Completions and the effect monad *)

(** How a statement list ends (ECMAScript's completion records, the ones
    this program produces): normally with a value, by a [throw] carrying the
    error's [message], or by [continue]. *)
Inductive Completion (A : Type) : Type :=
| Normal (a : A)
| Throw (message : string)
| Continue.
Arguments Normal {A} a.
Arguments Throw {A} message.
Arguments Continue {A}.

(** What a call into an external collaborator does: it returns a value, or
    it throws (an awaited promise rejects) with a message. *)
Inductive Outcome (A : Type) : Type :=
| Returns (a : A)
| Throws (message : string).
Arguments Returns {A} a.
Arguments Throws {A} message.

(** ** Data of the program *)

(** A key pair of the key-derivation library: two byte buffers. *)
Record KeyPair : Type := { publicKey : list byte; secretKey : list byte }.

(** The object literal handed to a wallet contract's [create]. *)
Record CreateArgs : Type :=
  { workchain : Z; args_publicKey : list byte; walletId : Z }.

(** A wallet contract is the class it was created from and the arguments of
    that [create] call. *)
Inductive WalletContract : Type :=
| WalletContractV3R2 (args : CreateArgs)
| WalletContractV4 (args : CreateArgs)
| WalletContractV5R1 (args : CreateArgs).

(** The options of [address.toString]. *)
Record AddressFormat : Type := { urlSafe : bool; bounceable : bool }.

(** An element of [walletData], as [loadData] builds it: [{address}] on
    PAWS, [{mnemonic}] elsewhere.  A missing property reads [undefined]. *)
Record WalletData : Type :=
  { data_address : option string; mnemonic : option string }.

(** The wallet handed to a service: [{address}] on PAWS,
    [{address, private_key}] elsewhere. *)
Record Wallet : Type := { address : string; private_key : option string }.

(** The four service classes of [./core]. *)
Inductive Service : Type :=
| PawsService | TsubasaService | YesCoinService | BlumService.

(** What [getBalance] resolves to, when it resolves to an object. *)
Record BalanceInfo : Type := { availableBalance : string }.

(** What [loadData] returns when it does not return [null]. *)
Record Loaded : Type := { walletData : list WalletData; queryIds : list string }.

Definition DEFAULT_WALLET_ID : Z := 698983191.

(** The message of the [TypeError] that reading [property] of [undefined]
    or [null] raises. *)
Definition typeError (value property : string) : string :=
  ("Cannot read properties of " ++ value ++ " (reading '" ++ property ++ "')")%string.

(** Decimal digits of a number inside a template literal. *)
Definition decimal (n : nat) : string := NilZero.string_of_uint (Nat.to_uint n).

Section Bot.

(** JavaScript numbers are left abstract: the program only adds them. *)
Context {Num : Type}.

(** ** Console lines

    One constructor for each [console.log] and [console.error] of the
    modelled functions, holding the values interpolated into the line.  An
    account index [i] is the loop variable; the line prints [i + 1].  The
    banner [LHeader] holds the action, the version (none on PAWS) and the
    platform; the line prints the last two in upper case. *)
Inductive LogLine : Type :=
| LDetailedError (message : string)
| LBlankRule (width : nat)
| LRule (width : nat)
| LRuleBlank (width : nat)
| LDashes (width : nat)
| LTitle (text : string)
| LLoaded (count : nat)
| LErrorLoading (message : string)
| LHeader (act : string) (version : option string) (platform : string)
| LProcessing (i total : nat)
| LInvalidAddress (i : nat)
| LFailedLogin (i : nat)
| LFailedInit (i : nat)
| LFailedToken (i : nat)
| LConnected (i : nat)
| LSeed (i : nat) (prefix : string)
| LAddress (i : nat) (addr : string)
| LBalance (i : nat) (balance : Num)
| LFailedConnect (i : nat)
| LDisconnected (i : nat)
| LFailedDisconnect (i : nat)
| LAccount (i : nat)
| LAccountError (i : nat) (message : string)
| LTotalBalance (total : Num)
| LSummary (success failed : nat).

(** ** Events

    What a run does to the outside, in order: console lines, questions on
    the terminal, calls of service methods with what they answered, and
    timers.  A service event carries the index [i] of the account the loop
    is processing when the call is made. *)
Inductive Event : Type :=
| Console (line : LogLine)
| Question (query answer : string)
| New (i : nat) (service : Service) (r : Outcome unit)
| Login (i : nat) (service : Service) (queryId : string) (r : Outcome (option string))
| GetNewToken (i : nat) (queryId : string) (r : Outcome (option string))
| Init (i : nat) (service : Service) (token : string) (wallet : Wallet) (r : Outcome bool)
| ConnectWallet (i : nat) (service : Service) (r : Outcome bool)
| DisconnectWallet (i : nat) (service : Service) (r : Outcome bool)
| GetBalance (i : nat) (r : Outcome (option BalanceInfo))
| SetTimeout (i : nat) (ms : Z).

(** ** The effect monad

    A computation runs from a state, ends in a completion, leaves a state
    and has emitted events.  A [throw] keeps the state and the events of
    what ran before it. *)
Definition M (S A : Type) : Type := S -> Completion A * S * list Event.

Definition ret {S A} (a : A) : M S A := fun s => (Normal a, s, []).

Definition bind {S A B} (m : M S A) (k : A -> M S B) : M S B :=
  fun s =>
    match m s with
    | (Normal a, s1, t1) => let '(r, s2, t2) := k a s1 in (r, s2, t1 ++ t2)
    | (Throw e, s1, t1) => (Throw e, s1, t1)
    | (Continue, s1, t1) => (Continue, s1, t1)
    end.

Definition throw {S A} (message : string) : M S A := fun s => (Throw message, s, []).

(** [continue]: leaves the loop body; no [catch] sees it. *)
Definition continue {S A} : M S A := fun s => (Continue, s, []).

(** [try { block } catch (error) { handler(error.message) }] *)
Definition tryCatch {S A} (block : M S A) (handler : string -> M S A) : M S A :=
  fun s =>
    match block s with
    | (Throw e, s1, t1) => let '(r, s2, t2) := handler e s1 in (r, s2, t1 ++ t2)
    | done => done
    end.

Definition emit {S} (e : Event) : M S unit := fun s => (Normal tt, s, [e]).

Definition console {S} (line : LogLine) : M S unit := emit (Console line).

(** [if (c) { m }] *)
Definition when {S} (c : bool) (m : M S unit) : M S unit := if c then m else ret tt.

End Bot.

Arguments LogLine Num : clear implicits.
Arguments Event Num : clear implicits.
Arguments M Num S A : clear implicits.

Declare Scope js_scope.
Delimit Scope js_scope with js.
Notation "x <- m ;; k" := (bind m (fun x => k))
  (at level 100, m at next level, right associativity) : js_scope.
Notation "m ;; k" := (bind m (fun _ => k))
  (at level 100, right associativity) : js_scope.
Notation "' pat <- m ;; k" := (bind m (fun x => match x with pat => k end))
  (at level 100, pat pattern, m at next level, right associativity) : js_scope.

(** ** External collaborators *)

(** [@ton/crypto] and [@ton/ton]: key derivation from the words of a seed
    phrase (an awaited promise, which may reject) and the text of a wallet
    contract's address. *)
Class Ton : Type := {
  mnemonicToWalletKey : list string -> Outcome KeyPair;
  addressToString : WalletContract -> AddressFormat -> string
}.

(** JavaScript's numbers, as far as the program uses them on balances. *)
Class Numbers (Num : Type) : Type := {
  numZero : Num;
  numPlus : Num -> Num -> Num;
  parseFloat : string -> Num
}.

(** Everything else outside the program: the service clients of [./core],
    the terminal, the files and [Math.random].  The world is whatever state
    they keep; each call may change it.  A token is a string, or [None] for
    [null] and [undefined]; a returned [bool] is the truthiness of what the
    method returned. *)
Class Environment (World : Type) : Type := {
  env_new : Service -> World -> Outcome unit * World;
  env_login : Service -> string -> World -> Outcome (option string) * World;
  env_getNewToken : string -> World -> Outcome (option string) * World;
  env_init : Service -> string -> Wallet -> World -> Outcome bool * World;
  env_connectWallet : Service -> World -> Outcome bool * World;
  env_disconnectWallet : Service -> World -> Outcome bool * World;
  (** [typeof service.getBalance === 'function'] on a [BlumService] *)
  env_hasGetBalance : bool;
  env_getBalance : World -> Outcome (option BalanceInfo) * World;
  (** the next draw of [Math.random], as a numerator over [2^53] *)
  env_random : World -> Z * World;
  (** [fs.readFileSync(path, 'utf8')] *)
  env_readFileSync : string -> World -> Outcome string;
  (** the line typed in answer to [rl.question] *)
  env_question : string -> World -> string * World
}.

(** ** [Math.floor(Math.random() * (3000 - 1000 + 1)) + 1000]

    [Math.random()] is a double [k / 2^53] with [0 <= k < 2^53].  The
    product with 2001 is rounded to a double, 53 significant bits with ties
    to even; numbers are kept as numerators over [2^53]. *)
Definition roundToDouble (n : Z) : Z :=
  let e := (Z.log2 n - 52)%Z in
  if (e <=? 0)%Z then n
  else
    let ulp := (2 ^ e)%Z in
    let q := (n / ulp)%Z in
    let r := (n mod ulp)%Z in
    let half := (ulp / 2)%Z in
    if (r <? half)%Z then (q * ulp)%Z
    else if (half <? r)%Z then ((q + 1) * ulp)%Z
    else if Z.even q then (q * ulp)%Z else ((q + 1) * ulp)%Z.

Definition randomDelay (k : Z) : Z :=
  (roundToDouble (k * (3000 - 1000 + 1)) / 2 ^ 53 + 1000)%Z.

(** The three [let] variables of [processWallets].  They are assigned
    inside [try] blocks, so they are state: an assignment made before a
    [throw] stays made. *)
Record Vars (Num : Type) : Type :=
  { totalBalance : Num; successCount : nat; failCount : nat }.
Arguments totalBalance {Num} _.
Arguments successCount {Num} _.
Arguments failCount {Num} _.

Section Program.

Context {Num World : Type} {ton : Ton} {numbers : Numbers Num}
        {env : Environment World}.

Local Open Scope js_scope.

(** *** Primitive computations *)

(** [await] of a library promise. *)
Definition await {S A} (o : Outcome A) : M Num S A :=
  match o with Returns a => ret a | Throws e => throw e end.

(** Reading [property] of a value that may be [undefined] or [null]. *)
Definition property {S A} (v : option A) (what name : string) : M Num S A :=
  match v with Some a => ret a | None => throw (typeError what name) end.

(** [if (!v) { otherwise }], then [v], which is truthy there. *)
Definition orElse {S} (v : option string) (otherwise : M Num S string) : M Num S string :=
  match v with
  | Some s => if JSString.truthy s then ret s else otherwise
  | None => otherwise
  end.

(** A call into the environment that answers and leaves an event. *)
Definition call {A} (f : World -> Outcome A * World) (ev : Outcome A -> Event Num)
  : M Num World A :=
  fun w =>
    let '(r, w') := f w in
    match r with
    | Returns a => (Normal a, w', [ev r])
    | Throws e => (Throw e, w', [ev r])
    end.

Definition askQuestion (query : string) : M Num World string :=
  fun w => let '(answer, w') := env_question query w in
           (Normal answer, w', [Question query answer]).

Definition readFileSync (path : string) : M Num World string :=
  fun w => match env_readFileSync path w with
           | Returns text => (Normal text, w, [])
           | Throws e => (Throw e, w, [])
           end.

(** [Math.random()], as a numerator over [2^53]. *)
Definition Math_random : M Num World Z :=
  fun w => let '(k, w') := env_random w in (Normal (k mod 2 ^ 53)%Z, w', []).

(** *** [getWalletAddressFromSeed] (lines 29-66) *)
Definition getWalletAddressFromSeed (mnemonic : list string) (version : option string)
  : M Num World string :=
  tryCatch
    (keyPair <- await (mnemonicToWalletKey mnemonic) ;;
     let workchain := 0%Z in
     v <- property version "null" "toLowerCase" ;;
     let selector := JSString.toLowerCase v in
     wallet <-
       (if selector =? "v3r2" then
          ret (WalletContractV3R2 {| workchain := workchain;
                                     args_publicKey := publicKey keyPair;
                                     walletId := DEFAULT_WALLET_ID |})
        else if selector =? "v4" then
          ret (WalletContractV4 {| workchain := workchain;
                                   args_publicKey := publicKey keyPair;
                                   walletId := DEFAULT_WALLET_ID |})
        else if selector =? "v5" then
          ret (WalletContractV5R1 {| workchain := workchain;
                                     args_publicKey := publicKey keyPair;
                                     walletId := DEFAULT_WALLET_ID |})
        else throw "Unsupported wallet version")%string ;;
     ret (addressToString wallet {| urlSafe := true; bounceable := false |}))
    (fun message =>
       console (LDetailedError message) ;;
       throw ("Error generating wallet address: " ++ message)%string).

(** *** [processWalletData] (lines 68-85) *)
Definition processWalletData (walletData : option WalletData) (version : option string)
  : M Num World Wallet :=
  tryCatch
    (entry <- property walletData "undefined" "mnemonic" ;;
     phrase <- property (mnemonic entry) "undefined" "trim" ;;
     let mnemonicArray := JSString.split " " (JSString.trim phrase) in
     when (negb (length mnemonicArray =? 24))
          (throw "Invalid seed phrase length - must be 24 words") ;;
     keyPair <- await (mnemonicToWalletKey mnemonicArray) ;;
     address <- getWalletAddressFromSeed mnemonicArray version ;;
     ret {| address := address;
            private_key := Some (toHex (secretKey keyPair)) |})
    (fun message => throw ("Error processing wallet data: " ++ message)%string).

(** *** [selectWalletVersion] (lines 126-145) *)

Definition newline : string := String (ascii_of_nat 10) EmptyString.

Definition versionPrompt : string :=
  ("Choose wallet version:" ++ newline ++
   "1. V3R2" ++ newline ++
   "2. V4" ++ newline ++
   "3. V5" ++ newline ++
   "Select (1-3): ")%string.

Definition selectWalletVersion : M Num World string :=
  console (LBlankRule 50) ;;
  console (LTitle "Select Wallet Version") ;;
  console (LRule 50) ;;
  version <- askQuestion versionPrompt ;;
  (if version =? "1" then ret "v3r2"
   else if version =? "2" then ret "v4"
   else if version =? "3" then ret "v5"
   else ret "v4")%string.

(** *** [loadData] (lines 161-210) *)

(** [line => line.trim()] as a filter: the trimmed line is not empty. *)
Definition nonBlank (line : string) : bool := JSString.truthy (JSString.trim line).

(** [text.split('\n').filter(line => line.trim())] *)
Definition lines (text : string) : list string :=
  filter nonBlank (JSString.split (ascii_of_nat 10) text).

Definition mismatch (what : string) (n m : nat) : string :=
  ("Mismatch between " ++ what ++ " (" ++ decimal n ++ ") and query (" ++
   decimal m ++ ") count")%string.

Definition loadData (platform : string) : M Num World (option Loaded) :=
  tryCatch
    (if (platform =? "paws")%string then
       text <- readFileSync "wallet.txt" ;;
       let wallets := lines text in
       text <- readFileSync "query.txt" ;;
       let queryIds := lines text in
       when (negb (length wallets =? length queryIds))
            (throw (mismatch "wallets" (length wallets) (length queryIds))) ;;
       let walletData :=
         map (fun address => {| data_address := Some (JSString.trim address);
                                mnemonic := None |}) wallets in
       console (LLoaded (length wallets)) ;;
       ret (Some {| walletData := walletData; queryIds := queryIds |})
     else
       text <- readFileSync "seed.txt" ;;
       let seeds := lines text in
       text <- readFileSync "query.txt" ;;
       let queryIds := lines text in
       when (negb (length seeds =? length queryIds))
            (throw (mismatch "seeds" (length seeds) (length queryIds))) ;;
       let walletData :=
         map (fun seed => {| data_address := None; mnemonic := Some seed |}) seeds in
       console (LLoaded (length seeds)) ;;
       ret (Some {| walletData := walletData; queryIds := queryIds |}))
    (fun message => console (LErrorLoading message) ;; ret None).

(** *** [processWallets] (lines 212-345) *)

(** A computation on the world, run where the variables are in scope. *)
Definition lift {A} (m : M Num World A) : M Num (Vars Num * World) A :=
  fun '(vars, w) => let '(r, w', t) := m w in (r, (vars, w'), t).

(** The variables, read. *)
Definition readVars : M Num (Vars Num * World) (Vars Num) :=
  fun s => (Normal (fst s), s, []).

(** A function body that declares the variables: [m] runs with them
    initialised, and they are gone when it ends. *)
Definition scope {A} (initial : Vars Num) (m : M Num (Vars Num * World) A)
  : M Num World A :=
  fun w => let '(r, s, t) := m (initial, w) in (r, snd s, t).

Definition assign (f : Vars Num -> Vars Num) : M Num (Vars Num * World) unit :=
  fun '(vars, w) => (Normal tt, (f vars, w), []).

(** [successCount++], [failCount++] and [totalBalance += balance] *)
Definition successCount_incr : M Num (Vars Num * World) unit :=
  assign (fun v => {| totalBalance := totalBalance v;
                      successCount := S (successCount v);
                      failCount := failCount v |}).

Definition failCount_incr : M Num (Vars Num * World) unit :=
  assign (fun v => {| totalBalance := totalBalance v;
                      successCount := successCount v;
                      failCount := S (failCount v) |}).

Definition totalBalance_add (balance : Num) : M Num (Vars Num * World) unit :=
  assign (fun v => {| totalBalance := numPlus (totalBalance v) balance;
                      successCount := successCount v;
                      failCount := failCount v |}).

(** The methods of the service created for account [i].  The source awaits
    each call but the [init] of the YesCoin and Blum branches, which it
    calls as a synchronous method and whose value it drops; here as there a
    throw of the call is one the [try] block catches. *)
Definition new (i : nat) (service : Service) : M Num (Vars Num * World) unit :=
  lift (call (env_new service) (New i service)).

Definition login (i : nat) (service : Service) (queryId : string)
  : M Num (Vars Num * World) (option string) :=
  lift (call (env_login service queryId) (Login i service queryId)).

Definition getNewToken (i : nat) (queryId : string)
  : M Num (Vars Num * World) (option string) :=
  lift (call (env_getNewToken queryId) (GetNewToken i queryId)).

Definition init (i : nat) (service : Service) (token : string) (wallet : Wallet)
  : M Num (Vars Num * World) bool :=
  lift (call (env_init service token wallet) (Init i service token wallet)).

Definition connectWallet (i : nat) (service : Service) : M Num (Vars Num * World) bool :=
  lift (call (env_connectWallet service) (ConnectWallet i service)).

Definition disconnectWallet (i : nat) (service : Service) : M Num (Vars Num * World) bool :=
  lift (call (env_disconnectWallet service) (DisconnectWallet i service)).

Definition getBalance (i : nat) : M Num (Vars Num * World) (option BalanceInfo) :=
  lift (call env_getBalance (GetBalance i)).

(** [await new Promise(resolve => setTimeout(resolve, ms))] with the random
    [ms] of line 327. *)
Definition delay (i : nat) : M Num (Vars Num * World) unit :=
  k <- lift Math_random ;;
  emit (SetTimeout i (randomDelay k)).

(** [walletData[i].mnemonic.substring(0, 20)] *)
Definition seedPrefix (walletData : list WalletData) (i : nat)
  : M Num (Vars Num * World) string :=
  entry <- property (nth_error walletData i) "undefined" "mnemonic" ;;
  phrase <- property (mnemonic entry) "undefined" "substring" ;;
  ret (substring 0 20 phrase).

(** Lines 284-289 and 316-321: the address, after the seed's first
    characters off PAWS (the connect branch indents the two lines, the
    display branch does not). *)
Definition showWallet (platform : string) (walletData : list WalletData) (i : nat)
    (processedWallet : Wallet) : M Num (Vars Num * World) unit :=
  if (platform =? "paws")%string then
    console (LAddress i (address processedWallet))
  else
    prefix <- seedPrefix walletData i ;;
    console (LSeed i prefix) ;;
    console (LAddress i (address processedWallet)).

Section Loop.

Variables (action : string) (queryIds : list string) (walletData : list WalletData)
          (version : option string) (platform : string).

(** [queryIds[i]]; the loop keeps [i] below [queryIds.length]. *)
Definition queryId (i : nat) : string := nth i queryIds EmptyString.

(** Lines 229-278: the wallet and the service of account [i]. *)
Definition prepare (i : nat) : M Num (Vars Num * World) (Wallet * Service) :=
  if (platform =? "paws")%string then
    entry <- property (nth_error walletData i) "undefined" "address" ;;
    walletAddress <- orElse (data_address entry)
      (console (LInvalidAddress i) ;; failCount_incr ;; continue) ;;
    let processedWallet := {| address := walletAddress; private_key := None |} in
    new i PawsService ;;
    pawsToken <- login i PawsService (queryId i) ;;
    pawsToken <- orElse pawsToken
      (console (LFailedLogin i) ;; failCount_incr ;; continue) ;;
    initialized <- init i PawsService pawsToken processedWallet ;;
    when (negb initialized)
         (console (LFailedInit i) ;; failCount_incr ;; continue) ;;
    ret (processedWallet, PawsService)
  else
    processedWallet <- lift (processWalletData (nth_error walletData i) version) ;;
    if (platform =? "tsubasa")%string then
      new i TsubasaService ;;
      init i TsubasaService (queryId i) processedWallet ;;
      ret (processedWallet, TsubasaService)
    else if (platform =? "yescoin")%string then
      new i YesCoinService ;;
      token <- login i YesCoinService (queryId i) ;;
      token <- orElse token
        (console (LFailedLogin i) ;; failCount_incr ;; continue) ;;
      init i YesCoinService token processedWallet ;;
      ret (processedWallet, YesCoinService)
    else
      new i BlumService ;;
      token <- getNewToken i (queryId i) ;;
      token <- orElse token
        (console (LFailedToken i) ;; failCount_incr ;; continue) ;;
      init i BlumService token processedWallet ;;
      ret (processedWallet, BlumService).

(** Lines 280-323: connect, disconnect or display. *)
Definition operate (i : nat) (processedWallet : Wallet) (service : Service)
  : M Num (Vars Num * World) unit :=
  if (action =? "1")%string then
    connected <- connectWallet i service ;;
    if connected then
      console (LConnected i) ;;
      showWallet platform walletData i processedWallet ;;
      when ((platform =? "blum")%string && env_hasGetBalance)
           (balanceInfo <- getBalance i ;;
            match balanceInfo with
            | Some info =>
                let balance := parseFloat (availableBalance info) in
                totalBalance_add balance ;;
                console (LBalance i balance)
            | None => ret tt
            end) ;;
      successCount_incr
    else
      console (LFailedConnect i) ;;
      failCount_incr
  else if (action =? "2")%string then
    disconnected <- disconnectWallet i service ;;
    if disconnected then
      console (LDisconnected i) ;;
      successCount_incr
    else
      console (LFailedDisconnect i) ;;
      failCount_incr
  else
    console (LAccount i) ;;
    showWallet platform walletData i processedWallet ;;
    successCount_incr.

(** Lines 222-333: the body of the [for] loop. *)
Definition processAccount (i : nat) : M Num (Vars Num * World) unit :=
  console (LProcessing i (length queryIds)) ;;
  console (LDashes 30) ;;
  tryCatch
    ('(processedWallet, service) <- prepare i ;;
     operate i processedWallet service ;;
     when (i <? length queryIds - 1) (delay i))
    (fun message =>
       console (LAccountError i message) ;;
       failCount_incr).

(** [for (let i = start; i < start + count; i++) body(i)]: a [continue] in
    the body goes on with the next [i], a [throw] leaves the loop. *)
Fixpoint forLoop (count start : nat) (body : nat -> M Num (Vars Num * World) unit)
  : M Num (Vars Num * World) unit :=
  match count with
  | 0 => ret tt
  | S count' =>
      fun s =>
        match body start s with
        | (Throw e, s1, t1) => (Throw e, s1, t1)
        | (_, s1, t1) =>
            let '(r, s2, t2) := forLoop count' (S start) body s1 in
            (r, s2, t1 ++ t2)
        end
  end.

(** Lines 213-215: the banner.  Off PAWS the template literal reads
    [version.toUpperCase()], which throws on a [null] version. *)
Definition header : M Num (Vars Num * World) unit :=
  console (LBlankRule 90) ;;
  shown <- (if (platform =? "paws")%string then ret None
            else v <- property version "null" "toUpperCase" ;;
                 ret (Some v)) ;;
  console (LHeader action shown platform) ;;
  console (LRuleBlank 90).

(** Lines 336-342 *)
Definition summary : M Num (Vars Num * World) unit :=
  console (LBlankRule 50) ;;
  vars <- readVars ;;
  when ((action =? "1")%string && (platform =? "blum")%string)
       (console (LTotalBalance (totalBalance vars))) ;;
  console (LSummary (successCount vars) (failCount vars)) ;;
  console (LRule 50).

(** The whole function: its three variables start at zero (line 217-219),
    and the object returned on line 344 holds their final values. *)
Definition processWallets : M Num World (Vars Num) :=
  scope {| totalBalance := numZero; successCount := 0; failCount := 0 |}
        (header ;;
         forLoop (length queryIds) 0 processAccount ;;
         summary ;;
         readVars).

End Loop.

End Program.

(** ** The menus, the service factory and [main] *)

Section Menus.

Context {Num World : Type} {ton : Ton} {numbers : Numbers Num}
        {env : Environment World}.

Local Open Scope js_scope.

(** *** [selectPlatform] (lines 87-107) *)

Definition platformPrompt : string :=
  ("Choose platform:" ++ newline ++
   "1. Blum" ++ newline ++
   "2. YesCoin" ++ newline ++
   "3. Tsubasa" ++ newline ++
   "4. PAWS" ++ newline ++
   "Select (1-4): ")%string.

Definition selectPlatform : M Num World string :=
  console (LBlankRule 50) ;;
  console (LTitle "Select Platform") ;;
  console (LRule 50) ;;
  platform <- askQuestion platformPrompt ;;
  (if platform =? "2" then ret "yescoin"
   else if platform =? "3" then ret "tsubasa"
   else if platform =? "4" then ret "paws"
   else ret "blum")%string.

(** *** [getServiceInstance] (lines 109-124)

    The function has no caller in the program; its two calls are recorded
    under the index [i] that the caller gives. *)
Definition getServiceInstance (i : nat) (platform token : string) (wallet : Wallet)
  : M Num (Vars Num * World) bool :=
  if (platform =? "yescoin")%string then
    new i YesCoinService ;;
    init i YesCoinService token wallet
  else if (platform =? "tsubasa")%string then
    new i TsubasaService ;;
    init i TsubasaService token wallet
  else if (platform =? "paws")%string then
    new i PawsService ;;
    init i PawsService token wallet
  else
    new i BlumService ;;
    init i BlumService token wallet.

(** *** [mainMenu] (lines 147-159) *)

Definition menuPrompt : string :=
  ("Choose an action:" ++ newline ++
   "1. Connect wallets" ++ newline ++
   "2. Disconnect wallets" ++ newline ++
   "3. Display all wallets" ++ newline ++
   "0. Exit" ++ newline ++
   "Enter choice (1-3, 0): ")%string.

Definition mainMenu : M Num World string :=
  console (LBlankRule 50) ;;
  console (LTitle "Main Menu") ;;
  console (LRule 50) ;;
  askQuestion menuPrompt.

End Menus.

(** *** [main] (lines 347-398)

    The lines that only [main] writes: the selected platform and the
    selected version (the line prints them in upper case), the goodbye, the
    invalid option, and the error line of its [catch].  The line of line
    365 has the text of the one of [loadData], [LLoaded]. *)
Inductive MainLine : Type :=
| LSelectedPlatform (platform : string)
| LSelectedVersion (version : string)
| LGoodbye
| LInvalidOption
| LMainError (message : string).

(** The events of [main]: those of the functions it calls, its own lines,
    and [rl.close()]. *)
Inductive MainEvent (Num : Type) : Type :=
| Inner (e : Event Num)
| Say (line : MainLine)
| Close.
Arguments Inner {Num} e.
Arguments Say {Num} line.
Arguments Close {Num}.

(** A computation of [main]: as [M] on the world, but it may fail to end
    within the rounds of the menu loop it was given, which is [None]. *)
Definition Prog (Num World A : Type) : Type :=
  World -> option (Completion A * World * list (MainEvent Num)).

Section Main.

Context {Num World : Type} {ton : Ton} {numbers : Numbers Num}
        {env : Environment World}.

Definition pret {A} (a : A) : Prog Num World A := fun w => Some (Normal a, w, []).

Definition pbind {A B} (m : Prog Num World A) (k : A -> Prog Num World B)
  : Prog Num World B :=
  fun w =>
    match m w with
    | None => None
    | Some (Normal a, w1, t1) =>
        match k a w1 with
        | None => None
        | Some (r, w2, t2) => Some (r, w2, t1 ++ t2)
        end
    | Some (Throw e, w1, t1) => Some (Throw e, w1, t1)
    | Some (Continue, w1, t1) => Some (Continue, w1, t1)
    end.

Definition pthrow {A} (message : string) : Prog Num World A :=
  fun w => Some (Throw message, w, []).

(** [try { block } catch (error) { handler(error.message) }] *)
Definition ptryCatch {A} (block : Prog Num World A) (handler : string -> Prog Num World A)
  : Prog Num World A :=
  fun w =>
    match block w with
    | Some (Throw e, w1, t1) =>
        match handler e w1 with
        | None => None
        | Some (r, w2, t2) => Some (r, w2, t1 ++ t2)
        end
    | done => done
    end.

(** [try { block } finally { finalizer }]: the finalizer runs however the
    block ended; the block's completion stays unless the finalizer throws. *)
Definition pfinally {A} (block : Prog Num World A) (finalizer : Prog Num World unit)
  : Prog Num World A :=
  fun w =>
    match block w with
    | None => None
    | Some (r, w1, t1) =>
        match finalizer w1 with
        | None => None
        | Some (Normal _, w2, t2) => Some (r, w2, t1 ++ t2)
        | Some (Throw e, w2, t2) => Some (Throw e, w2, t1 ++ t2)
        | Some (Continue, w2, t2) => Some (Continue, w2, t1 ++ t2)
        end
    end.

(** A call of one of the functions above. *)
Definition run {A} (m : M Num World A) : Prog Num World A :=
  fun w => let '(r, w', t) := m w in Some (r, w', map Inner t).

Definition say (line : MainLine) : Prog Num World unit :=
  fun w => Some (Normal tt, w, [Say line]).

Definition close : Prog Num World unit :=
  fun w => Some (Normal tt, w, [Close]).

Definition postActionPrompt : string :=
  (newline ++ "Choose an action:" ++ newline ++
   "1. Back to main menu" ++ newline ++
   "2. Exit" ++ newline ++
   "Enter choice (1-2): ")%string.

(** [["1", "2", "3"].includes(action)] *)
Definition includes (l : list string) (s : string) : bool := existsb (String.eqb s) l.

(** Lines 367-392: the [while (true)] loop, for at most [rounds] rounds; a
    [break] ends it. *)
Fixpoint menuLoop (rounds : nat) (data : Loaded) (version : option string)
    (platform : string) : Prog Num World unit :=
  match rounds with
  | 0 => fun _ => None
  | S rounds' =>
      pbind (run mainMenu) (fun action =>
      if (action =? "0")%string then
        say LGoodbye
      else if includes ["1"; "2"; "3"]%string action then
        pbind (run (processWallets action (queryIds data) (walletData data)
                      version platform)) (fun _ =>
        pbind (run (askQuestion postActionPrompt)) (fun postAction =>
        if (postAction =? "2")%string then
          say LGoodbye
        else
          menuLoop rounds' data version platform))
      else
        pbind (say LInvalidOption) (fun _ =>
        menuLoop rounds' data version platform))
  end.

(** Lines 348-397: the selections, the loading and the menu loop in a
    [try] whose [catch] writes the error and whose [finally] closes the
    terminal.  [rounds] bounds the menu loop. *)
Definition main (rounds : nat) : Prog Num World unit :=
  pfinally
    (ptryCatch
       (pbind (run selectPlatform) (fun platform =>
        pbind (say (LSelectedPlatform platform)) (fun _ =>
        pbind (if (platform =? "paws")%string then pret None
               else pbind (run selectWalletVersion) (fun v => pret (Some v)))
              (fun version =>
        pbind (match version with
               | Some v => if JSString.truthy v then say (LSelectedVersion v) else pret tt
               | None => pret tt
               end) (fun _ =>
        pbind (run (loadData platform)) (fun data =>
        pbind (match data with
               | Some data => pret data
               | None => pthrow "Failed to load data"
               end) (fun data =>
        pbind (run (console (LLoaded (length (walletData data))))) (fun _ =>
        menuLoop rounds data version platform))))))))
       (fun message => say (LMainError message)))
    close.

End Main.

(** ** Reading a trace *)

(** The values [f] finds in a list, in order. *)
Definition collect {A B : Type} (f : A -> option B) (l : list A) : list B :=
  flat_map (fun a => match f a with Some b => [b] | None => [] end) l.

Section Traces.

Context {Num : Type}.

(** The account a console line is about, when it names one. *)
Definition lineAccount (line : LogLine Num) : option nat :=
  match line with
  | LProcessing i _ | LInvalidAddress i | LFailedLogin i | LFailedInit i
  | LFailedToken i | LConnected i | LSeed i _ | LAddress i _ | LBalance i _
  | LFailedConnect i | LDisconnected i | LFailedDisconnect i | LAccount i
  | LAccountError i _ => Some i
  | _ => None
  end.

(** The account an event belongs to. *)
Definition accountOf (e : Event Num) : option nat :=
  match e with
  | Console line => lineAccount line
  | Question _ _ => None
  | New i _ _ | Login i _ _ _ | GetNewToken i _ _ | Init i _ _ _ _
  | ConnectWallet i _ _ | DisconnectWallet i _ _ | GetBalance i _
  | SetTimeout i _ => Some i
  end.

Definition accounts (t : list (Event Num)) : list nat := collect accountOf t.

(** The steps of an account: getting a token (by [login] or [getNewToken]),
    initialising the service, and the selected operation (a [connectWallet]
    or [disconnectWallet] call, or the display of the account). *)
Inductive Step : Type := Acquire | Initialize | Operate.

Definition stepOf (e : Event Num) : option Step :=
  match e with
  | Login _ _ _ _ | GetNewToken _ _ _ => Some Acquire
  | Init _ _ _ _ _ => Some Initialize
  | ConnectWallet _ _ _ | DisconnectWallet _ _ _ | Console (LAccount _) => Some Operate
  | _ => None
  end.

Definition steps (t : list (Event Num)) : list Step := collect stepOf t.

(** A [login] or [getNewToken] that gave no token: it returned a falsy
    value, or it threw. *)
Definition noToken (e : Event Num) : bool :=
  match e with
  | Login _ _ _ r | GetNewToken _ _ r =>
      match r with Returns v => negb (truthyOpt v) | Throws _ => true end
  | _ => false
  end.

(** The platform operations one account may see. *)
Inductive Operation : Type :=
| OpLogin | OpGetNewToken | OpInit | OpConnectWallet | OpDisconnectWallet.

Definition operationOf (e : Event Num) : option (nat * Operation) :=
  match e with
  | Login i _ _ _ => Some (i, OpLogin)
  | GetNewToken i _ _ => Some (i, OpGetNewToken)
  | Init i _ _ _ _ => Some (i, OpInit)
  | ConnectWallet i _ _ => Some (i, OpConnectWallet)
  | DisconnectWallet i _ _ => Some (i, OpDisconnectWallet)
  | _ => None
  end.

(** The operations attempted, each with its account, in order. *)
Definition operations (t : list (Event Num)) : list (nat * Operation) :=
  collect operationOf t.

(** An operation failed, as far as the loop looks: the call threw, or it
    returned a falsy value that the loop tests ([init]'s value is tested
    on PAWS only). *)
Definition failedOperation (e : Event Num) : bool :=
  match e with
  | Login _ _ _ r | GetNewToken _ _ r =>
      match r with Returns v => negb (truthyOpt v) | Throws _ => true end
  | Init _ service _ _ r =>
      match r with
      | Returns ok => match service with PawsService => negb ok | _ => false end
      | Throws _ => true
      end
  | ConnectWallet _ _ r | DisconnectWallet _ _ r =>
      match r with Returns ok => negb ok | Throws _ => true end
  | _ => false
  end.

(** No operation is attempted after a failed one. *)
Fixpoint failuresLast (t : list (Event Num)) : Prop :=
  match t with
  | [] => True
  | e :: t' => (failedOperation e = true -> operations t' = []) /\ failuresLast t'
  end.

(** The balance a [getBalance] event brought. *)
Definition balanceOf `{Numbers Num} (e : Event Num) : option Num :=
  match e with
  | GetBalance _ (Returns (Some info)) => Some (parseFloat (availableBalance info))
  | _ => None
  end.

(** The balances a run read: one for each [getBalance] that resolved to an
    object. *)
Definition balances `{Numbers Num} (t : list (Event Num)) : list Num :=
  collect balanceOf t.

(** The sum the program forms of them: [totalBalance += balance], from the
    left. *)
Definition sumFrom `{Numbers Num} (start : Num) (bs : list Num) : Num :=
  fold_left numPlus bs start.

Definition isSetTimeout (e : Event Num) : bool :=
  match e with SetTimeout _ _ => true | _ => false end.

(** The event is of account [i], or of none. *)
Definition belongsTo (i : nat) (e : Event Num) : Prop :=
  match accountOf e with Some j => j = i | None => True end.

(** A call that takes a query id takes the one at its account's index. *)
Definition usesQuery (queryIds : list string) (e : Event Num) : Prop :=
  match e with
  | Login j _ q _ | GetNewToken j q _ | Init j TsubasaService q _ _ =>
      q = nth j queryIds EmptyString
  | _ => True
  end.

(** A timer is set after an account that is not the last of [n], for 1000
    to 3000 milliseconds. *)
Definition timerInRange (n : nat) (e : Event Num) : Prop :=
  match e with
  | SetTimeout j ms => S j < n /\ (1000 <= ms <= 3000)%Z
  | _ => True
  end.

End Traces.

(** The order of the steps on a platform: Tsubasa's service is initialised
    with the query id itself. *)
Definition expectedSteps (platform : string) : list Step :=
  if (platform =? "tsubasa")%string then [Initialize; Operate]
  else [Acquire; Initialize; Operate].

(** The file [loadData] reads first: addresses on PAWS, seed phrases
    elsewhere. *)
Definition firstFile (platform : string) : string :=
  if (platform =? "paws")%string then "wallet.txt" else "seed.txt".

(** The wallet entry [loadData] makes of a line. *)
Definition entryOf (platform : string) (line : string) : WalletData :=
  if (platform =? "paws")%string
  then {| data_address := Some (JSString.trim line); mnemonic := None |}
  else {| data_address := None; mnemonic := Some line |}.

(** The lower-case form of [version] is one of the three [case] labels. *)
Definition supportedVersion (version : string) : Prop :=
  let selector := JSString.toLowerCase version in
  (selector = "v3r2" \/ selector = "v4" \/ selector = "v5")%string.

(** The arguments every [create] call of the program passes. *)
Definition fixedArgs (keyPair : KeyPair) : CreateArgs :=
  {| workchain := 0; args_publicKey := publicKey keyPair; walletId := 698983191 |}.

(** ** Postconditions

    [post m s Q]: the run of [m] from [s] ends in a completion, a state and
    a trace that [Q] holds of. *)
Definition post {Num S A : Type} (m : M Num S A) (s : S)
    (Q : Completion A -> S -> list (Event Num) -> Prop) : Prop :=
  let '(r, s', t) := m s in Q r s' t.

(** What one round of the loop of [processWallets] does, for account [i],
    started with the variables [vars]: how it ends, what it counts, and
    what its events are. *)
Definition accountSpec {Num World : Type} `{Numbers Num}
    (action : string) (queryIds : list string) (platform : string) (i : nat)
    (vars : Vars Num) (r : Completion unit) (s' : Vars Num * World)
    (t : list (Event Num)) : Prop :=
  let vars' := fst s' in
  (r = Normal tt \/ r = Continue) /\
  ((successCount vars' = S (successCount vars) /\ failCount vars' = failCount vars /\
    steps t = expectedSteps platform /\
    forallb (fun e => negb (failedOperation e)) t = true) \/
   (successCount vars' = successCount vars /\ failCount vars' = S (failCount vars))) /\
  Forall (belongsTo i) t /\
  NoDup (operations t) /\
  failuresLast t /\
  (exists rest, steps t ++ rest = expectedSteps platform) /\
  (existsb noToken t = true ->
     steps t = [Acquire] /\ failCount vars' = S (failCount vars) /\
     successCount vars' = successCount vars) /\
  totalBalance vars' = sumFrom (totalBalance vars) (balances t) /\
  (forall j o, In (GetBalance j o) t ->
     action = "1"%string /\ platform = "blum"%string /\
     In (ConnectWallet j BlumService (Returns true)) t) /\
  Forall (usesQuery queryIds) t /\
  Forall (timerInRange (length queryIds)) t /\
  (exists t', t = Console (LProcessing i (length queryIds)) :: t') /\
  (existsb isSetTimeout t = true -> In Operate (steps t)).

(** A trace whose events belong to no account. *)
Definition quiet {Num : Type} (t : list (Event Num)) : Prop :=
  Forall (fun e => accountOf e = None) t.

(** The loop's invariant, before round [i]: [t] is the trace since the loop
    began with the variables [vars0]. *)
Definition loopInv {Num World : Type} `{Numbers Num}
    (action : string) (queryIds : list string) (platform : string)
    (vars0 : Vars Num) (i : nat) (s : Vars Num * World) (t : list (Event Num)) : Prop :=
  successCount (fst s) + failCount (fst s) = successCount vars0 + failCount vars0 + i /\
  totalBalance (fst s) = sumFrom (totalBalance vars0) (balances t) /\
  (forall j, j < i -> In j (accounts t)) /\
  StronglySorted le (accounts t) /\
  Forall (fun j => j < i) (accounts t) /\
  NoDup (operations t) /\
  (forall j o, In (GetBalance j o) t ->
     action = "1"%string /\ platform = "blum"%string /\
     In (ConnectWallet j BlumService (Returns true)) t) /\
  Forall (usesQuery queryIds) t /\
  Forall (timerInRange (length queryIds)) t.

(** What a whole run of [processWallets] does: how it ends and what its
    events are. *)
Definition runSpec {Num : Type} `{Numbers Num}
    (action : string) (queryIds : list string) (version : option string)
    (platform : string) (r : Completion (Vars Num)) (t : list (Event Num)) : Prop :=
  match r with
  | Normal result =>
      successCount result + failCount result = length queryIds /\
      totalBalance result = sumFrom numZero (balances t) /\
      (forall i, i < length queryIds -> In i (accounts t))
  | Throw _ => platform <> "paws"%string /\ version = None /\ accounts t = []
  | Continue => False
  end /\
  StronglySorted le (accounts t) /\
  Forall (fun i => i < length queryIds) (accounts t) /\
  NoDup (operations t) /\
  (forall j o, In (GetBalance j o) t ->
     action = "1"%string /\ platform = "blum"%string /\
     In (ConnectWallet j BlumService (Returns true)) t) /\
  Forall (usesQuery queryIds) t /\
  Forall (timerInRange (length queryIds)) t.

(** ** More to read off strings and traces *)

(** How often the code unit [c] occurs in [s]. *)
Fixpoint occurrences (c : ascii) (s : string) : nat :=
  match s with
  | EmptyString => 0
  | String a s' => (if Ascii.eqb a c then 1 else 0) + occurrences c s'
  end.

(** Every code unit of [s] is white space. *)
Fixpoint allWhiteSpace (s : string) : bool :=
  match s with
  | EmptyString => true
  | String a s' => JSString.isWhiteSpace a && allWhiteSpace s'
  end.

(** One of the digits 0-9 and a-f. *)
Definition isHexDigit (c : ascii) : bool :=
  let n := nat_of_ascii c in
  ((48 <=? n) && (n <=? 57)) || ((97 <=? n) && (n <=? 102)).

(** Every code unit of [s] is a hexadecimal digit. *)
Definition allHex (s : string) : bool :=
  forallb isHexDigit (list_ascii_of_string s).

(** The value of a hexadecimal digit, and the byte two digits stand for. *)
Definition hexValue (c : ascii) : N :=
  let n := N_of_ascii c in if (n <? 58)%N then (n - 48)%N else (n - 87)%N.

Definition firstByte (s : string) : option byte :=
  match s with
  | String a (String b _) => Byte.of_N (16 * hexValue a + hexValue b)
  | _ => None
  end.

(** The service class of a platform: the cases of the [switch] of
    [getServiceInstance]. *)
Definition serviceFor (platform : string) : Service :=
  if (platform =? "yescoin")%string then YesCoinService
  else if (platform =? "tsubasa")%string then TsubasaService
  else if (platform =? "paws")%string then PawsService
  else BlumService.

Section MoreTraces.

Context {Num World : Type} {ton : Ton}.

(** A call of a service: a constructor or a method. *)
Definition isServiceCall (e : Event Num) : bool :=
  match e with
  | New _ _ _ | Login _ _ _ _ | GetNewToken _ _ _ | Init _ _ _ _ _
  | ConnectWallet _ _ _ | DisconnectWallet _ _ _ | GetBalance _ _ => true
  | _ => false
  end.

(** The event is a call on a service of class [service]; [getNewToken] and
    [getBalance] are called on the Blum service only. *)
Definition usesService (service : Service) (e : Event Num) : Prop :=
  match e with
  | New _ s _ | Login _ s _ _ | Init _ s _ _ _ | ConnectWallet _ s _
  | DisconnectWallet _ s _ => s = service
  | GetNewToken _ _ _ | GetBalance _ _ => service = BlumService
  | _ => True
  end.

(** What the action and the platform allow an event to be. *)
Definition allowed (action platform : string) (e : Event Num) : Prop :=
  match e with
  | ConnectWallet _ _ _ => action = "1"%string
  | DisconnectWallet _ _ _ => action = "2"%string
  | Console (LAccount _) => action <> "1"%string /\ action <> "2"%string
  | Console (LSeed _ _) => action <> "2"%string /\ platform <> "paws"%string
  | Login _ _ _ _ => platform = "paws"%string \/ platform = "yescoin"%string
  | GetNewToken _ _ _ =>
      platform <> "paws"%string /\ platform <> "tsubasa"%string /\
      platform <> "yescoin"%string
  | _ => True
  end.

(** The wallet of account [j]: on PAWS the address of its entry and no
    key; elsewhere the address and the key derived from the words of its
    seed phrase. *)
Definition walletFor (walletData : list WalletData) (version : option string)
    (platform : string) (j : nat) (wallet : Wallet) : Prop :=
  exists entry : WalletData,
    nth_error walletData j = Some entry /\
    if (platform =? "paws")%string then
      data_address entry = Some (address wallet) /\ private_key wallet = None
    else
      exists (phrase : string) (keyPair : KeyPair),
        mnemonic entry = Some phrase /\
        mnemonicToWalletKey (JSString.split " " (JSString.trim phrase)) = Returns keyPair /\
        private_key wallet = Some (toHex (secretKey keyPair)) /\
        forall w : World,
          getWalletAddressFromSeed (Num := Num)
            (JSString.split " " (JSString.trim phrase)) version w =
            (Normal (address wallet), w, []).

(** Every [init] of the trace is given the wallet of its account. *)
Definition initsGetWallet (walletData : list WalletData) (version : option string)
    (platform : string) (e : Event Num) : Prop :=
  match e with
  | Init j _ _ wallet _ => walletFor walletData version platform j wallet
  | _ => True
  end.

(** A line that reports a failed account, and a line that reports a
    connected or disconnected wallet. *)
Definition isFailureLine (e : Event Num) : bool :=
  match e with
  | Console (LInvalidAddress _) | Console (LFailedLogin _) | Console (LFailedInit _)
  | Console (LFailedToken _) | Console (LFailedConnect _)
  | Console (LFailedDisconnect _) | Console (LAccountError _ _) => true
  | _ => false
  end.

Definition isSuccessLine (e : Event Num) : bool :=
  match e with
  | Console (LConnected _) | Console (LDisconnected _) => true
  | _ => false
  end.

(** A seed line shows the first 20 code units of its account's phrase. *)
Definition seedLineShows (walletData : list WalletData) (e : Event Num) : Prop :=
  match e with
  | Console (LSeed j shown) =>
      exists entry phrase,
        nth_error walletData j = Some entry /\ mnemonic entry = Some phrase /\
        shown = substring 0 20 phrase
  | _ => True
  end.

(** Why [getWalletAddressFromSeed] fails after [processWalletData] has
    derived the key pair: the version is [null] or not a supported one. *)
Definition versionFailure (version : option string) (message : string) : Prop :=
  (version = None /\ message = typeError "null" "toLowerCase") \/
  (exists v, version = Some v /\ ~ supportedVersion v /\
             message = "Unsupported wallet version"%string).

(** A "Detailed error" line is written off PAWS only, for such a version. *)
Definition detailedErrorLine (version : option string) (platform : string)
    (e : Event Num) : Prop :=
  match e with
  | Console (LDetailedError message) =>
      platform <> "paws"%string /\ versionFailure version message
  | _ => True
  end.

(** The failure line is about an account whose PAWS entry has no address. *)
Definition invalidAddressLine (walletData : list WalletData) (platform : string)
    (e : Event Num) : Prop :=
  match e with
  | Console (LInvalidAddress j) =>
      platform = "paws"%string /\
      exists entry, nth_error walletData j = Some entry /\
                    truthyOpt (data_address entry) = false
  | _ => True
  end.

(** A service is called only for an account that has a wallet entry. *)
Definition hasEntry (walletData : list WalletData) (e : Event Num) : Prop :=
  if isServiceCall e then
    match accountOf e with
    | Some j => nth_error walletData j <> None
    | None => True
    end
  else True.

(** The message of the error that a missing wallet entry raises. *)
Definition missingEntry (platform : string) : string :=
  if (platform =? "paws")%string then typeError "undefined" "address"
  else ("Error processing wallet data: " ++ typeError "undefined" "mnemonic")%string.

(** A line of the banner or of the summary of [processWallets], or an
    event of the menus. *)
Definition isFrame (e : Event Num) : bool :=
  match e with
  | Console (LBlankRule _) | Console (LRule _) | Console (LRuleBlank _)
  | Console (LTitle _) | Console (LLoaded _) | Console (LErrorLoading _)
  | Console (LHeader _ _ _) | Console (LTotalBalance _) | Console (LSummary _ _)
  | Question _ _ => true
  | _ => false
  end.

(** What holds of the events of a round, and of those of a whole run. *)
Definition traceFacts (action : string) (queryIds : list string)
    (walletData : list WalletData) (version : option string) (platform : string)
    (t : list (Event Num)) : Prop :=
  Forall (usesService (serviceFor platform)) t /\
  Forall (allowed action platform) t /\
  Forall (initsGetWallet walletData version platform) t /\
  (forall j service token wallet o,
      In (Init j service token wallet o) t ->
      (service = TsubasaService /\ token = nth j queryIds EmptyString) \/
      (JSString.truthy token = true /\
       ((exists q, In (Login j service q (Returns (Some token))) t) \/
        (exists q, In (GetNewToken j q (Returns (Some token))) t)))) /\
  Forall (invalidAddressLine walletData platform) t /\
  Forall (seedLineShows walletData) t /\
  (forall j a, In (Console (LAddress j a)) t ->
     exists service token wallet o,
       In (Init j service token wallet o) t /\ address wallet = a) /\
  Forall (hasEntry walletData) t /\
  Forall (detailedErrorLine version platform) t.

(** More of what one round of the loop does, for account [i]. *)
Definition accountFacts `{Numbers Num}
    (action : string) (queryIds : list string) (walletData : list WalletData)
    (version : option string) (platform : string) (i : nat)
    (vars : Vars Num) (r : Completion unit) (s' : Vars Num * World)
    (t : list (Event Num)) : Prop :=
  traceFacts action queryIds walletData version platform t /\
  Forall (fun e => isFrame e = false) t /\
  failCount (fst s') = failCount vars + length (filter isFailureLine t) /\
  (existsb isSuccessLine t = true -> failCount (fst s') = S (failCount vars) ->
   exists message,
     In (GetBalance i (Throws message)) t /\
     In (Console (LAccountError i message)) t) /\
  length (filter isSetTimeout t) <= (if S i <? length queryIds then 1 else 0) /\
  (existsb isSetTimeout t = true -> exists ms t0, t = t0 ++ [SetTimeout i ms]) /\
  (nth_error walletData i = None ->
   t = [Console (LProcessing i (length queryIds)); Console (LDashes 30);
        Console (LAccountError i (missingEntry platform))] /\
   failCount (fst s') = S (failCount vars)).

(** The invariant of the loop for these facts, before round [i]. *)
Definition loopFacts `{Numbers Num}
    (action : string) (queryIds : list string) (walletData : list WalletData)
    (version : option string) (platform : string)
    (vars0 : Vars Num) (i : nat) (s : Vars Num * World) (t : list (Event Num)) : Prop :=
  traceFacts action queryIds walletData version platform t /\
  Forall (fun e => isFrame e = false) t /\
  failCount (fst s) = failCount vars0 + length (filter isFailureLine t) /\
  length (filter isSetTimeout t) <= i /\
  length (filter isSetTimeout t) <= length queryIds - 1.

(** The lines before and after the loop. *)
Definition banner (action : string) (version : option string) (platform : string)
  : list (Event Num) :=
  [Console (LBlankRule 90);
   Console (LHeader action (if (platform =? "paws")%string then None else version) platform);
   Console (LRuleBlank 90)].

Definition footer (action platform : string) (result : Vars Num) : list (Event Num) :=
  Console (LBlankRule 50) ::
  (if ((action =? "1") && (platform =? "blum"))%string
   then [Console (LTotalBalance (totalBalance result))] else []) ++
  [Console (LSummary (successCount result) (failCount result)); Console (LRule 50)].

(** How a run of [processWallets] ends and what its trace is made of. *)
Definition runShape `{Numbers Num}
    (action : string) (queryIds : list string) (walletData : list WalletData)
    (version : option string) (platform : string)
    (w : World) (r : Completion (Vars Num)) (w' : World) (t : list (Event Num)) : Prop :=
  (platform <> "paws"%string /\ version = None /\
   r = Throw (typeError "null" "toUpperCase") /\ w' = w /\
   t = [Console (LBlankRule 90)]) \/
  ((platform = "paws"%string \/ version <> None) /\
   exists result rounds,
     r = Normal result /\
     t = banner action version platform ++ rounds ++ footer action platform result /\
     loopInv action queryIds platform
       {| totalBalance := numZero; successCount := 0; failCount := 0 |}
       (length queryIds) (result, w') rounds /\
     loopFacts action queryIds walletData version platform
       {| totalBalance := numZero; successCount := 0; failCount := 0 |}
       (length queryIds) (result, w') rounds).

End MoreTraces.

(** [ends m w Q]: when the run of [m] from [w] ends, [Q] holds of its
    completion, its world and its trace. *)
Definition ends {Num World A : Type} (m : Prog Num World A) (w : World)
    (Q : Completion A -> World -> list (MainEvent Num) -> Prop) : Prop :=
  match m w with
  | None => True
  | Some (r, w', t) => Q r w' t
  end.

(** What a session of [main] may show between the second "Loaded" line
    and the goodbye: events of the menu and of the batches, each batch for
    one of the three actions, the platform and the version of the session;
    and the line about an invalid option. *)
Definition sessionEvent {Num : Type} (version : option string) (platform : string)
    (e : MainEvent Num) : Prop :=
  match e with
  | Inner (Console (LHeader act shown p)) =>
      includes ["1"; "2"; "3"]%string act = true /\ p = platform /\
      shown = (if (platform =? "paws")%string then None else version)
  | Inner (Console (LDetailedError message)) =>
      platform <> "paws"%string /\ versionFailure version message
  | Inner _ => True
  | Say LInvalidOption => True
  | _ => False
  end.

(** The events of [main] before the menu loop: the two selections and the
    loading. *)
Definition setupEvent {Num : Type} (e : MainEvent Num) : Prop :=
  match e with
  | Inner (Console (LBlankRule _)) | Inner (Console (LRule _))
  | Inner (Console (LTitle _)) | Inner (Question _ _)
  | Inner (Console (LLoaded _)) | Inner (Console (LErrorLoading _))
  | Say (LSelectedPlatform _) | Say (LSelectedVersion _) => True
  | _ => False
  end.

(** How a run of [main] that ends is made up. *)
Definition mainShape {Num : Type} (r : Completion unit) (t : list (MainEvent Num))
  : Prop :=
  r = Normal tt /\
  exists (platform : string) (version : option string)
         (setup rest : list (MainEvent Num)),
    t = setup ++ rest ++ [Close] /\
    Forall setupEvent setup /\
    In (Say (LSelectedPlatform platform)) setup /\
    (platform = "yescoin" \/ platform = "tsubasa" \/ platform = "paws" \/
     platform = "blum") /\
    ((platform = "paws" /\ version = None) \/
     (platform <> "paws" /\
      exists v, version = Some v /\ (v = "v3r2" \/ v = "v4" \/ v = "v5") /\
                In (Say (LSelectedVersion v)) setup)) /\
    ((exists message,
         rest = [Inner (Console (LErrorLoading message));
                 Say (LMainError "Failed to load data")]) \/
     (exists (n : nat) (session : list (MainEvent Num)),
         rest = Inner (Console (LLoaded n)) :: Inner (Console (LLoaded n)) ::
                session ++ [Say LGoodbye] /\
         Forall (sessionEvent version platform) session)).

(** ** A sample environment

    A small library, number system and world to run the program on: keys
    and addresses are made up, every service call succeeds, except that no
    token is given for the query id [bad]. *)
Module Sample.

Definition ton : Ton := {|
  mnemonicToWalletKey := fun words =>
    match words with
    | [] => Throws "no words"
    | _ => Returns {| publicKey := [x01]; secretKey := [xab; xcd] |}
    end;
  addressToString := fun wallet _ =>
    match wallet with
    | WalletContractV3R2 _ => "UQ-v3r2"
    | WalletContractV4 _ => "UQ-v4"
    | WalletContractV5R1 _ => "UQ-v5"
    end
|}.

Definition numbers : Numbers Z := {|
  numZero := 0%Z;
  numPlus := Z.add;
  parseFloat := fun text => Z.of_nat (String.length text)
|}.

Definition token (queryId : string) : Outcome (option string) :=
  if (queryId =? "bad")%string then Returns None
  else Returns (Some ("token-" ++ queryId)%string).

Definition files (path : string) : Outcome string :=
  if (path =? "query.txt")%string then Returns ("q1" ++ newline ++ "q2" ++ newline)%string
  else if (path =? "seed.txt")%string then
    Returns ("a b" ++ newline ++ "  " ++ newline ++ "c d")%string
  else Throws "ENOENT: no such file or directory".

Definition env : Environment unit := {|
  env_new := fun _ w => (Returns tt, w);
  env_login := fun _ queryId w => (token queryId, w);
  env_getNewToken := fun queryId w => (token queryId, w);
  env_init := fun _ _ _ w => (Returns true, w);
  env_connectWallet := fun _ w => (Returns true, w);
  env_disconnectWallet := fun _ w => (Returns true, w);
  env_hasGetBalance := true;
  env_getBalance := fun w => (Returns (Some {| availableBalance := "12.5" |}), w);
  env_random := fun w => (5%Z, w);
  env_readFileSync := fun path _ => files path;
  env_question := fun _ w => ("3", w)
|}.

(** A seed phrase of 24 words, and one of two. *)
Definition seed24 : string := "a b c d e f g h i j k l m n o p q r s t u v w x".
Definition seed2 : string := "a b".

Definition entry (phrase : string) : WalletData :=
  {| data_address := None; mnemonic := Some phrase |}.

End Sample.

(** ** A scripted session

    The sample library and services, with a terminal whose answers are the
    lines of the world, in order; when they are used up the answer is 0.
    The files are a parameter: those of a PAWS and of a seed-phrase run,
    none at all, or blank ones. *)
Module Scripted.

Definition files (path : string) : Outcome string :=
  if (path =? "query.txt")%string then Returns ("q1" ++ newline ++ "q2" ++ newline)%string
  else if (path =? "seed.txt")%string then
    Returns (Sample.seed24 ++ newline ++ newline ++ Sample.seed2 ++ newline)%string
  else if (path =? "wallet.txt")%string then
    Returns ("UQ-one" ++ newline ++ "  UQ-two  " ++ newline)%string
  else Throws "ENOENT: no such file or directory".

Definition noFiles (path : string) : Outcome string :=
  Throws "ENOENT: no such file or directory".

Definition blankFiles (path : string) : Outcome string :=
  Returns (newline ++ "  " ++ newline)%string.

Definition env (files : string -> Outcome string) : Environment (list string) := {|
  env_new := fun _ w => (Returns tt, w);
  env_login := fun _ queryId w => (Sample.token queryId, w);
  env_getNewToken := fun queryId w => (Sample.token queryId, w);
  env_init := fun _ _ _ w => (Returns true, w);
  env_connectWallet := fun _ w => (Returns true, w);
  env_disconnectWallet := fun _ w => (Returns true, w);
  env_hasGetBalance := true;
  env_getBalance := fun w => (Returns (Some {| availableBalance := "12.5" |}), w);
  env_random := fun w => (5%Z, w);
  env_readFileSync := fun path _ => files path;
  env_question := fun _ w =>
    match w with
    | [] => ("0"%string, [])
    | answer :: rest => (answer, rest)
    end
|}.

End Scripted.

(** ** Services that are not ready

    The sample library and world, with services whose [init] answers
    [false]. *)
Module Unready.

Definition env : Environment unit := {|
  env_new := fun _ w => (Returns tt, w);
  env_login := fun _ queryId w => (Sample.token queryId, w);
  env_getNewToken := fun queryId w => (Sample.token queryId, w);
  env_init := fun _ _ _ w => (Returns false, w);
  env_connectWallet := fun _ w => (Returns true, w);
  env_disconnectWallet := fun _ w => (Returns true, w);
  env_hasGetBalance := true;
  env_getBalance := fun w => (Returns (Some {| availableBalance := "12.5" |}), w);
  env_random := fun w => (5%Z, w);
  env_readFileSync := fun path _ => Sample.files path;
  env_question := fun _ w => ("3", w)
|}.

End Unready.

(** * Properties *)

(** ** Wallet derivation *)

Section Derivation.

Context {Num World : Type} {ton : Ton} {numbers : Numbers Num}
        {env : Environment World}.

Lemma supportedVersion_cases (v : string) :
  supportedVersion v \/
  ((JSString.toLowerCase v =? "v3r2") = false /\
   (JSString.toLowerCase v =? "v4") = false /\
   (JSString.toLowerCase v =? "v5") = false)%string.
Proof.
  unfold supportedVersion.
  destruct (String.eqb_spec (JSString.toLowerCase v) "v3r2"); auto.
  destruct (String.eqb_spec (JSString.toLowerCase v) "v4"); auto.
  destruct (String.eqb_spec (JSString.toLowerCase v) "v5"); auto.
Qed.

(** With a key pair and a supported version, the address is the text of the
    contract of that version, created with the fixed arguments. *)
Lemma getWalletAddressFromSeed_supported
    (words : list string) (v : string) (keyPair : KeyPair) :
  mnemonicToWalletKey words = Returns keyPair ->
  supportedVersion v ->
  exists wallet,
    ((JSString.toLowerCase v = "v3r2" /\ wallet = WalletContractV3R2 (fixedArgs keyPair)) \/
     (JSString.toLowerCase v = "v4" /\ wallet = WalletContractV4 (fixedArgs keyPair)) \/
     (JSString.toLowerCase v = "v5" /\ wallet = WalletContractV5R1 (fixedArgs keyPair)))%string /\
    forall w : World,
      getWalletAddressFromSeed (Num := Num) words (Some v) w =
        (Normal (addressToString wallet {| urlSafe := true; bounceable := false |}), w, []).
Proof.
  intros Hkey Hv.
  unfold getWalletAddressFromSeed, tryCatch, bind, await. rewrite Hkey. cbn.
  destruct Hv as [Hv | [Hv | Hv]]; rewrite Hv; cbn;
    eexists; (split; [| reflexivity]); auto.
Qed.

(** With a key pair and any other version, the [default] branch throws and
    the [catch] rewraps its message. *)
Lemma getWalletAddressFromSeed_unsupported
    (words : list string) (v : string) (keyPair : KeyPair) (w : World) :
  mnemonicToWalletKey words = Returns keyPair ->
  ~ supportedVersion v ->
  getWalletAddressFromSeed (Num := Num) words (Some v) w =
    (Throw "Error generating wallet address: Unsupported wallet version", w,
     [Console (LDetailedError "Unsupported wallet version")]).
Proof.
  intros Hkey Hv.
  destruct (supportedVersion_cases v) as [? | (H1 & H2 & H3)]; [contradiction |].
  unfold getWalletAddressFromSeed, tryCatch, bind, await. rewrite Hkey. cbn.
  rewrite H1, H2, H3. reflexivity.
Qed.

(** Without a key pair the function throws whatever the version is. *)
Lemma getWalletAddressFromSeed_no_key
    (words : list string) (version : option string) (message : string) (w : World) :
  mnemonicToWalletKey words = Throws message ->
  getWalletAddressFromSeed (Num := Num) words version w =
    (Throw ("Error generating wallet address: " ++ message)%string, w,
     [Console (LDetailedError message)]).
Proof.
  intros Hkey.
  unfold getWalletAddressFromSeed, tryCatch, bind, await. rewrite Hkey. reflexivity.
Qed.

(** The function ends normally or by a throw, in the world it started from,
    and all it may write is the one console line of its [catch]. *)
Lemma getWalletAddressFromSeed_completes
    (words : list string) (version : option string) (w : World) :
  exists r t,
    getWalletAddressFromSeed (Num := Num) words version w = (r, w, t) /\
    r <> Continue /\
    (t = [] \/ exists message, t = [Console (LDetailedError message)]).
Proof.
  destruct (mnemonicToWalletKey words) as [keyPair | message] eqn:Hkey.
  - destruct version as [v |].
    + destruct (supportedVersion_cases v) as [Hv | (H1 & H2 & H3)].
      * destruct (getWalletAddressFromSeed_supported words v keyPair Hkey Hv)
          as (wallet & _ & ->).
        eexists _, _; repeat split; [discriminate | auto].
      * unfold getWalletAddressFromSeed, tryCatch, bind, await. rewrite Hkey. cbn.
        rewrite H1, H2, H3. cbn.
        eexists _, _; repeat split; [discriminate | eauto].
    + unfold getWalletAddressFromSeed, tryCatch, bind, await. rewrite Hkey. cbn.
      eexists _, _; repeat split; [discriminate | eauto].
  - rewrite (getWalletAddressFromSeed_no_key words version message w Hkey).
    eexists _, _; repeat split; [discriminate | eauto].
Qed.

Lemma processWalletData_completes
    (walletData : option WalletData) (version : option string) (w : World) :
  exists r t,
    processWalletData (Num := Num) walletData version w = (r, w, t) /\
    r <> Continue /\
    (t = [] \/ exists message, t = [Console (LDetailedError message)]).
Proof.
  unfold processWalletData, tryCatch, bind, property, when, await, throw, ret.
  destruct walletData as [entry |]; cbn;
    [| eexists _, _; repeat split; [discriminate | auto]].
  destruct (mnemonic entry) as [phrase |]; cbn;
    [| eexists _, _; repeat split; [discriminate | auto]].
  destruct (length _ =? 24); cbn;
    [| eexists _, _; repeat split; [discriminate | auto]].
  destruct (mnemonicToWalletKey _) as [keyPair | message]; cbn;
    [| eexists _, _; repeat split; [discriminate | auto]].
  match goal with
  | |- context [getWalletAddressFromSeed ?ws ?v ?w] =>
      destruct (getWalletAddressFromSeed_completes ws v w) as (r & t & -> & Hr & Ht)
  end.
  destruct r; cbn; try contradiction;
    eexists _, _; (repeat split; [discriminate |]);
    rewrite ?app_nil_r; exact Ht.
Qed.

(** C1.  A wallet entry whose seed phrase, trimmed and split on spaces,
    does not give exactly 24 words makes [processWalletData] throw "Error
    processing wallet data: Invalid seed phrase length - must be 24 words",
    so no address and no key are returned, whatever the library does.
    With 24 words, a supported version and the key pair the library derives
    from the words, it returns the address [getWalletAddressFromSeed]
    derives, with the secret key in hex. *)
Theorem processWalletData_seed_phrase_length
    (entry : WalletData) (phrase : string) (version : option string) (w : World) :
  mnemonic entry = Some phrase ->
  let words := JSString.split " " (JSString.trim phrase) in
  (length words <> 24 ->
   processWalletData (Num := Num) (Some entry) version w =
     (Throw "Error processing wallet data: Invalid seed phrase length - must be 24 words",
      w, []))
  /\
  (length words = 24 ->
   forall (v : string) (keyPair : KeyPair),
     version = Some v ->
     supportedVersion v ->
     mnemonicToWalletKey words = Returns keyPair ->
     exists derived : string,
       getWalletAddressFromSeed (Num := Num) words version w = (Normal derived, w, []) /\
       processWalletData (Num := Num) (Some entry) version w =
         (Normal {| address := derived;
                    private_key := Some (toHex (secretKey keyPair)) |}, w, [])).
Proof.
  intros Hphrase words. split.
  - intros Hlen.
    unfold processWalletData, tryCatch, bind, property, when. cbn.
    rewrite Hphrase. cbn. fold words.
    apply Nat.eqb_neq in Hlen. rewrite Hlen. reflexivity.
  - intros Hlen v keyPair -> Hv Hkey.
    destruct (getWalletAddressFromSeed_supported words v keyPair Hkey Hv)
      as (wallet & _ & Haddr).
    specialize (Haddr w).
    eexists. split; [exact Haddr |].
    unfold processWalletData, tryCatch, bind, property, when. cbn.
    rewrite Hphrase. cbn. fold words.
    apply Nat.eqb_eq in Hlen. rewrite Hlen. cbn.
    unfold await. rewrite Hkey. cbn. rewrite Haddr. reflexivity.
Qed.

(** C2. For every mnemonic with a derived key pair (so for every one of 24
    words) and every version whose lower-case form is v3r2, v4 or v5, the
    address does not depend on the world the call is made in, so two calls
    return the same string; and it is the address of a contract created
    with workchain 0 and wallet id 698983191, whichever of the three
    contract classes the version selects. *)
Theorem getWalletAddressFromSeed_deterministic
    (words : list string) (v : string) (keyPair : KeyPair) :
  mnemonicToWalletKey words = Returns keyPair ->
  supportedVersion v ->
  exists wallet : WalletContract,
    ((JSString.toLowerCase v = "v3r2" /\
      wallet = WalletContractV3R2
                 {| workchain := 0; args_publicKey := publicKey keyPair;
                    walletId := 698983191 |}) \/
     (JSString.toLowerCase v = "v4" /\
      wallet = WalletContractV4
                 {| workchain := 0; args_publicKey := publicKey keyPair;
                    walletId := 698983191 |}) \/
     (JSString.toLowerCase v = "v5" /\
      wallet = WalletContractV5R1
                 {| workchain := 0; args_publicKey := publicKey keyPair;
                    walletId := 698983191 |}))%string /\
    forall w1 w2 : World,
      getWalletAddressFromSeed (Num := Num) words (Some v) w1 =
        (Normal (addressToString wallet {| urlSafe := true; bounceable := false |}),
         w1, []) /\
      fst (fst (getWalletAddressFromSeed (Num := Num) words (Some v) w1)) =
      fst (fst (getWalletAddressFromSeed (Num := Num) words (Some v) w2)).
Proof.
  intros Hkey Hv.
  destruct (getWalletAddressFromSeed_supported words v keyPair Hkey Hv)
    as (wallet & Hwallet & Haddr).
  exists wallet. split; [exact Hwallet |].
  intros w1 w2. split; [apply Haddr |].
  rewrite (Haddr w1), (Haddr w2). reflexivity.
Qed.

End Derivation.

(** ** The version menu *)

Section Menu.

Context {Num World : Type} {ton : Ton} {numbers : Numbers Num}
        {env : Environment World}.

(** What [selectWalletVersion] returns for an answer. *)
Lemma selectWalletVersion_answer (w : World) :
  exists v : string,
    selectWalletVersion (Num := Num) w =
      (Normal v, snd (env_question versionPrompt w),
       [Console (LBlankRule 50); Console (LTitle "Select Wallet Version");
        Console (LRule 50);
        Question versionPrompt (fst (env_question versionPrompt w))]) /\
    let answer := fst (env_question versionPrompt w) in
    ((answer = "1" /\ v = "v3r2") \/ (answer = "2" /\ v = "v4") \/
     (answer = "3" /\ v = "v5") \/
     (answer <> "1" /\ answer <> "2" /\ answer <> "3" /\ v = "v4"))%string.
Proof.
  unfold selectWalletVersion, bind, console, emit, askQuestion.
  destruct (env_question versionPrompt w) as [answer w']. cbn -[versionPrompt].
  destruct (String.eqb_spec answer "1");
    [eexists; split; [reflexivity | auto] |].
  destruct (String.eqb_spec answer "2");
    [eexists; split; [reflexivity | auto] |].
  destruct (String.eqb_spec answer "3");
    [eexists; split; [reflexivity | auto] |].
  eexists; split; [reflexivity | auto 10].
Qed.

(** C9. For a version string whose lower-case form is none of v3r2, v4 and
    v5, [getWalletAddressFromSeed] throws; once the key pair is derived the
    error is the [default] branch's "Unsupported wallet version" (rewrapped
    by the [catch]).  [selectWalletVersion] answers every input with one of
    the three strings, v4 for any input other than 1, 2 and 3, and for a
    version it returned that branch is not taken: with a key pair, an
    address is returned. *)
Theorem unsupported_version_unreachable_from_menu :
  (forall (words : list string) (v : string) (w : World),
      ~ supportedVersion v ->
      (exists message t,
          getWalletAddressFromSeed (Num := Num) words (Some v) w = (Throw message, w, t)) /\
      (forall keyPair : KeyPair,
          mnemonicToWalletKey words = Returns keyPair ->
          getWalletAddressFromSeed (Num := Num) words (Some v) w =
            (Throw "Error generating wallet address: Unsupported wallet version", w,
             [Console (LDetailedError "Unsupported wallet version")])))
  /\
  (forall w : World,
      exists (v : string) (w' : World) (t : list (Event Num)),
        selectWalletVersion (Num := Num) w = (Normal v, w', t) /\
        (v = "v3r2" \/ v = "v4" \/ v = "v5")%string /\
        (let answer := fst (env_question versionPrompt w) in
         answer <> "1" -> answer <> "2" -> answer <> "3" -> v = "v4")%string /\
        forall (words : list string) (keyPair : KeyPair) (w2 : World),
          mnemonicToWalletKey words = Returns keyPair ->
          exists derived : string,
            getWalletAddressFromSeed (Num := Num) words (Some v) w2 =
              (Normal derived, w2, [])).
Proof.
  split.
  - intros words v w Hv. split.
    + destruct (mnemonicToWalletKey words) as [keyPair | message] eqn:Hkey.
      * rewrite (getWalletAddressFromSeed_unsupported (Num := Num) words v keyPair w Hkey Hv).
        eauto.
      * rewrite (getWalletAddressFromSeed_no_key (Num := Num) words (Some v) message w Hkey).
        eauto.
    + intros keyPair Hkey.
      apply (getWalletAddressFromSeed_unsupported (Num := Num) words v keyPair w Hkey Hv).
  - intros w.
    destruct (selectWalletVersion_answer w) as (v & Hrun & Hv).
    assert (Hthree : (v = "v3r2" \/ v = "v4" \/ v = "v5")%string).
    { cbn zeta in Hv. destruct Hv as [[_ ?] | [[_ ?] | [[_ ?] | (_ & _ & _ & ?)]]]; auto. }
    exists v. eexists _, _. split; [exact Hrun |]. split; [exact Hthree |]. split.
    + cbn zeta in *. intros H1 H2 H3.
      destruct Hv as [[? _] | [[? _] | [[? _] | (_ & _ & _ & ?)]]];
        try contradiction; assumption.
    + intros words keyPair w2 Hkey.
      assert (Hs : supportedVersion v).
      { destruct Hthree as [-> | [-> | ->]]; unfold supportedVersion; cbn; auto. }
      destruct (getWalletAddressFromSeed_supported (Num := Num) (World := World) words v keyPair Hkey Hs)
        as (wallet & _ & Haddr).
      eexists. apply Haddr.
Qed.

End Menu.

(** ** Loading the lists *)

Section Loading.

Context {Num World : Type} {ton : Ton} {numbers : Numbers Num}
        {env : Environment World}.

Lemma lines_nonBlank (text : string) :
  Forall (fun line => nonBlank line = true) (lines text).
Proof.
  unfold lines. apply Forall_forall. intros line Hin.
  apply filter_In in Hin. apply Hin.
Qed.

(** C10. [loadData] always ends normally, in the world it started from.
    It returns [null] (here [None]), after one error line on the console,
    exactly when a file cannot be read or the two files differ in their
    number of non-blank lines; otherwise it returns the entries of the
    non-blank lines of the first file and the non-blank lines of
    query.txt, two lists of equal length. *)
Theorem loadData_never_throws (platform : string) (w : World) :
  exists (result : option Loaded) (t : list (Event Num)),
    loadData (Num := Num) platform w = (Normal result, w, t) /\
    match result with
    | None =>
        (exists message, t = [Console (LErrorLoading message)]) /\
        ((exists message, env_readFileSync (firstFile platform) w = Throws message) \/
         (exists message, env_readFileSync "query.txt" w = Throws message) \/
         (exists first queries,
             env_readFileSync (firstFile platform) w = Returns first /\
             env_readFileSync "query.txt" w = Returns queries /\
             length (lines first) <> length (lines queries)))
    | Some data =>
        t = [Console (LLoaded (length (queryIds data)))] /\
        length (walletData data) = length (queryIds data) /\
        Forall (fun line => nonBlank line = true) (queryIds data) /\
        exists first queries,
          env_readFileSync (firstFile platform) w = Returns first /\
          env_readFileSync "query.txt" w = Returns queries /\
          Forall (fun line => nonBlank line = true) (lines first) /\
          walletData data = map (entryOf platform) (lines first) /\
          queryIds data = lines queries
    end.
Proof.
  unfold loadData, firstFile, entryOf, tryCatch, bind, readFileSync, when.
  destruct (platform =? "paws")%string.
  - destruct (env_readFileSync "wallet.txt" w) as [first | message] eqn:Hfirst; cbn;
      [| eexists None, _; repeat split; eauto].
    destruct (env_readFileSync "query.txt" w) as [queries | message] eqn:Hquery; cbn;
      [| eexists None, _; repeat split; eauto].
    destruct (Nat.eqb_spec (length (lines first)) (length (lines queries))) as [Hlen | Hlen];
      cbn; [| eexists None, _; repeat split; eauto 10].
    eexists (Some _), _; cbn. rewrite Hlen. repeat split; cbn.
    + rewrite length_map. exact Hlen.
    + apply lines_nonBlank.
    + exists first, queries. repeat split; auto using lines_nonBlank.
  - destruct (env_readFileSync "seed.txt" w) as [first | message] eqn:Hfirst; cbn;
      [| eexists None, _; repeat split; eauto].
    destruct (env_readFileSync "query.txt" w) as [queries | message] eqn:Hquery; cbn;
      [| eexists None, _; repeat split; eauto].
    destruct (Nat.eqb_spec (length (lines first)) (length (lines queries))) as [Hlen | Hlen];
      cbn; [| eexists None, _; repeat split; eauto 10].
    eexists (Some _), _; cbn. rewrite Hlen. repeat split; cbn.
    + rewrite length_map. exact Hlen.
    + apply lines_nonBlank.
    + exists first, queries. repeat split; auto using lines_nonBlank.
Qed.

End Loading.

(** ** The batch loop *)

(** *** Rules for postconditions *)

Section Logic.

Context {Num : Type}.

Abbreviation Post S A := (Completion A -> S -> list (Event Num) -> Prop) (only parsing).

Lemma post_ret {S A} (a : A) (s : S) (Q : Post S A) :
  Q (Normal a) s [] -> post (ret a) s Q.
Proof. exact (fun H => H). Qed.

Lemma post_throw {S A} (e : string) (s : S) (Q : Post S A) :
  Q (Throw e) s [] -> post (throw e) s Q.
Proof. exact (fun H => H). Qed.

Lemma post_continue {S A} (s : S) (Q : Post S A) :
  Q Continue s [] -> post continue s Q.
Proof. exact (fun H => H). Qed.

Lemma post_emit {S} (e : Event Num) (s : S) (Q : Post S unit) :
  Q (Normal tt) s [e] -> post (emit e) s Q.
Proof. exact (fun H => H). Qed.

Lemma post_bind {S A B} (m : M Num S A) (k : A -> M Num S B) (s : S) (Q : Post S B) :
  post m s (fun r s1 t1 =>
              match r with
              | Normal a => post (k a) s1 (fun r' s2 t2 => Q r' s2 (t1 ++ t2))
              | Throw e => Q (Throw e) s1 t1
              | Continue => Q Continue s1 t1
              end) ->
  post (bind m k) s Q.
Proof.
  unfold post, bind. destruct (m s) as [[[a | e |] s1] t1]; auto.
  destruct (k a s1) as [[r s2] t2]. auto.
Qed.

Lemma post_tryCatch {S A} (m : M Num S A) (h : string -> M Num S A) (s : S)
    (Q : Post S A) :
  post m s (fun r s1 t1 =>
              match r with
              | Normal a => Q (Normal a) s1 t1
              | Throw e => post (h e) s1 (fun r' s2 t2 => Q r' s2 (t1 ++ t2))
              | Continue => Q Continue s1 t1
              end) ->
  post (tryCatch m h) s Q.
Proof.
  unfold post, tryCatch. destruct (m s) as [[[a | e |] s1] t1]; auto.
  destruct (h e s1) as [[r s2] t2]. auto.
Qed.

Lemma post_mono {S A} (m : M Num S A) (s : S) (Q Q' : Post S A) :
  post m s Q -> (forall r s' t, Q r s' t -> Q' r s' t) -> post m s Q'.
Proof. unfold post. destruct (m s) as [[r s'] t]. auto. Qed.

End Logic.

Section Rules.

Context {Num World : Type} {ton : Ton} {numbers : Numbers Num}
        {env : Environment World}.

Abbreviation Post A := (Completion A -> Vars Num * World -> list (Event Num) -> Prop)
  (only parsing).

Lemma post_assign (f : Vars Num -> Vars Num) (vars : Vars Num) (w : World)
    (Q : Post unit) :
  Q (Normal tt) (f vars, w) [] -> post (assign f) (vars, w) Q.
Proof. exact (fun H => H). Qed.

Lemma post_readVars (vars : Vars Num) (w : World) (Q : Post (Vars Num)) :
  Q (Normal vars) (vars, w) [] -> post readVars (vars, w) Q.
Proof. exact (fun H => H). Qed.

Lemma post_call {A} (f : World -> Outcome A * World) (ev : Outcome A -> Event Num)
    (vars : Vars Num) (w : World) (Q : Post A) :
  (forall a w', Q (Normal a) (vars, w') [ev (Returns a)]) ->
  (forall e w', Q (Throw e) (vars, w') [ev (Throws e)]) ->
  post (lift (call f ev)) (vars, w) Q.
Proof.
  intros Hr Ht. unfold post, lift, call. destruct (f w) as [[a | e] w']; auto.
Qed.

Lemma post_random (vars : Vars Num) (w : World) (Q : Post Z) :
  (forall k w', (0 <= k < 2 ^ 53)%Z -> Q (Normal k) (vars, w') []) ->
  post (lift Math_random) (vars, w) Q.
Proof.
  intros H. unfold post, lift, Math_random. destruct (env_random w) as [k w'].
  apply H. apply Z.mod_pos_bound. reflexivity.
Qed.

(** [processWalletData] ends normally or by a throw, in the same world,
    having written at most the one line of [getWalletAddressFromSeed]. *)
Lemma post_processWalletData (wd : option WalletData) (version : option string)
    (vars : Vars Num) (w : World) (Q : Post Wallet) :
  (forall a, Q (Normal a) (vars, w) []) ->
  (forall a m, Q (Normal a) (vars, w) [Console (LDetailedError m)]) ->
  (forall e, Q (Throw e) (vars, w) []) ->
  (forall e m, Q (Throw e) (vars, w) [Console (LDetailedError m)]) ->
  post (lift (processWalletData wd version)) (vars, w) Q.
Proof.
  intros H1 H2 H3 H4. unfold post, lift.
  destruct (processWalletData_completes (Num := Num) wd version w)
    as (r & t & -> & Hr & Ht).
  destruct r; try contradiction; destruct Ht as [-> | (m & ->)]; auto.
Qed.

End Rules.

(** *** The delay *)

Section Delay.

Lemma roundToDouble_near (n : Z) :
  (0 <= n < 2 ^ 64 -> n - 2048 <= roundToDouble n <= n + 1025 /\ 0 <= roundToDouble n)%Z.
Proof.
  intros Hn. unfold roundToDouble.
  destruct (Z.leb_spec (Z.log2 n - 52) 0) as [He | He]; [lia |].
  assert (Hpos : (0 < n)%Z).
  { destruct (Z.eq_dec n 0) as [-> | ?]; [cbn in He; lia | lia]. }
  assert (Hlog : (Z.log2 n < 64)%Z) by (apply Z.log2_lt_pow2; lia).
  set (e := (Z.log2 n - 52)%Z) in *.
  assert (Hulp : (0 < 2 ^ e <= 2 ^ 11)%Z).
  { split; [apply Z.pow_pos_nonneg; lia | apply Z.pow_le_mono_r; lia]. }
  change (2 ^ 11)%Z with 2048%Z in Hulp.
  set (ulp := (2 ^ e)%Z) in *.
  pose proof (Z.div_mod n ulp ltac:(lia)) as Hdm.
  pose proof (Z.mod_pos_bound n ulp ltac:(lia)) as Hr.
  pose proof (Z.mul_div_le ulp 2 ltac:(lia)) as Hh1.
  pose proof (Z.mul_succ_div_gt ulp 2 ltac:(lia)) as Hh2.
  assert (Hq : (0 <= n / ulp)%Z) by (apply Z.div_pos; lia).
  set (q := (n / ulp)%Z) in *. set (r := (n mod ulp)%Z) in *. set (half := (ulp / 2)%Z) in *.
  destruct (Z.ltb_spec r half); [nia |].
  destruct (Z.ltb_spec half r); [nia |].
  destruct (Z.even q); nia.
Qed.

Lemma randomDelay_range (k : Z) :
  (0 <= k < 2 ^ 53 -> 1000 <= randomDelay k <= 3000)%Z.
Proof.
  intros Hk. unfold randomDelay.
  change (3000 - 1000 + 1)%Z with 2001%Z.
  assert (H53 : (2 ^ 53 = 9007199254740992)%Z) by reflexivity.
  assert (H64 : (2 ^ 64 = 18446744073709551616)%Z) by reflexivity.
  destruct (roundToDouble_near (k * 2001)) as [[_ Hup] Hlow]; [lia |].
  rewrite H53 in *.
  assert ((0 <= roundToDouble (k * 2001) / 9007199254740992 < 2001)%Z).
  { split; [apply Z.div_pos; lia | apply Z.div_lt_upper_bound; lia]. }
  lia.
Qed.

End Delay.

(** *** Running a computation, rule by rule *)

Ltac wp1 :=
  lazymatch goal with
  | |- post (bind _ _) _ _ => apply post_bind
  | |- post (tryCatch _ _) _ _ => apply post_tryCatch
  | |- post (ret _) _ _ => apply post_ret
  | |- post (throw _) _ _ => apply post_throw
  | |- post continue _ _ => apply post_continue
  | |- post (emit _) _ _ => apply post_emit
  | |- post (assign _) _ _ => apply post_assign
  | |- post readVars _ _ => apply post_readVars
  | |- post (lift (call _ _)) _ _ => apply post_call; intros
  | |- post (lift Math_random) _ _ => apply post_random; intros
  | |- post (lift (processWalletData _ _)) _ _ => apply post_processWalletData; intros
  | |- post (if JSString.truthy ?s then _ else _) _ _ => destruct s
  | |- post (if negb ?b then _ else _) _ _ => destruct b
  | |- post (if (?x =? ?y)%string then _ else _) _ _ =>
      destruct (String.eqb_spec x y); [subst |]
  | |- post (if (?x =? ?y)%string && _ then _ else _) _ _ =>
      destruct (String.eqb_spec x y); [subst |]
  | |- post (if (?x <? ?y) then _ else _) _ _ =>
      destruct (Nat.ltb_spec x y)
  | |- post (if ?c then _ else _) _ _ => destruct c eqn:?
  | |- post (match ?x with _ => _ end) _ _ => destruct x eqn:?
  end.

Ltac wp :=
  repeat (cbn beta iota delta [JSString.truthy negb andb String.eqb Ascii.eqb Bool.eqb]; wp1).

Ltac unfold_program :=
  unfold processAccount, prepare, operate, showWallet, seedPrefix, delay,
    new, login, getNewToken, init, connectWallet, disconnectWallet, getBalance,
    successCount_incr, failCount_incr, totalBalance_add,
    property, orElse, when, console.

Ltac solve_forall :=
  cbn -[randomDelay]; repeat constructor; cbn -[randomDelay]; auto;
  try lia;
  match goal with
  | Hk : (0 <= ?k < 2 ^ 53)%Z |- context [randomDelay ?k] =>
      pose proof (randomDelay_range k Hk); lia
  end.

Ltac solve_guard :=
  let H := fresh in
  intros ? ? H; cbn in H;
  repeat (destruct H as [H | H]; [try discriminate H |]); try contradiction;
  injection H as <- <-; repeat split; cbn; auto 20.

Ltac leaf :=
  cbn [fst snd app successCount failCount totalBalance];
  split; [auto |];
  split; [first [left; solve [repeat split; reflexivity]
                | right; solve [repeat split; reflexivity]] |];
  split; [solve_forall |];
  split; [cbn; repeat constructor; cbn; intuition congruence |];
  split; [cbn; intuition (try discriminate) |];
  split; [cbn; eexists; reflexivity |];
  split; [cbn; intros; try discriminate; repeat split; reflexivity |];
  split; [cbn; reflexivity |];
  split; [solve_guard |];
  split; [solve_forall |];
  split; [solve_forall |];
  split; [eexists; reflexivity |];
  cbn; intros; try discriminate; tauto.


(** *** One account *)

Section Account.

Context {Num World : Type} {ton : Ton} {numbers : Numbers Num}
        {env : Environment World}.

(** Every round of the loop meets [accountSpec]. *)
Lemma processAccount_spec (action : string) (queryIds : list string)
    (walletData : list WalletData) (version : option string) (platform : string)
    (i : nat) (vars : Vars Num) (w : World) :
  post (processAccount action queryIds walletData version platform i) (vars, w)
       (accountSpec action queryIds platform i vars).
Proof.
  unfold accountSpec, expectedSteps.
  unfold_program.
  wp.
  all: leaf.
Qed.


End Account.

(** *** The whole run *)

Section Lists.

Lemma collect_app {A B : Type} (f : A -> option B) (l l' : list A) :
  collect f (l ++ l') = collect f l ++ collect f l'.
Proof. apply flat_map_app. Qed.

Lemma collect_In {A B : Type} (f : A -> option B) (l : list A) (b : B) :
  In b (collect f l) <-> exists a, In a l /\ f a = Some b.
Proof.
  unfold collect. rewrite in_flat_map. split; intros (a & Hin & H); exists a; split; auto.
  - destruct (f a); cbn in H; [destruct H as [-> | []]; reflexivity | contradiction].
  - rewrite H. left. reflexivity.
Qed.

Lemma collect_nil {A B : Type} (f : A -> option B) (l : list A) :
  Forall (fun a => f a = None) l -> collect f l = [].
Proof.
  induction 1 as [| a l Ha _ IH]; [reflexivity |].
  unfold collect in *. cbn. rewrite Ha, IH. reflexivity.
Qed.

Lemma sorted_app_le (l l' : list nat) (i : nat) :
  StronglySorted le l -> Forall (fun j => j < i) l -> Forall (fun j => j = i) l' ->
  StronglySorted le (l ++ l').
Proof.
  intros Hs Hl Hl'. induction Hs as [| a l Hs IH Ha]; cbn.
  - induction Hl' as [| b l' Hb Hl' IH]; constructor; auto.
    eapply Forall_impl; [| exact Hl']. cbn. intros; lia.
  - inversion Hl; subst. constructor; auto.
    apply Forall_app. split; [exact Ha |].
    eapply Forall_impl; [| exact Hl']. cbn. intros; lia.
Qed.

End Lists.

Section Run.

Context {Num World : Type} {ton : Ton} {numbers : Numbers Num}
        {env : Environment World}.

Implicit Types (t : list (Event Num)) (e : Event Num).

Lemma accounts_belongsTo (i : nat) t :
  Forall (belongsTo i) t -> Forall (fun j => j = i) (accounts t).
Proof.
  intros H. apply Forall_forall. intros j Hj.
  apply collect_In in Hj. destruct Hj as (e & Hin & He).
  rewrite Forall_forall in H. specialize (H e Hin).
  unfold belongsTo in H. rewrite He in H. exact H.
Qed.

Lemma operationOf_account e (j : nat) (op : Operation) :
  operationOf e = Some (j, op) -> accountOf e = Some j.
Proof. destruct e; cbn; intros H; inversion H; reflexivity. Qed.

Lemma operations_accounts t (j : nat) (op : Operation) :
  In (j, op) (operations t) -> In j (accounts t).
Proof.
  intros H. apply collect_In in H. destruct H as (e & Hin & He).
  apply collect_In. exists e. split; [exact Hin | eapply operationOf_account; eauto].
Qed.

Lemma balanceOf_account e (b : Num) :
  balanceOf e = Some b -> exists j, accountOf e = Some j.
Proof. destruct e; cbn; try discriminate. eauto. Qed.

Lemma quiet_accounts t : quiet t -> accounts t = [].
Proof. apply collect_nil. Qed.

Lemma quiet_operations t : quiet t -> operations t = [].
Proof.
  intros H. apply collect_nil. eapply Forall_impl; [| exact H]. cbn.
  intros e He. destruct (operationOf e) as [[j op] |] eqn:Hop; [| reflexivity].
  apply operationOf_account in Hop. congruence.
Qed.

Lemma quiet_balances t : quiet t -> balances t = [].
Proof.
  intros H. apply collect_nil. eapply Forall_impl; [| exact H]. cbn.
  intros e He. destruct (balanceOf e) as [b |] eqn:Hb; [| reflexivity].
  apply balanceOf_account in Hb. destruct Hb as (j & Hj). congruence.
Qed.

Lemma quiet_Forall (P : Event Num -> Prop) t :
  (forall e, accountOf e = None -> P e) -> quiet t -> Forall P t.
Proof. intros HP H. eapply Forall_impl; [| exact H]. exact HP. Qed.

Lemma quiet_not_In t e (j : nat) : quiet t -> accountOf e = Some j -> ~ In e t.
Proof.
  intros H He Hin. unfold quiet in H. rewrite Forall_forall in H.
  specialize (H e Hin). congruence.
Qed.

Lemma quiet_usesQuery (queryIds : list string) t : quiet t -> Forall (usesQuery queryIds) t.
Proof. apply quiet_Forall. intros e. destruct e; cbn; try discriminate; auto. Qed.

Lemma quiet_timerInRange (n : nat) t : quiet t -> Forall (timerInRange n) t.
Proof. apply quiet_Forall. intros e. destruct e; cbn; try discriminate; auto. Qed.

Lemma loopInv_step (action : string) (queryIds : list string) (platform : string)
    (vars0 : Vars Num) (i : nat) (s s' : Vars Num * World) (t t' : list (Event Num))
    (r : Completion unit) :
  loopInv action queryIds platform vars0 i s t ->
  accountSpec action queryIds platform i (fst s) r s' t' ->
  loopInv action queryIds platform vars0 (S i) s' (t ++ t').
Proof.
  intros (Hc & Hb & Hall & Hs & Hlt & Hnd & Hg & Hq & Ht)
         (_ & Hcount & Hbel & Hnd' & _ & _ & _ & Hb' & Hg' & Hq' & Ht' & (t0 & Ht0) & _).
  pose proof (accounts_belongsTo i t' Hbel) as Hacc.
  unfold loopInv. unfold accounts, operations, balances in *.
  rewrite !collect_app.
  split; [| split; [| split; [| split; [| split; [| split; [| split; [| split]]]]]]].
  - destruct Hcount as [(? & ? & _) | (? & ?)]; lia.
  - rewrite Hb'. unfold sumFrom. rewrite fold_left_app. rewrite Hb. reflexivity.
  - intros j Hj. apply in_or_app.
    destruct (Nat.eq_dec j i) as [-> | Hne]; [right | left; apply Hall; lia].
    rewrite Ht0. cbn. auto.
  - eapply sorted_app_le; eauto.
  - apply Forall_app. split.
    + eapply Forall_impl; [| exact Hlt]. cbn. intros; lia.
    + eapply Forall_impl; [| exact Hacc]. cbn. intros; lia.
  - apply NoDup_app; auto. intros [j op] Hin Hin'.
    apply operations_accounts in Hin, Hin'. unfold accounts in *.
    rewrite Forall_forall in Hlt, Hacc.
    specialize (Hlt j Hin). specialize (Hacc j Hin'). lia.
  - intros j o Hin. apply in_app_or in Hin.
    destruct Hin as [Hin | Hin]; [apply Hg in Hin | apply Hg' in Hin];
      destruct Hin as (? & ? & ?); repeat split; auto; apply in_or_app; auto.
  - apply Forall_app; auto.
  - apply Forall_app; auto.
Qed.

(** The loop never throws, and keeps the invariant. *)
Lemma forLoop_spec (action : string) (queryIds : list string)
    (walletData : list WalletData) (version : option string) (platform : string)
    (vars0 : Vars Num) (count : nat) :
  forall (start : nat) (s : Vars Num * World) (t : list (Event Num)),
    loopInv action queryIds platform vars0 start s t ->
    post (forLoop count start (processAccount action queryIds walletData version platform)) s
         (fun r s' t' =>
            r = Normal tt /\
            loopInv action queryIds platform vars0 (start + count) s' (t ++ t')).
Proof.
  induction count as [| count IH]; intros start s t Hinv.
  - cbn. rewrite Nat.add_0_r, app_nil_r. auto.
  - destruct s as [vars w].
    pose proof (processAccount_spec action queryIds walletData version platform
                  start vars w) as Hbody.
    unfold post in *. cbn [forLoop].
    destruct (processAccount _ _ _ _ _ start (vars, w)) as [[r s1] t1].
    pose proof (loopInv_step _ _ _ _ _ _ _ _ _ _ Hinv Hbody) as Hinv1.
    specialize (IH (S start) s1 (t ++ t1) Hinv1).
    destruct Hbody as ([-> | ->] & _);
      destruct (forLoop count (S start) _ s1) as [[r2 s2] t2];
      rewrite app_assoc, <- Nat.add_succ_comm; exact IH.
Qed.


(** The banner: three quiet lines, unless the version is [null] off PAWS,
    where reading its [toUpperCase] throws. *)
Lemma header_spec (action : string) (version : option string) (platform : string)
    (vars : Vars Num) (w : World) :
  post (header action version platform) (vars, w)
       (fun r s' t =>
          s' = (vars, w) /\ quiet t /\
          (r = Normal tt \/
           (exists message, r = Throw message) /\ platform <> "paws" /\ version = None)).
Proof.
  unfold header, property, console. wp.
  all: split; [reflexivity | split; [repeat constructor |]].
  all: first [left; reflexivity | right; eauto].
Qed.

Lemma summary_spec (action : string) (platform : string) (vars : Vars Num) (w : World) :
  post (summary action platform) (vars, w)
       (fun r s' t => r = Normal tt /\ s' = (vars, w) /\ quiet t).
Proof.
  unfold summary, when, console. wp.
  all: repeat split; auto; repeat constructor.
Qed.

(** Every run of [processWallets] meets [runSpec]. *)
Lemma processWallets_spec (action : string) (queryIds : list string)
    (walletData : list WalletData) (version : option string) (platform : string)
    (w : World) :
  post (processWallets action queryIds walletData version platform) w
       (fun r _ t => runSpec action queryIds version platform r t).
Proof.
  unfold post, processWallets, scope, bind.
  set (vars0 := {| totalBalance := numZero; successCount := 0; failCount := 0 |}).
  pose proof (header_spec action version platform vars0 w) as Hh. unfold post in Hh.
  destruct (header action version platform (vars0, w)) as [[rh sh] th].
  destruct Hh as (-> & Hqh & Hrh).
  destruct Hrh as [-> | ((message & ->) & Hp & Hv)].
  2: {
    unfold runSpec. rewrite (quiet_accounts th Hqh), (quiet_operations th Hqh).
    split; [auto |]. split; [constructor |]. split; [constructor |].
    split; [constructor |].
    split; [| auto using quiet_usesQuery, quiet_timerInRange].
    intros j o Hin. exfalso. eapply (quiet_not_In th _ j Hqh); [| exact Hin]. reflexivity. }
  assert (Hinv0 : loopInv action queryIds platform vars0 0 (vars0, w) []).
  { unfold loopInv. cbn. repeat split; try constructor; try lia; try contradiction. }
  pose proof (forLoop_spec action queryIds walletData version platform vars0
                (length queryIds) 0 (vars0, w) [] Hinv0) as Hl.
  unfold post in Hl.
  destruct (forLoop _ 0 _ (vars0, w)) as [[rl [vars1 w1]] tl].
  destruct Hl as (-> & Hinv). cbn [app Nat.add] in Hinv.
  pose proof (summary_spec action platform vars1 w1) as Hs. unfold post in Hs.
  destruct (summary action platform (vars1, w1)) as [[rs ss] ts].
  destruct Hs as (-> & -> & Hqs).
  cbn [readVars fst snd].
  destruct Hinv as (Hc & Hb & Hall & Hsorted & Hlt & Hnd & Hg & Hq & Ht).
  unfold runSpec, accounts, operations, balances in *.
  rewrite !collect_app, ?app_nil_r.
  change (collect accountOf th) with (accounts th).
  change (collect accountOf ts) with (accounts ts).
  change (collect operationOf th) with (operations th).
  change (collect operationOf ts) with (operations ts).
  change (collect balanceOf th) with (balances th).
  change (collect balanceOf ts) with (balances ts).
  rewrite (quiet_accounts th Hqh), (quiet_accounts ts Hqs),
    (quiet_operations th Hqh), (quiet_operations ts Hqs),
    (quiet_balances th Hqh), (quiet_balances ts Hqs).
  cbn [app]. rewrite ?app_nil_r.
  cbn in Hc.
  split; [auto |]. split; [exact Hsorted |]. split; [exact Hlt |].
  split; [exact Hnd |]. split; [| split].
  - intros j o Hin. apply in_app_or in Hin. destruct Hin as [Hin | Hin].
    { exfalso. eapply (quiet_not_In th _ j Hqh); [| exact Hin]. reflexivity. }
    apply in_app_or in Hin. destruct Hin as [Hin | Hin].
    2: { exfalso. eapply (quiet_not_In ts _ j Hqs); [| exact Hin]. reflexivity. }
    destruct (Hg j o Hin) as (Ha & Hp & Hc').
    repeat split; auto. apply in_or_app. right. apply in_or_app. left. exact Hc'.
  - repeat (apply Forall_app; split); auto using quiet_usesQuery.
  - repeat (apply Forall_app; split); auto using quiet_timerInRange.
Qed.

End Run.

(** ** The claims about the loop *)

Section Claims.

Context {Num World : Type} {ton : Ton} {numbers : Numbers Num}
        {env : Environment World}.


Lemma balances_none (t : list (Event Num)) :
  (forall j o, ~ In (GetBalance j o) t) -> balances t = [].
Proof.
  intros H. apply collect_nil. apply Forall_forall. intros e Hin.
  destruct e; try reflexivity. exfalso. eapply H; eauto.
Qed.

(** C3 (amended).  For every account [processWallets] processes, on every
    platform, the steps that occur are an initial part of the platform's
    order: getting a token (by [login] on PAWS and YesCoin, by
    [getNewToken] on Blum and on any other platform name), then
    initialising the service, then the selected connect, disconnect or
    display operation; on Tsubasa no token is got, and the order is
    initialisation (with the query id) and then the operation.  An account
    counted as a success went through all the steps of its platform.  If
    [login] or [getNewToken] gives no token (it returns a falsy value, or
    throws), it stays the account's only step: the account is counted as
    failed, and its initialisation and its operation are skipped. *)
Theorem processAccount_step_order
    (action : string) (queryIds : list string) (walletData : list WalletData)
    (version : option string) (platform : string) (i : nat)
    (vars : Vars Num) (w : World) :
  let '(r, s', t) :=
    processAccount action queryIds walletData version platform i (vars, w) in
  (exists rest : list Step,
      steps t ++ rest =
        if (platform =? "tsubasa")%string then [Initialize; Operate]
        else [Acquire; Initialize; Operate]) /\
  (successCount (fst s') = S (successCount vars) ->
   steps t =
     if (platform =? "tsubasa")%string then [Initialize; Operate]
     else [Acquire; Initialize; Operate]) /\
  (existsb noToken t = true ->
   steps t = [Acquire] /\
   failCount (fst s') = S (failCount vars) /\
   successCount (fst s') = successCount vars).
Proof.
  pose proof (processAccount_spec action queryIds walletData version platform i vars w) as H.
  unfold post in H.
  destruct (processAccount _ _ _ _ _ i (vars, w)) as [[r s'] t].
  destruct H as (_ & Hcount & _ & _ & _ & Hprefix & Hno & _).
  split; [exact Hprefix |]. split; [| exact Hno].
  intros Hs. destruct Hcount as [(_ & _ & Hsteps & _) | (Hs' & _)]; [exact Hsteps | lia].
Qed.

(** C4.  Every round of the loop ends normally or by [continue], never by
    a throw, and adds one to exactly one of [successCount] and [failCount],
    leaving the other as it was; so a run over [n] query ids returns counts
    with [successCount + failCount = n].  (The one way [processWallets] can
    throw is before the loop: off PAWS with a [null] version.) *)
Theorem processWallets_counts_each_account_once
    (action : string) (queryIds : list string) (walletData : list WalletData)
    (version : option string) (platform : string) :
  (forall (i : nat) (vars : Vars Num) (w : World),
      let '(r, s', _) :=
        processAccount action queryIds walletData version platform i (vars, w) in
      (r = Normal tt \/ r = Continue) /\
      ((successCount (fst s') = S (successCount vars) /\
        failCount (fst s') = failCount vars) \/
       (successCount (fst s') = successCount vars /\
        failCount (fst s') = S (failCount vars)))) /\
  (forall w : World,
      let '(r, _, _) :=
        processWallets action queryIds walletData version platform w in
      match r with
      | Normal result => successCount result + failCount result = length queryIds
      | Throw _ => platform <> "paws" /\ version = None
      | Continue => False
      end).
Proof.
  split.
  - intros i vars w.
    pose proof (processAccount_spec action queryIds walletData version platform i vars w) as H.
    unfold post in H.
    destruct (processAccount _ _ _ _ _ i (vars, w)) as [[r s'] t].
    destruct H as (Hr & Hcount & _). split; [exact Hr |].
    destruct Hcount as [(? & ? & _) | (? & ?)]; auto.
  - intros w.
    pose proof (processWallets_spec action queryIds walletData version platform w) as H.
    unfold post in H.
    destruct (processWallets _ _ _ _ _ w) as [[r w'] t].
    destruct H as (Hr & _). destruct r; tauto.
Qed.


(** C7.  In the trace of a run the events appear in the order of their
    accounts: every event of account [i] comes before every event of an
    account above [i], all accounts are below the number of query ids, a
    call that takes a query id takes the one at its account's index, and a
    run that returns has processed every account. *)
Theorem accounts_processed_in_order
    (action : string) (queryIds : list string) (walletData : list WalletData)
    (version : option string) (platform : string) (w : World) :
  let '(r, _, t) := processWallets action queryIds walletData version platform w in
  StronglySorted le (accounts t) /\
  Forall (fun i => i < length queryIds) (accounts t) /\
  Forall (usesQuery queryIds) t /\
  (forall result : Vars Num,
      r = Normal result -> forall i, i < length queryIds -> In i (accounts t)).
Proof.
  pose proof (processWallets_spec action queryIds walletData version platform w) as H.
  unfold post in H.
  destruct (processWallets _ _ _ _ _ w) as [[r w'] t].
  destruct H as (Hr & Hsorted & Hlt & _ & _ & Hq & _).
  repeat split; auto.
  intros result ->. apply Hr.
Qed.

(** C8.  The [totalBalance] that [processWallets] returns is the sum, from
    zero, of the balances read by the [getBalance] calls that resolved to
    an object; such a call is made only when the action is "1" and the
    platform is "blum", for an account whose [connectWallet] on the Blum
    service returned true.  So if the action is not "1" or the platform is
    not "blum", the returned [totalBalance] is zero itself. *)
Theorem totalBalance_only_from_blum_connect
    (action : string) (queryIds : list string) (walletData : list WalletData)
    (version : option string) (platform : string) (w w' : World)
    (result : Vars Num) (t : list (Event Num)) :
  processWallets action queryIds walletData version platform w = (Normal result, w', t) ->
  totalBalance result = sumFrom numZero (balances t) /\
  (forall j o, In (GetBalance j o) t ->
     action = "1" /\ platform = "blum" /\
     In (ConnectWallet j BlumService (Returns true)) t) /\
  (action <> "1" \/ platform <> "blum" -> totalBalance result = numZero).
Proof.
  intros Hrun.
  pose proof (processWallets_spec action queryIds walletData version platform w) as H.
  unfold post in H. rewrite Hrun in H.
  destruct H as ((_ & Hb & _) & _ & _ & _ & Hg & _).
  split; [exact Hb |]. split; [exact Hg |].
  intros Hnot. rewrite Hb, balances_none; [reflexivity |].
  intros j o Hin. destruct (Hg j o Hin) as (? & ? & _). tauto.
Qed.

End Claims.

Section Timers.

Context {Num World : Type} {ton : Ton} {numbers : Numbers Num}
        {env : Environment World}.

(** What holds of the timers of line 327: each waits 1000 to 3000
    milliseconds and follows an account that is not the last, but one is set
    only by a round that reached its operation; a round that ends at a
    missing token sets none. *)
Lemma timers_of_an_account
    (action : string) (queryIds : list string) (walletData : list WalletData)
    (version : option string) (platform : string) (i : nat)
    (vars : Vars Num) (w : World) :
  let '(_, _, t) :=
    processAccount action queryIds walletData version platform i (vars, w) in
  Forall (timerInRange (length queryIds)) t /\
  (existsb isSetTimeout t = true -> In Operate (steps t)) /\
  (existsb noToken t = true -> existsb isSetTimeout t = false).
Proof.
  pose proof (processAccount_spec action queryIds walletData version platform i vars w) as H.
  unfold post in H.
  destruct (processAccount _ _ _ _ _ i (vars, w)) as [[r s'] t].
  destruct H as (_ & _ & _ & _ & _ & _ & Hno & _ & _ & _ & Hrange & _ & Htimer).
  split; [exact Hrange |]. split; [exact Htimer |].
  intros Htoken. destruct (existsb isSetTimeout t) eqn:Hset; [| reflexivity].
  destruct (Hno Htoken) as (Hsteps & _). specialize (Htimer eq_refl).
  rewrite Hsteps in Htimer. cbn in Htimer. intuition discriminate.
Qed.

End Timers.

(** ** The claims on the sample environment *)

(** C1, on a phrase of two words and on one of 24 words. *)
Lemma processWalletData_seed_phrase_length_witness :
  processWalletData (Num := Z) (ton := Sample.ton)
    (Some (Sample.entry Sample.seed2)) (Some "v4") tt =
    (Throw "Error processing wallet data: Invalid seed phrase length - must be 24 words",
     tt, []) /\
  processWalletData (Num := Z) (ton := Sample.ton)
    (Some (Sample.entry Sample.seed24)) (Some "V4") tt =
    (Normal {| address := "UQ-v4"; private_key := Some "abcd" |}, tt, []).
Proof.
  split.
  - apply (processWalletData_seed_phrase_length (Num := Z) (ton := Sample.ton)
             (Sample.entry Sample.seed2) Sample.seed2 (Some "v4") tt eq_refl).
    vm_compute. discriminate.
  - destruct (proj2 (processWalletData_seed_phrase_length (Num := Z) (ton := Sample.ton)
                       (Sample.entry Sample.seed24) Sample.seed24 (Some "V4") tt eq_refl)
                eq_refl "V4" {| publicKey := [x01]; secretKey := [xab; xcd] |}
                eq_refl (or_intror (or_introl eq_refl)) eq_refl)
      as (derived & Hget & Hrun).
    rewrite Hrun. vm_compute in Hget. injection Hget as Hd. subst derived.
    reflexivity.
Defined.

(** C2, on a phrase of 24 words and the version "V4". *)
Lemma getWalletAddressFromSeed_deterministic_witness :
  exists wallet : WalletContract,
    wallet = WalletContractV4 {| workchain := 0; args_publicKey := [x01];
                                 walletId := 698983191 |} /\
    getWalletAddressFromSeed (Num := Z) (ton := Sample.ton)
      (JSString.split " " Sample.seed24) (Some "V4") tt =
      (Normal (addressToString (Ton := Sample.ton) wallet
                 {| urlSafe := true; bounceable := false |}), tt, []).
Proof.
  destruct (getWalletAddressFromSeed_deterministic (Num := Z) (World := unit)
              (ton := Sample.ton) (JSString.split " " Sample.seed24) "V4"
              {| publicKey := [x01]; secretKey := [xab; xcd] |}
              eq_refl (or_intror (or_introl eq_refl)))
    as (wallet & [[Hv _] | [[_ Hw] | [Hv _]]] & Hrun).
  - vm_compute in Hv. discriminate Hv.
  - exists wallet. split; [exact Hw |]. exact (proj1 (Hrun tt tt)).
  - vm_compute in Hv. discriminate Hv.
Defined.

(** C3: a Tsubasa account that is counted as a success without any login
    or token step. *)
Lemma tsubasa_account_has_no_login :
  let '(_, s', t) :=
    processAccount (ton := Sample.ton) (numbers := Sample.numbers) (env := Sample.env)
      "1" ["q1"] [Sample.entry Sample.seed24] (Some "v4") "tsubasa" 0
      ({| totalBalance := 0%Z; successCount := 0; failCount := 0 |}, tt) in
  successCount (fst s') = 1 /\
  steps t = [Initialize; Operate] /\
  steps t <> [Acquire; Initialize; Operate].
Proof. vm_compute. repeat split. discriminate. Qed.


(** C5: two Blum accounts, the first of which gets no token.  The second
    account is begun right after the first one's failure line, and the run
    sets no timer at all. *)
Example delay_skipped_after_failed_token :
  let '(r, _, t) :=
    processWallets (ton := Sample.ton) (numbers := Sample.numbers) (env := Sample.env)
      "1" ["bad"; "q2"] [Sample.entry Sample.seed24; Sample.entry Sample.seed24]
      (Some "v4") "blum" tt in
  r = Normal {| totalBalance := 4%Z; successCount := 1; failCount := 1 |} /\
  firstn 9 t =
    [Console (LBlankRule 90); Console (LHeader "1" (Some "v4") "blum");
     Console (LRuleBlank 90);
     Console (LProcessing 0 2); Console (LDashes 30);
     New 0 BlumService (Returns tt); GetNewToken 0 "bad" (Returns None);
     Console (LFailedToken 0);
     Console (LProcessing 1 2)] /\
  filter isSetTimeout t = [].
Proof. vm_compute. auto. Qed.

(** The same two accounts with a token for each: the timer is there. *)
Example delay_between_two_accounts :
  let '(_, _, t) :=
    processWallets (ton := Sample.ton) (numbers := Sample.numbers) (env := Sample.env)
      "1" ["q1"; "q2"] [Sample.entry Sample.seed24; Sample.entry Sample.seed24]
      (Some "v4") "blum" tt in
  filter isSetTimeout t = [SetTimeout 0 1000].
Proof. vm_compute. reflexivity. Qed.

(** C8, on a run that disconnects two Blum accounts. *)
Lemma totalBalance_only_from_blum_connect_witness :
  exists (result : Vars Z) (t : list (Event Z)),
    processWallets (ton := Sample.ton) (numbers := Sample.numbers) (env := Sample.env)
      "2" ["q1"; "q2"] [Sample.entry Sample.seed24; Sample.entry Sample.seed24]
      (Some "v4") "blum" tt = (Normal result, tt, t) /\
    totalBalance result = 0%Z /\
    balances (H := Sample.numbers) t = [].
Proof.
  eexists _, _.
  assert (Hrun :
    processWallets (ton := Sample.ton) (numbers := Sample.numbers) (env := Sample.env)
      "2" ["q1"; "q2"] [Sample.entry Sample.seed24; Sample.entry Sample.seed24]
      (Some "v4") "blum" tt = _) by (vm_compute; reflexivity).
  split; [exact Hrun |].
  destruct (totalBalance_only_from_blum_connect
           (ton := Sample.ton) (numbers := Sample.numbers) (env := Sample.env)
           "2" ["q1"; "q2"] [Sample.entry Sample.seed24; Sample.entry Sample.seed24]
           (Some "v4") "blum" tt tt _ _ Hrun) as (_ & _ & Hzero).
  split; [apply Hzero; left; discriminate | reflexivity].
Defined.

(** C3, on a Blum account that gets no token: the token step is its only
    step, and it is counted as failed. *)
Lemma processAccount_step_order_witness :
  let '(_, s', t) :=
    processAccount (ton := Sample.ton) (numbers := Sample.numbers) (env := Sample.env)
      "1" ["bad"] [Sample.entry Sample.seed24] (Some "v4") "blum" 0
      ({| totalBalance := 0%Z; successCount := 0; failCount := 0 |}, tt) in
  steps t = [Acquire] /\ failCount (fst s') = 1 /\ successCount (fst s') = 0.
Proof.
  pose proof (processAccount_step_order
                (ton := Sample.ton) (numbers := Sample.numbers) (env := Sample.env)
                "1" ["bad"] [Sample.entry Sample.seed24] (Some "v4") "blum" 0
                {| totalBalance := 0%Z; successCount := 0; failCount := 0 |} tt) as H.
  vm_compute in H |- *. exact (proj2 (proj2 H) eq_refl).
Defined.

(** C4, on three query ids: one is refused a token and one has no wallet
    entry. *)
Lemma processWallets_counts_each_account_once_witness :
  let '(r, _, _) :=
    processWallets (ton := Sample.ton) (numbers := Sample.numbers) (env := Sample.env)
      "1" ["bad"; "q2"; "q3"] [Sample.entry Sample.seed24; Sample.entry Sample.seed24]
      (Some "v4") "blum" tt in
  r = Normal {| totalBalance := 4%Z; successCount := 1; failCount := 2 |} /\
  match r with
  | Normal result => successCount result + failCount result = 3
  | _ => False
  end.
Proof.
  pose proof (proj2 (processWallets_counts_each_account_once
                (ton := Sample.ton) (numbers := Sample.numbers) (env := Sample.env)
                "1" ["bad"; "q2"; "q3"]
                [Sample.entry Sample.seed24; Sample.entry Sample.seed24]
                (Some "v4") "blum") tt) as H.
  vm_compute in H |- *. split; [reflexivity | exact H].
Defined.


(** C7, on the same run. *)
Lemma accounts_processed_in_order_witness :
  let '(_, _, t) :=
    processWallets (ton := Sample.ton) (numbers := Sample.numbers) (env := Sample.env)
      "1" ["bad"; "q2"; "q3"] [Sample.entry Sample.seed24; Sample.entry Sample.seed24]
      (Some "v4") "blum" tt in
  accounts t = [0; 0; 0; 0; 1; 1; 1; 1; 1; 1; 1; 1; 1; 1; 1; 2; 2] /\
  StronglySorted le (accounts t).
Proof.
  pose proof (accounts_processed_in_order
                (ton := Sample.ton) (numbers := Sample.numbers) (env := Sample.env)
                "1" ["bad"; "q2"; "q3"]
                [Sample.entry Sample.seed24; Sample.entry Sample.seed24]
                (Some "v4") "blum" tt) as H.
  vm_compute in H |- *. split; [reflexivity | exact (proj1 H)].
Defined.

(** C9, on the version "v9" and on the sample terminal, which answers 3. *)
Lemma unsupported_version_unreachable_from_menu_witness :
  getWalletAddressFromSeed (Num := Z) (ton := Sample.ton)
    (JSString.split " " Sample.seed24) (Some "v9") tt =
    (Throw "Error generating wallet address: Unsupported wallet version", tt,
     [Console (LDetailedError "Unsupported wallet version")]) /\
  exists t : list (Event Z),
    selectWalletVersion (env := Sample.env) tt = (Normal "v5", tt, t).
Proof.
  destruct (unsupported_version_unreachable_from_menu
              (Num := Z) (ton := Sample.ton) (env := Sample.env)) as (Hthrow & Hmenu).
  split.
  - apply (proj2 (Hthrow (JSString.split " " Sample.seed24) "v9" tt
                    ltac:(vm_compute; intuition discriminate))
                 {| publicKey := [x01]; secretKey := [xab; xcd] |} eq_refl).
  - destruct (Hmenu tt) as (v & w' & t & Hrun & _).
    exists t. rewrite Hrun. vm_compute in Hrun.
    injection Hrun as Hv Hw Ht. destruct w'. rewrite <- Hv. reflexivity.
Defined.

(** C10, on the sample files: seed.txt and query.txt have two non-blank
    lines each, and there is no wallet.txt. *)
Lemma loadData_never_throws_witness :
  loadData (Num := Z) (env := Sample.env) "blum" tt =
    (Normal (Some {| walletData := [Sample.entry "a b"; Sample.entry "c d"];
                     queryIds := ["q1"; "q2"] |}), tt, [Console (LLoaded 2)]) /\
  loadData (Num := Z) (env := Sample.env) "paws" tt =
    (Normal None, tt,
     [Console (LErrorLoading "ENOENT: no such file or directory")]).
Proof.
  split.
  - destruct (loadData_never_throws (Num := Z) (env := Sample.env) "blum" tt)
      as (result & t & Hrun & _).
    rewrite Hrun. vm_compute in Hrun. injection Hrun as <- <-. reflexivity.
  - destruct (loadData_never_throws (Num := Z) (env := Sample.env) "paws" tt)
      as (result & t & Hrun & _).
    rewrite Hrun. vm_compute in Hrun. injection Hrun as <- <-. reflexivity.
Defined.

(** * Further properties *)

(** ** Strings *)

Section Strings.

Lemma split_length (sep : ascii) (s : string) :
  length (JSString.split sep s) = S (occurrences sep s).
Proof.
  induction s as [| a s IH]; [reflexivity |].
  cbn. destruct (Ascii.eqb a sep); cbn; [rewrite IH; reflexivity |].
  destruct (JSString.split sep s) as [| piece pieces]; cbn in *; [discriminate | exact IH].
Qed.

Lemma split_no_separator (sep : ascii) (s : string) :
  Forall (fun piece => occurrences sep piece = 0) (JSString.split sep s).
Proof.
  induction s as [| a s IH]; [repeat constructor |].
  cbn. destruct (Ascii.eqb a sep) eqn:Ha; [constructor; [reflexivity | exact IH] |].
  destruct (JSString.split sep s) as [| piece pieces].
  - repeat constructor. cbn. rewrite Ha. reflexivity.
  - inversion IH; subst. constructor; [| assumption]. cbn. rewrite Ha. assumption.
Qed.

Lemma lowerChar_idempotent (c : ascii) :
  JSString.lowerChar (JSString.lowerChar c) = JSString.lowerChar c.
Proof. destruct c as [[] [] [] [] [] [] [] []]; reflexivity. Qed.

Lemma toLowerCase_idempotent (s : string) :
  JSString.toLowerCase (JSString.toLowerCase s) = JSString.toLowerCase s.
Proof.
  unfold JSString.toLowerCase, JSString.mapChars.
  rewrite list_ascii_of_string_of_list_ascii, map_map.
  f_equal. apply map_ext. apply lowerChar_idempotent.
Qed.

Lemma list_ascii_of_string_app (s1 s2 : string) :
  list_ascii_of_string (s1 ++ s2)%string = list_ascii_of_string s1 ++ list_ascii_of_string s2.
Proof. induction s1 as [| a s1 IH]; cbn; [reflexivity | rewrite IH; reflexivity]. Qed.

Lemma string_of_list_ascii_app (l1 l2 : list ascii) :
  string_of_list_ascii (l1 ++ l2) = (string_of_list_ascii l1 ++ string_of_list_ascii l2)%string.
Proof. induction l1 as [| a l1 IH]; cbn; [reflexivity | rewrite IH; reflexivity]. Qed.

Lemma reverse_app (s1 s2 : string) :
  JSString.reverse (s1 ++ s2)%string = (JSString.reverse s2 ++ JSString.reverse s1)%string.
Proof.
  unfold JSString.reverse.
  rewrite list_ascii_of_string_app, rev_app_distr. apply string_of_list_ascii_app.
Qed.

Lemma allWhiteSpace_forallb (s : string) :
  allWhiteSpace s = forallb JSString.isWhiteSpace (list_ascii_of_string s).
Proof. induction s as [| a s IH]; cbn; [reflexivity | rewrite IH; reflexivity]. Qed.

Lemma allWhiteSpace_reverse (s : string) :
  allWhiteSpace s = true -> allWhiteSpace (JSString.reverse s) = true.
Proof.
  rewrite !allWhiteSpace_forallb. unfold JSString.reverse.
  rewrite list_ascii_of_string_of_list_ascii, !forallb_forall.
  intros H a Ha. apply H. apply in_rev. exact Ha.
Qed.

Lemma trimStart_padding (a s : string) :
  allWhiteSpace a = true -> JSString.trimStart (a ++ s)%string = JSString.trimStart s.
Proof.
  induction a as [| c a IH]; cbn; [reflexivity |].
  intros H. apply andb_prop in H. destruct H as [Hc Ha]. rewrite Hc. auto.
Qed.

Lemma trimEnd_padding (s b : string) :
  allWhiteSpace b = true -> JSString.trimEnd (s ++ b)%string = JSString.trimEnd s.
Proof.
  intros H. unfold JSString.trimEnd.
  rewrite reverse_app, trimStart_padding; [reflexivity | apply allWhiteSpace_reverse, H].
Qed.

Lemma trimStart_allWhiteSpace (b : string) :
  allWhiteSpace b = true -> JSString.trimStart b = EmptyString.
Proof.
  induction b as [| c b IH]; cbn; [reflexivity |].
  intros H. apply andb_prop in H. destruct H as [Hc Hb]. rewrite Hc. auto.
Qed.

Lemma trimStart_before_padding (p b : string) :
  allWhiteSpace b = true ->
  JSString.trimStart (p ++ b)%string = (JSString.trimStart p ++ b)%string \/
  (JSString.trimStart p = EmptyString /\ JSString.trimStart (p ++ b)%string = EmptyString).
Proof.
  intros Hb. induction p as [| c p IH]; cbn.
  - right. split; [reflexivity |]. apply trimStart_allWhiteSpace, Hb.
  - destruct (JSString.isWhiteSpace c); [exact IH | left; reflexivity].
Qed.

(** White space around a string does not change what [trim] makes of it. *)
Lemma trim_padding (a p b : string) :
  allWhiteSpace a = true -> allWhiteSpace b = true ->
  JSString.trim (a ++ p ++ b)%string = JSString.trim p.
Proof.
  intros Ha Hb. unfold JSString.trim.
  rewrite trimStart_padding by exact Ha.
  destruct (trimStart_before_padding p b Hb) as [-> | [Hp ->]].
  - apply trimEnd_padding, Hb.
  - rewrite Hp. reflexivity.
Qed.

Lemma string_app_nil_r (s : string) : (s ++ "")%string = s.
Proof. induction s as [| a s IH]; cbn; [reflexivity | rewrite IH; reflexivity]. Qed.

Lemma string_length_app (s1 s2 : string) :
  String.length (s1 ++ s2)%string = String.length s1 + String.length s2.
Proof. induction s1 as [| a s1 IH]; cbn; [reflexivity | rewrite IH; reflexivity]. Qed.

Lemma toHex_cons (b : byte) (bs : list byte) :
  toHex (b :: bs) = (byteToHex b ++ toHex bs)%string.
Proof.
  unfold toHex. cbn [map String.concat].
  destruct (map byteToHex bs) eqn:Hm; [symmetry; apply string_app_nil_r | reflexivity].
Qed.

Lemma toHex_length (bs : list byte) : String.length (toHex bs) = 2 * length bs.
Proof.
  induction bs as [| b bs IH]; [reflexivity |].
  rewrite toHex_cons, string_length_app, IH. cbn. lia.
Qed.

Lemma byteToHex_digits (b : byte) : allHex (byteToHex b) = true.
Proof. destruct b; reflexivity. Qed.

Lemma toHex_digits (bs : list byte) : allHex (toHex bs) = true.
Proof.
  induction bs as [| b bs IH]; [reflexivity |].
  rewrite toHex_cons. unfold allHex in *.
  rewrite list_ascii_of_string_app, forallb_app, IH.
  rewrite (byteToHex_digits b : forallb _ _ = true). reflexivity.
Qed.

Lemma firstByte_byteToHex (b : byte) (rest : string) :
  firstByte (byteToHex b ++ rest) = Some b.
Proof. destruct b; reflexivity. Qed.

Lemma byteToHex_two (b : byte) :
  exists c1 c2, byteToHex b = String c1 (String c2 EmptyString).
Proof. unfold byteToHex. eauto. Qed.

Lemma toHex_injective (bs1 bs2 : list byte) : toHex bs1 = toHex bs2 -> bs1 = bs2.
Proof.
  revert bs2. induction bs1 as [| b1 bs1 IH]; intros [| b2 bs2] H.
  - reflexivity.
  - rewrite toHex_cons in H. destruct (byteToHex_two b2) as (c1 & c2 & Hb).
    rewrite Hb in H. discriminate H.
  - rewrite toHex_cons in H. destruct (byteToHex_two b1) as (c1 & c2 & Hb).
    rewrite Hb in H. discriminate H.
  - rewrite !toHex_cons in H.
    assert (Hb : b1 = b2).
    { pose proof (f_equal firstByte H) as Hf.
      rewrite !firstByte_byteToHex in Hf. congruence. }
    subst b2. f_equal. apply IH.
    destruct (byteToHex_two b1) as (c1 & c2 & Hb). rewrite Hb in H.
    cbn in H. congruence.
Qed.

End Strings.

Section DerivationMore.

Context {Num World : Type} {ton : Ton} {numbers : Numbers Num}
        {env : Environment World}.

(** How [getWalletAddressFromSeed] ends: normally, with nothing written, or
    by a throw whose message is the inner one behind the prefix of the
    [catch], with the inner message on the console. *)
Lemma getWalletAddressFromSeed_ends (words : list string) (version : option string) (w : World) :
  (exists a, getWalletAddressFromSeed (Num := Num) words version w = (Normal a, w, [])) \/
  (exists inner,
      getWalletAddressFromSeed (Num := Num) words version w =
        (Throw ("Error generating wallet address: " ++ inner)%string, w,
         [Console (LDetailedError inner)])).
Proof.
  destruct (mnemonicToWalletKey words) as [keyPair | message] eqn:Hkey.
  - destruct version as [v |].
    + destruct (supportedVersion_cases v) as [Hv | (H1 & H2 & H3)].
      * destruct (getWalletAddressFromSeed_supported (Num := Num) (World := World)
                    words v keyPair Hkey Hv) as (wallet & _ & ->).
        left. eauto.
      * right. exists "Unsupported wallet version".
        unfold getWalletAddressFromSeed, tryCatch, bind, await. rewrite Hkey. cbn.
        rewrite H1, H2, H3. reflexivity.
    + right. eexists.
      unfold getWalletAddressFromSeed, tryCatch, bind, await. rewrite Hkey. reflexivity.
  - right. exists message.
    apply (getWalletAddressFromSeed_no_key (Num := Num) words version message w Hkey).
Qed.

(** An address comes back only for a derived key pair and a supported
    version. *)
Lemma getWalletAddressFromSeed_returns
    (words : list string) (version : option string) (w w' : World) (a : string)
    (t : list (Event Num)) :
  getWalletAddressFromSeed (Num := Num) words version w = (Normal a, w', t) ->
  exists v keyPair,
    version = Some v /\ supportedVersion v /\
    mnemonicToWalletKey words = Returns keyPair.
Proof.
  intros H.
  destruct (mnemonicToWalletKey words) as [keyPair | message] eqn:Hkey.
  - destruct version as [v |].
    + destruct (supportedVersion_cases v) as [Hv | (H1 & H2 & H3)]; [eauto |].
      unfold getWalletAddressFromSeed, tryCatch, bind, await in H. rewrite Hkey in H.
      cbn in H. rewrite H1, H2, H3 in H. discriminate H.
    + unfold getWalletAddressFromSeed, tryCatch, bind, await in H. rewrite Hkey in H.
      discriminate H.
  - rewrite (getWalletAddressFromSeed_no_key (Num := Num) words version message w Hkey) in H.
    discriminate H.
Qed.

Lemma processWalletData_inversion
    (walletData : option WalletData) (version : option string) (w w' : World)
    (wallet : Wallet) (t : list (Event Num)) :
  processWalletData (Num := Num) walletData version w = (Normal wallet, w', t) ->
  exists (entry : WalletData) (phrase v : string) (keyPair : KeyPair),
    walletData = Some entry /\
    mnemonic entry = Some phrase /\
    length (JSString.split " " (JSString.trim phrase)) = 24 /\
    version = Some v /\ supportedVersion v /\
    mnemonicToWalletKey (JSString.split " " (JSString.trim phrase)) = Returns keyPair /\
    getWalletAddressFromSeed (Num := Num) (JSString.split " " (JSString.trim phrase))
      version w = (Normal (address wallet), w, []) /\
    private_key wallet = Some (toHex (secretKey keyPair)) /\
    w' = w /\ t = [].
Proof.
  intros H.
  unfold processWalletData, tryCatch, bind, property, when in H.
  destruct walletData as [entry |]; [| discriminate H].
  cbn in H. destruct (mnemonic entry) as [phrase |] eqn:Hphrase; [| discriminate H].
  cbn in H.
  destruct (Nat.eqb_spec (length (JSString.split " " (JSString.trim phrase))) 24)
    as [Hlen | Hlen]; [| discriminate H].
  cbn in H. unfold await in H.
  destruct (mnemonicToWalletKey (JSString.split " " (JSString.trim phrase)))
    as [keyPair | message] eqn:Hkey; [| discriminate H].
  cbn in H.
  destruct (getWalletAddressFromSeed_ends (JSString.split " " (JSString.trim phrase)) version w)
    as [(a & Ha) | (inner & Ha)]; rewrite Ha in H; [| discriminate H].
  cbn in H. injection H as <- <- <-.
  destruct (getWalletAddressFromSeed_returns _ _ _ _ _ _ Ha) as (v & keyPair' & Hv & Hs & _).
  exists entry, phrase, v, keyPair. repeat split; auto.
Qed.

(** X1. [processWalletData] returns a wallet only for an entry that has a
    seed phrase of exactly 24 words, a version that is one of the three
    supported ones, and words from which the library derives a key pair. The
    wallet then holds the address that [getWalletAddressFromSeed] returns
    for these words and the secret key in hex; the world is unchanged and
    nothing is written. *)
Theorem processWalletData_returns_only
    (walletData : option WalletData) (version : option string) (w w' : World)
    (wallet : Wallet) (t : list (Event Num)) :
  processWalletData (Num := Num) walletData version w = (Normal wallet, w', t) ->
  exists (entry : WalletData) (phrase v : string) (keyPair : KeyPair),
    walletData = Some entry /\
    mnemonic entry = Some phrase /\
    length (JSString.split " " (JSString.trim phrase)) = 24 /\
    version = Some v /\ supportedVersion v /\
    mnemonicToWalletKey (JSString.split " " (JSString.trim phrase)) = Returns keyPair /\
    getWalletAddressFromSeed (Num := Num) (JSString.split " " (JSString.trim phrase))
      version w = (Normal (address wallet), w, []) /\
    private_key wallet = Some (toHex (secretKey keyPair)) /\
    w' = w /\ t = [].
Proof. apply processWalletData_inversion. Qed.

(** X2. The words are counted by the spaces. A trimmed phrase with a number
    of spaces other than 23 is refused with the length error, whatever
    stands between the spaces (two spaces in a row make an empty word, a tab
    separates nothing); one with exactly 23 spaces is accepted, given a
    supported version and a key pair. *)
Theorem processWalletData_counts_spaces
    (entry : WalletData) (phrase : string) (version : option string) (w : World) :
  mnemonic entry = Some phrase ->
  (occurrences " " (JSString.trim phrase) <> 23 ->
   processWalletData (Num := Num) (Some entry) version w =
     (Throw "Error processing wallet data: Invalid seed phrase length - must be 24 words",
      w, []))
  /\
  (occurrences " " (JSString.trim phrase) = 23 ->
   forall (v : string) (keyPair : KeyPair),
     version = Some v ->
     supportedVersion v ->
     mnemonicToWalletKey (JSString.split " " (JSString.trim phrase)) = Returns keyPair ->
     exists derived : string,
       processWalletData (Num := Num) (Some entry) version w =
         (Normal {| address := derived;
                    private_key := Some (toHex (secretKey keyPair)) |}, w, [])).
Proof.
  intros Hphrase.
  pose proof (split_length " " (JSString.trim phrase)) as Hlen.
  split.
  - intros Hcount.
    unfold processWalletData, tryCatch, bind, property, when. cbn.
    rewrite Hphrase. cbn.
    destruct (Nat.eqb_spec (length (JSString.split " " (JSString.trim phrase))) 24)
      as [H24 | H24]; [lia | reflexivity].
  - intros Hcount v keyPair -> Hv Hkey.
    destruct (getWalletAddressFromSeed_supported (Num := Num) (World := World)
                _ v keyPair Hkey Hv) as (wallet & _ & Haddr).
    eexists.
    unfold processWalletData, tryCatch, bind, property, when. cbn.
    rewrite Hphrase. cbn.
    destruct (Nat.eqb_spec (length (JSString.split " " (JSString.trim phrase))) 24)
      as [H24 | H24]; [| lia].
    cbn. unfold await. rewrite Hkey. cbn. rewrite Haddr. reflexivity.
Qed.

(** X3. The version is read without regard to case:
    [getWalletAddressFromSeed] and [processWalletData] do for a version what
    they do for its lower-case form. *)
Theorem version_is_case_insensitive
    (words : list string) (walletData : option WalletData) (v : string) (w : World) :
  getWalletAddressFromSeed (Num := Num) words (Some v) w =
  getWalletAddressFromSeed (Num := Num) words (Some (JSString.toLowerCase v)) w /\
  processWalletData (Num := Num) walletData (Some v) w =
  processWalletData (Num := Num) walletData (Some (JSString.toLowerCase v)) w.
Proof.
  assert (H : forall ws (w0 : World),
             getWalletAddressFromSeed (Num := Num) ws (Some v) w0 =
             getWalletAddressFromSeed (Num := Num) ws (Some (JSString.toLowerCase v)) w0).
  { intros ws w0. unfold getWalletAddressFromSeed, tryCatch, bind, property, await.
    destruct (mnemonicToWalletKey ws); [| reflexivity].
    cbn -[JSString.toLowerCase]. rewrite toLowerCase_idempotent. reflexivity. }
  split; [apply H |].
  unfold processWalletData, tryCatch, bind.
  destruct (property walletData "undefined" "mnemonic" w) as [[[entry | e |] w1] t1];
    try reflexivity.
  destruct (property (mnemonic entry) "undefined" "trim" w1) as [[[phrase | e |] w2] t2];
    try reflexivity.
  destruct (when _ _ w2) as [[[[] | e |] w3] t3]; try reflexivity.
  destruct (await _ w3) as [[[keyPair | e |] w4] t4]; try reflexivity.
  rewrite H. reflexivity.
Qed.

(** X4. White space before and after the seed phrase is ignored: an entry
    whose phrase is padded with white space is processed as the entry with
    the bare phrase is, result, world and console alike. *)
Theorem seed_phrase_padding_is_ignored
    (padded plain : WalletData) (before phrase after : string)
    (version : option string) (w : World) :
  allWhiteSpace before = true ->
  allWhiteSpace after = true ->
  mnemonic plain = Some phrase ->
  mnemonic padded = Some (before ++ phrase ++ after)%string ->
  processWalletData (Num := Num) (Some padded) version w =
  processWalletData (Num := Num) (Some plain) version w.
Proof.
  intros Hb Ha Hplain Hpadded.
  unfold processWalletData, tryCatch, bind, property, when. cbn.
  rewrite Hplain, Hpadded. cbn.
  rewrite (trim_padding before phrase after Hb Ha). reflexivity.
Qed.

(** X5.  The private key of a returned wallet is the secret key of the key
    pair that the library derives from the words of the entry's seed
    phrase, in lower-case hexadecimal: two digits 0-9 and a-f for each
    byte, and no other list of bytes has the same text. *)
Theorem private_key_is_hex
    (walletData : option WalletData) (version : option string) (w w' : World)
    (wallet : Wallet) (t : list (Event Num)) :
  processWalletData (Num := Num) walletData version w = (Normal wallet, w', t) ->
  exists (entry : WalletData) (phrase : string) (keyPair : KeyPair) (hex : string),
    walletData = Some entry /\
    mnemonic entry = Some phrase /\
    mnemonicToWalletKey (JSString.split " " (JSString.trim phrase)) = Returns keyPair /\
    private_key wallet = Some hex /\
    hex = toHex (secretKey keyPair) /\
    String.length hex = 2 * length (secretKey keyPair) /\
    allHex hex = true /\
    forall other : list byte, toHex other = hex -> other = secretKey keyPair.
Proof.
  intros H.
  destruct (processWalletData_inversion _ _ _ _ _ _ H)
    as (entry & phrase & v & keyPair & He & Hp & _ & _ & _ & Hk & _ & Hkey & _).
  exists entry, phrase, keyPair, (toHex (secretKey keyPair)).
  split; [exact He |]. split; [exact Hp |]. split; [exact Hk |].
  split; [exact Hkey |]. split; [reflexivity |].
  split; [apply toHex_length |]. split; [apply toHex_digits |].
  intros other. apply toHex_injective.
Qed.

(** X6. Errors are wrapped, not lost, and the world stays as it is.
    [getWalletAddressFromSeed] ends normally with nothing written, or throws
    the inner message behind "Error generating wallet address: " after
    writing the inner message on the console. [processWalletData] ends
    normally, or throws the inner message behind "Error processing wallet
    data: "; when it is [getWalletAddressFromSeed] that failed, the inner
    message is its message and the console holds its line. *)
Theorem errors_are_wrapped
    (walletData : option WalletData) (words : list string) (version : option string)
    (w : World) :
  ((exists a, getWalletAddressFromSeed (Num := Num) words version w = (Normal a, w, [])) \/
   (exists inner,
       getWalletAddressFromSeed (Num := Num) words version w =
         (Throw ("Error generating wallet address: " ++ inner)%string, w,
          [Console (LDetailedError inner)])))
  /\
  ((exists wallet,
       processWalletData (Num := Num) walletData version w = (Normal wallet, w, [])) \/
   (exists inner,
       processWalletData (Num := Num) walletData version w =
         (Throw ("Error processing wallet data: " ++ inner)%string, w, [])) \/
   (exists inner,
       processWalletData (Num := Num) walletData version w =
         (Throw ("Error processing wallet data: Error generating wallet address: "
                 ++ inner)%string, w,
          [Console (LDetailedError inner)]))).
Proof.
  split; [apply getWalletAddressFromSeed_ends |].
  unfold processWalletData, tryCatch, bind, property, when.
  destruct walletData as [entry |]; cbn; [| right; left; eauto].
  destruct (mnemonic entry) as [phrase |]; cbn; [| right; left; eauto].
  destruct (length _ =? 24); cbn; [| right; left; eauto].
  unfold await.
  destruct (mnemonicToWalletKey _) as [keyPair | message]; cbn; [| right; left; eauto].
  match goal with
  | |- context [getWalletAddressFromSeed ?ws ?v ?w] =>
      destruct (getWalletAddressFromSeed_ends ws v w) as [(a & ->) | (inner & ->)]
  end; cbn.
  - left. eauto.
  - right. right. exists inner. reflexivity.
Qed.

End DerivationMore.

(** ** More on one account *)

Section RulesMore.

Context {Num World : Type} {ton : Ton} {numbers : Numbers Num}
        {env : Environment World}.

(** How [processWalletData] ends, with what a wallet it returns is made
    of. *)
Lemma processWalletData_ends (wd : option WalletData) (version : option string) (w : World) :
  (exists wallet entry phrase keyPair,
      wd = Some entry /\ mnemonic entry = Some phrase /\
      mnemonicToWalletKey (JSString.split " " (JSString.trim phrase)) = Returns keyPair /\
      private_key wallet = Some (toHex (secretKey keyPair)) /\
      (forall w0 : World,
          getWalletAddressFromSeed (Num := Num)
            (JSString.split " " (JSString.trim phrase)) version w0 =
            (Normal (address wallet), w0, [])) /\
      processWalletData (Num := Num) wd version w = (Normal wallet, w, [])) \/
  (exists message,
      (wd = None ->
       message = ("Error processing wallet data: " ++ typeError "undefined" "mnemonic")%string) /\
      processWalletData (Num := Num) wd version w = (Throw message, w, [])) \/
  (exists message inner,
      wd <> None /\ versionFailure version inner /\
      processWalletData (Num := Num) wd version w =
        (Throw message, w, [Console (LDetailedError inner)])).
Proof.
  unfold processWalletData, tryCatch, bind, property, when.
  destruct wd as [entry |]; cbn; [| right; left; eauto].
  destruct (mnemonic entry) as [phrase |] eqn:Hphrase; cbn;
    [| right; left; eexists; split; [discriminate | reflexivity]].
  destruct (length _ =? 24); cbn;
    [| right; left; eexists; split; [discriminate | reflexivity]].
  unfold await.
  destruct (mnemonicToWalletKey _) as [keyPair | message] eqn:Hkey; cbn;
    [| right; left; eexists; split; [discriminate | reflexivity]].
  destruct version as [v |].
  - destruct (supportedVersion_cases v) as [Hv | (H1 & H2 & H3)].
    + destruct (getWalletAddressFromSeed_supported (Num := Num) (World := World)
                  _ v keyPair Hkey Hv) as (contract & _ & Haddr).
      rewrite Haddr. cbn. left.
      eexists _, entry, phrase, keyPair. repeat split; eauto.
    + right. right.
      unfold getWalletAddressFromSeed, tryCatch, bind, await. rewrite Hkey. cbn.
      rewrite H1, H2, H3. cbn. eexists _, _.
      split; [discriminate |]. split; [| reflexivity].
      right. exists v. split; [reflexivity |]. split; [| reflexivity].
      unfold supportedVersion. intros [Hv | [Hv | Hv]]; rewrite Hv in *; discriminate.
  - right. right.
    unfold getWalletAddressFromSeed, tryCatch, bind, await. rewrite Hkey. cbn.
    eexists _, _. split; [discriminate |]. split; [| reflexivity].
    left. split; reflexivity.
Qed.

Lemma post_processWalletData_ends (wd : option WalletData) (version : option string)
    (vars : Vars Num) (w : World)
    (Q : Completion Wallet -> Vars Num * World -> list (Event Num) -> Prop) :
  (forall wallet entry phrase keyPair,
      wd = Some entry -> mnemonic entry = Some phrase ->
      mnemonicToWalletKey (JSString.split " " (JSString.trim phrase)) = Returns keyPair ->
      private_key wallet = Some (toHex (secretKey keyPair)) ->
      (forall w0 : World,
          getWalletAddressFromSeed (Num := Num)
            (JSString.split " " (JSString.trim phrase)) version w0 =
            (Normal (address wallet), w0, [])) ->
      Q (Normal wallet) (vars, w) []) ->
  (forall message,
      (wd = None ->
       message = ("Error processing wallet data: " ++ typeError "undefined" "mnemonic")%string) ->
      Q (Throw message) (vars, w) []) ->
  (forall message inner,
      wd <> None -> versionFailure version inner ->
      Q (Throw message) (vars, w) [Console (LDetailedError inner)]) ->
  post (lift (processWalletData wd version)) (vars, w) Q.
Proof.
  intros H1 H2 H3. unfold post, lift.
  destruct (processWalletData_ends wd version w)
    as [(wallet & entry & phrase & keyPair & ? & ? & ? & ? & ? & ->)
       | [(message & ? & ->) | (message & inner & ? & ? & ->)]]; eauto.
Qed.

End RulesMore.

(** *** Running a round with the richer rule *)

(** As [wp1], with what [processWalletData] returns spelled out; the entry
    and its phrase are put into the goal. *)
Ltac wp1' :=
  lazymatch goal with
  | |- post (lift (processWalletData _ _)) _ _ =>
      apply post_processWalletData_ends;
      [ let Hentry := fresh "Hentry" in
        let Hphrase := fresh "Hphrase" in
        intros ? ? ? ? Hentry Hphrase ? ? ?; rewrite ?Hentry; cbn [mnemonic];
        rewrite ?Hphrase
      | intros | intros ]
  | |- _ => wp1
  end.

Ltac wp' :=
  repeat (cbn beta iota delta [JSString.truthy negb andb String.eqb Ascii.eqb Bool.eqb];
          wp1').

(** The cases of [H : In e t] for a trace [t] that is written out, and the
    search for an event in such a trace. *)
Ltac in_cases H :=
  cbn in H;
  repeat (destruct H as [H | H]; [try discriminate H |]); try contradiction.

Ltac find_in := cbn; solve [repeat (first [left; reflexivity | right])].

(** [Forall P t] for a trace that is written out, [tac] proving [P] of each
    event. *)
Ltac each tac :=
  cbn -[randomDelay];
  repeat (apply Forall_cons; [solve [tac] |]); apply Forall_nil.

Ltac derived :=
  eexists _, _;
  split; [eassumption | split; [eassumption | split; [eassumption | assumption]]].

Ltac solve_wallet :=
  cbn; unfold walletFor;
  repeat match goal with
         | H : ?p <> ?q |- context [(?p =? ?q)%string] =>
             rewrite (proj2 (String.eqb_neq p q) H)
         end;
  cbn;
  first
    [ exact I
    | eexists; split; [eassumption | split; [eassumption | reflexivity]]
    | eexists; split; [reflexivity | split; [eassumption | reflexivity]]
    | eexists; split; [eassumption | derived]
    | eexists; split; [reflexivity | derived] ].

Ltac solve_tokens :=
  let H := fresh in
  intros ? ? ? ? ? H; in_cases H;
  injection H as <- <- <- <- <-;
  first [ left; split; reflexivity
        | right; split; [reflexivity | left; eexists; find_in]
        | right; split; [reflexivity | right; eexists; find_in] ].

Ltac solve_success :=
  cbn -[randomDelay]; intros; try discriminate; try lia;
  eexists; split; find_in.

Ltac solve_timer_count :=
  cbn -[randomDelay Nat.ltb];
  first [ apply Nat.le_0_l
        | match goal with
          | |- _ <= (if ?a <? ?b then _ else _) => destruct (Nat.ltb_spec a b); lia
          end ].

Ltac solve_timer_last :=
  cbn -[randomDelay]; intros; try discriminate;
  match goal with
  | |- exists ms t0, ?t = _ => eexists; exists (removelast t); reflexivity
  end.

Ltac solve_missing :=
  let Hnone := fresh in
  intros Hnone; try discriminate Hnone; try congruence;
  repeat match goal with
         | H : _ = None -> _ |- _ => specialize (H Hnone); subst
         end;
  split; reflexivity.

Ltac solve_invalid :=
  cbn;
  first
    [ exact I
    | split; [reflexivity |];
      eexists; split; [first [reflexivity | eassumption] |];
      match goal with H : data_address _ = _ |- _ => rewrite H end; reflexivity ].

Ltac solve_seed :=
  cbn;
  first
    [ exact I
    | eexists _, _; split; [eassumption | split; [eassumption | reflexivity]] ].

Ltac solve_address :=
  let H := fresh in
  intros ? ? H; in_cases H;
  injection H as <- <-;
  first [ eexists _, _, _, _; split; [find_in | reflexivity] ].

(** The conjuncts of [traceFacts], and the others of [accountFacts], at
    the end of a path through the round. *)
Ltac facts_trace :=
  split; [each ltac:(cbn; auto) |];
  split; [each ltac:(cbn; auto; try congruence; split; congruence) |];
  split; [each solve_wallet |];
  split; [solve_tokens |];
  split; [each solve_invalid |];
  split; [each solve_seed |];
  split; [solve_address |];
  split; [each ltac:(cbn; auto; congruence) |];
  each ltac:(cbn; auto).

Ltac facts_counts :=
  split; [each ltac:(reflexivity) |];
  split; [cbn -[randomDelay]; lia |];
  split; [solve_success |];
  split; [solve_timer_count |];
  split; [solve_timer_last |];
  solve_missing.

Section AccountMore.

Context {Num World : Type} {ton : Ton} {numbers : Numbers Num}
        {env : Environment World}.

(** Every round of the loop meets [accountFacts]. *)
Lemma processAccount_facts (action : string) (queryIds : list string)
    (walletData : list WalletData) (version : option string) (platform : string)
    (i : nat) (vars : Vars Num) (w : World) :
  post (processAccount action queryIds walletData version platform i) (vars, w)
       (accountFacts action queryIds walletData version platform i vars).
Proof.
  unfold accountFacts, traceFacts, serviceFor, missingEntry.
  unfold_program.
  wp'.
  all: try match goal with H : None = Some _ |- _ => discriminate H end.
  all: repeat match goal with H : Some _ = Some _ |- _ => injection H as H; subst end.
  all: cbn [fst snd app successCount failCount totalBalance].
  all: split; [| facts_counts].
  all: facts_trace.
Qed.

End AccountMore.

(** ** More on the whole run *)

Section RunMore.

Context {Num World : Type} {ton : Ton} {numbers : Numbers Num}
        {env : Environment World}.

Implicit Types (t : list (Event Num)) (e : Event Num).

(** A loop whose body never throws keeps what every round keeps. *)
Lemma forLoop_invariant (body : nat -> M Num (Vars Num * World) unit)
    (I : nat -> Vars Num * World -> list (Event Num) -> Prop) :
  (forall i s t, I i s t ->
     post (body i) s (fun r s' t' => (r = Normal tt \/ r = Continue) /\ I (S i) s' (t ++ t'))) ->
  forall count start s t,
    I start s t ->
    post (forLoop count start body) s
         (fun r s' t' => r = Normal tt /\ I (start + count) s' (t ++ t')).
Proof.
  intros Hbody. induction count as [| count IH]; intros start s t Hinv.
  - cbn. rewrite Nat.add_0_r, app_nil_r. auto.
  - specialize (Hbody start s t Hinv). unfold post in *. cbn [forLoop].
    destruct (body start s) as [[r s1] t1]. destruct Hbody as (Hr & Hinv1).
    specialize (IH (S start) s1 (t ++ t1) Hinv1).
    destruct Hr as [-> | ->];
      destruct (forLoop count (S start) body s1) as [[r2 s2] t2];
      rewrite app_assoc, <- Nat.add_succ_comm; exact IH.
Qed.

Lemma traceFacts_nil (action : string) (queryIds : list string)
    (walletData : list WalletData) (version : option string) (platform : string) :
  traceFacts (Num := Num) (World := World) action queryIds walletData version platform [].
Proof.
  unfold traceFacts. repeat split; try constructor; intros; contradiction.
Qed.

Lemma traceFacts_app (action : string) (queryIds : list string)
    (walletData : list WalletData) (version : option string) (platform : string) t t' :
  traceFacts (World := World) action queryIds walletData version platform t ->
  traceFacts (World := World) action queryIds walletData version platform t' ->
  traceFacts (World := World) action queryIds walletData version platform (t ++ t').
Proof.
  intros (H1 & H2 & H3 & H4 & H5 & H6 & H7 & H8 & H9)
         (H1' & H2' & H3' & H4' & H5' & H6' & H7' & H8' & H9').
  unfold traceFacts.
  split; [apply Forall_app; auto |]. split; [apply Forall_app; auto |].
  split; [apply Forall_app; auto |].
  split.
  { intros j service token wallet o Hin. apply in_app_or in Hin.
    destruct Hin as [Hin | Hin]; [apply H4 in Hin | apply H4' in Hin];
      (destruct Hin as [Hin | (Htruthy & [(q & Hin) | (q & Hin)])];
       [left; exact Hin
       | right; split; [exact Htruthy | left; exists q; apply in_or_app; auto]
       | right; split; [exact Htruthy | right; exists q; apply in_or_app; auto]]). }
  split; [apply Forall_app; auto |]. split; [apply Forall_app; auto |].
  split; [| split; apply Forall_app; auto].
  intros j a Hin. apply in_app_or in Hin.
  destruct Hin as [Hin | Hin]; [apply H7 in Hin | apply H7' in Hin];
    destruct Hin as (service & token & wallet & o & Hin & Ha);
    exists service, token, wallet, o; (split; [apply in_or_app; auto | exact Ha]).
Qed.

Lemma loopFacts_step (action : string) (queryIds : list string)
    (walletData : list WalletData) (version : option string) (platform : string)
    (vars0 : Vars Num) (i : nat) (s s' : Vars Num * World) t t'
    (r : Completion unit) :
  loopFacts action queryIds walletData version platform vars0 i s t ->
  accountFacts action queryIds walletData version platform i (fst s) r s' t' ->
  loopFacts action queryIds walletData version platform vars0 (S i) s' (t ++ t').
Proof.
  intros (Ht & Hf & Hc & Hn & Hm) (Ht' & Hf' & Hc' & _ & Hn' & _).
  unfold loopFacts. rewrite !filter_app, !length_app.
  split; [apply traceFacts_app; assumption |].
  split; [apply Forall_app; auto |].
  split; [lia |].
  destruct (Nat.ltb_spec (S i) (length queryIds)); lia.
Qed.

Lemma forLoop_facts (action : string) (queryIds : list string)
    (walletData : list WalletData) (version : option string) (platform : string)
    (vars0 : Vars Num) (count start : nat) (s : Vars Num * World) t :
  loopInv action queryIds platform vars0 start s t ->
  loopFacts action queryIds walletData version platform vars0 start s t ->
  post (forLoop count start (processAccount action queryIds walletData version platform)) s
       (fun r s' t' =>
          r = Normal tt /\
          loopInv action queryIds platform vars0 (start + count) s' (t ++ t') /\
          loopFacts action queryIds walletData version platform vars0 (start + count) s'
            (t ++ t')).
Proof.
  intros Hinv Hfacts.
  apply (forLoop_invariant
           (processAccount action queryIds walletData version platform)
           (fun i s t =>
              loopInv action queryIds platform vars0 i s t /\
              loopFacts action queryIds walletData version platform vars0 i s t));
    [| split; assumption].
  clear. intros i [vars w] t (Hinv & Hfacts).
  pose proof (processAccount_spec action queryIds walletData version platform i vars w) as Hs.
  pose proof (processAccount_facts action queryIds walletData version platform i vars w) as Hf.
  unfold post in *.
  destruct (processAccount _ _ _ _ _ i (vars, w)) as [[r s1] t1].
  split; [apply Hs |].
  split; [eapply loopInv_step; eauto | eapply loopFacts_step; eauto].
Qed.

(** Every run of [processWallets] has the shape of [runShape]. *)
Lemma processWallets_shape (action : string) (queryIds : list string)
    (walletData : list WalletData) (version : option string) (platform : string)
    (w : World) :
  post (processWallets action queryIds walletData version platform) w
       (runShape action queryIds walletData version platform w).
Proof.
  unfold post, processWallets, scope.
  set (vars0 := {| totalBalance := numZero; successCount := 0; failCount := 0 |}).
  assert (Hinv0 : loopInv action queryIds platform vars0 0 (vars0, w) []).
  { unfold loopInv. cbn. repeat split; try constructor; try lia; try contradiction. }
  assert (Hfacts0 : loopFacts action queryIds walletData version platform vars0 0
                      (vars0, w) []).
  { unfold loopFacts. cbn. split; [apply traceFacts_nil |].
    repeat split; try constructor; lia. }
  pose proof (forLoop_facts action queryIds walletData version platform vars0
                (length queryIds) 0 (vars0, w) [] Hinv0 Hfacts0) as Hl.
  unfold post in Hl. cbn [app Nat.add] in Hl.
  unfold runShape, banner, footer, header, summary, when, console, property.
  fold vars0.
  destruct (String.eqb_spec platform "paws") as [Hp | Hp].
  - unfold bind at 1. cbn. unfold bind at 1.
    destruct (forLoop _ 0 _ (vars0, w)) as [[rl [vars1 w1]] tl].
    destruct Hl as (-> & Hinv & Hfacts).
    destruct ((action =? "1") && (platform =? "blum"))%string; cbn;
      (right; split; [auto |]); exists vars1, tl; auto.
  - destruct version as [v |].
    + unfold bind at 1. cbn. unfold bind at 1.
      destruct (forLoop _ 0 _ (vars0, w)) as [[rl [vars1 w1]] tl].
      destruct Hl as (-> & Hinv & Hfacts).
      destruct ((action =? "1") && (platform =? "blum"))%string; cbn;
        (right; split; [right; discriminate |]); exists vars1, tl; auto.
    + left. cbn. auto.
Qed.

End RunMore.

Section RunFacts.

Context {Num World : Type} {ton : Ton} {numbers : Numbers Num}
        {env : Environment World}.

Implicit Types (t : list (Event Num)) (e : Event Num).

Lemma traceFacts_frame (action : string) (queryIds : list string)
    (walletData : list WalletData) (version : option string) (platform : string) t :
  Forall (fun e => isFrame e = true) t ->
  traceFacts (World := World) action queryIds walletData version platform t.
Proof.
  intros H. rewrite Forall_forall in H. unfold traceFacts.
  repeat split; try (apply Forall_forall; intros e He; specialize (H e He);
                     destruct e as [[] | | | | | | | | |]; cbn in *; try discriminate; exact I).
  - intros j service token wallet o Hin. specialize (H _ Hin). discriminate H.
  - intros j a Hin. specialize (H _ Hin). discriminate H.
Qed.

Lemma banner_frame (action : string) (version : option string) (platform : string) :
  Forall (fun e : Event Num => isFrame e = true) (banner action version platform).
Proof. repeat constructor. Qed.

Lemma footer_frame (action platform : string) (result : Vars Num) :
  Forall (fun e : Event Num => isFrame e = true) (footer action platform result).
Proof. unfold footer. destruct (_ && _); repeat constructor. Qed.

(** The facts of the rounds hold of the whole trace of a run. *)
Lemma processWallets_traceFacts (action : string) (queryIds : list string)
    (walletData : list WalletData) (version : option string) (platform : string)
    (w : World) :
  post (processWallets action queryIds walletData version platform) w
       (fun _ _ t => traceFacts (World := World) action queryIds walletData version platform t).
Proof.
  eapply post_mono; [apply processWallets_shape |].
  intros r w' t [(_ & _ & _ & _ & ->) | (_ & result & rounds & _ & -> & _ & Hfacts)].
  - apply traceFacts_frame. repeat constructor.
  - destruct Hfacts as (Ht & _).
    apply traceFacts_app; [apply traceFacts_frame, banner_frame |].
    apply traceFacts_app; [exact Ht | apply traceFacts_frame, footer_frame].
Qed.

Lemma filter_frame (f : Event Num -> bool) t :
  (forall e, isFrame e = true -> f e = false) ->
  Forall (fun e => isFrame e = true) t -> filter f t = [].
Proof.
  intros Hf H. induction H as [| e t He _ IH]; [reflexivity |].
  cbn. rewrite (Hf e He). exact IH.
Qed.

End RunFacts.

Section MoreClaims.

Context {Num World : Type} {ton : Ton} {numbers : Numbers Num}
        {env : Environment World}.

Implicit Types (t : list (Event Num)) (e : Event Num).

Lemma post_conj {S A} (m : M Num S A) (s : S)
    (Q Q' : Completion A -> S -> list (Event Num) -> Prop) :
  post m s Q -> post m s Q' -> post m s (fun r s' t => Q r s' t /\ Q' r s' t).
Proof. unfold post. destruct (m s) as [[r s'] t]. auto. Qed.

(** X7. One service class for each platform. [getServiceInstance] creates a
    service of the class of its [switch] (YesCoin, Tsubasa, PAWS, and Blum
    for any other platform), initialises it with the token and the wallet it
    was given and returns what [init] returns; a throw of the constructor or
    of [init] is passed on. Every service call of a run of [processWallets]
    is on that same class, and [getNewToken] and [getBalance] are called on
    the Blum class only. *)
Theorem service_class_follows_platform
    (action : string) (queryIds : list string) (walletData : list WalletData)
    (version : option string) (platform token : string) (wallet : Wallet)
    (i : nat) (vars : Vars Num) (w : World) :
  post (getServiceInstance i platform token wallet) (vars, w)
       (fun r s' t =>
          fst s' = vars /\
          ((exists message,
               r = Throw message /\
               t = [New i (serviceFor platform) (Throws message)]) \/
           (exists o,
               t = [New i (serviceFor platform) (Returns tt);
                    Init i (serviceFor platform) token wallet o] /\
               r = match o with
                   | Returns ok => Normal ok
                   | Throws message => Throw message
                   end)))
  /\
  post (processWallets action queryIds walletData version platform) w
       (fun _ _ t => Forall (usesService (serviceFor platform)) t).
Proof.
  split.
  - unfold getServiceInstance, serviceFor, new, init. wp.
    all: repeat match goal with a : unit |- _ => destruct a end.
    all: split; [reflexivity |].
    all: first [ left; eexists; split; reflexivity
               | right; eexists (Returns _); split; reflexivity
               | right; eexists (Throws _); split; reflexivity ].
  - eapply post_mono; [apply processWallets_traceFacts |].
    intros r w' t Ht. apply Ht.
Qed.

(** X8. A run calls [connectWallet] only for action 1 and [disconnectWallet]
    only for action 2, and displays an account only for another action; it
    calls [login] only on PAWS and YesCoin, and [getNewToken] only on a
    platform that is none of PAWS, Tsubasa and YesCoin. *)
Theorem calls_follow_action_and_platform
    (action : string) (queryIds : list string) (walletData : list WalletData)
    (version : option string) (platform : string) (w : World) :
  post (processWallets action queryIds walletData version platform) w
       (fun _ _ t =>
          (forall j service o, In (ConnectWallet j service o) t -> action = "1") /\
          (forall j service o, In (DisconnectWallet j service o) t -> action = "2") /\
          (forall j, In (Console (LAccount j)) t -> action <> "1" /\ action <> "2") /\
          (forall j service q o, In (Login j service q o) t ->
             platform = "paws" \/ platform = "yescoin") /\
          (forall j q o, In (GetNewToken j q o) t ->
             platform <> "paws" /\ platform <> "tsubasa" /\ platform <> "yescoin")).
Proof.
  eapply post_mono; [apply processWallets_traceFacts |].
  intros r w' t (_ & H & _). rewrite Forall_forall in H.
  repeat split; intros; match goal with Hin : In _ t |- _ => apply H in Hin end;
    cbn in *; tauto.
Qed.

(** X9. Every [init] of a run is given the wallet of its own account: on
    PAWS the address of entry [j] of the wallet list and no private key;
    elsewhere the address and the hex secret key derived from the words of
    the seed phrase of entry [j]. *)
Theorem init_gets_the_wallet_of_its_account
    (action : string) (queryIds : list string) (walletData : list WalletData)
    (version : option string) (platform : string) (w : World) :
  post (processWallets action queryIds walletData version platform) w
       (fun _ _ t =>
          forall j service token wallet o,
            In (Init j service token wallet o) t ->
            walletFor (Num := Num) (World := World) walletData version platform j wallet).
Proof.
  eapply post_mono; [apply processWallets_traceFacts |].
  intros r w' t (_ & _ & H & _). rewrite Forall_forall in H.
  intros j service token wallet o Hin. exact (H _ Hin).
Qed.

(** X10. The token given to [init] for an account is one that [login] or
    [getNewToken] returned for the query id of that account in the same run,
    and it is not empty; on Tsubasa it is the query id itself. *)
Theorem init_gets_the_token_of_its_account
    (action : string) (queryIds : list string) (walletData : list WalletData)
    (version : option string) (platform : string) (w : World) :
  post (processWallets action queryIds walletData version platform) w
       (fun _ _ t =>
          forall j service token wallet o,
            In (Init j service token wallet o) t ->
            (service = TsubasaService /\ token = nth j queryIds EmptyString) \/
            (JSString.truthy token = true /\
             (In (Login j service (nth j queryIds EmptyString) (Returns (Some token))) t \/
              In (GetNewToken j (nth j queryIds EmptyString) (Returns (Some token))) t))).
Proof.
  eapply post_mono;
    [exact (post_conj _ _ _ _
              (processWallets_traceFacts action queryIds walletData version platform w)
              (processWallets_spec action queryIds walletData version platform w)) |].
  intros r w' t ((_ & _ & _ & H & _) & (_ & _ & _ & _ & _ & Hq & _)).
  rewrite Forall_forall in Hq.
  intros j service token wallet o Hin.
  destruct (H _ _ _ _ _ Hin) as [Ht | (Htruthy & [(q & Hl) | (q & Hl)])];
    [left; exact Ht | right; split; [exact Htruthy |] ..].
  - left. pose proof (Hq _ Hl) as Hq'. cbn in Hq'. subst q. exact Hl.
  - right. pose proof (Hq _ Hl) as Hq'. cbn in Hq'. subst q. exact Hl.
Qed.

Lemma filter_run (f : Event Num -> bool) (action : string) (version : option string)
    (platform : string) (result : Vars Num) (rounds : list (Event Num)) :
  (forall e, isFrame e = true -> f e = false) ->
  filter f (banner action version platform ++ rounds ++ footer action platform result) =
  filter f rounds.
Proof.
  intros Hf. rewrite !filter_app.
  rewrite (filter_frame f _ Hf (banner_frame action version platform)).
  rewrite (filter_frame f _ Hf (footer_frame action platform result)).
  rewrite app_nil_r. reflexivity.
Qed.

(** X11. The failure count that a run returns is the number of failure lines
    on its console (invalid address, failed login, failed initialisation,
    failed token, failed connect, failed disconnect, account error), and the
    success count is the number of query ids less that number. *)
Theorem failures_are_the_failure_lines
    (action : string) (queryIds : list string) (walletData : list WalletData)
    (version : option string) (platform : string) (w : World) :
  post (processWallets action queryIds walletData version platform) w
       (fun r _ t =>
          forall result, r = Normal result ->
            failCount result = length (filter isFailureLine t) /\
            successCount result = length queryIds - length (filter isFailureLine t)).
Proof.
  eapply post_mono; [apply processWallets_shape |].
  intros r w' t [(_ & _ & -> & _) | (_ & result & rounds & -> & -> & Hinv & Hfacts)];
    intros result' Hr; [discriminate Hr |].
  injection Hr as <-.
  rewrite filter_run by (intros [[] | | | | | | | | |]; cbn; congruence).
  destruct Hinv as (Hsum & _). destruct Hfacts as (_ & _ & Hfail & _).
  cbn in Hsum, Hfail. lia.
Qed.

(** X12. [processWallets] throws exactly when it is called off PAWS with a
    [null] version: the [TypeError] of [version.toUpperCase()], after the
    first line of the banner and before any account, in the world it started
    from. In every other case it returns. *)
Theorem processWallets_throws_only_without_version
    (action : string) (queryIds : list string) (walletData : list WalletData)
    (version : option string) (platform : string) (w : World) :
  post (processWallets action queryIds walletData version platform) w
       (fun r w' t =>
          match r with
          | Normal _ => platform = "paws" \/ version <> None
          | Throw message =>
              platform <> "paws" /\ version = None /\
              message = typeError "null" "toUpperCase" /\
              t = [Console (LBlankRule 90)] /\ w' = w
          | Continue => False
          end).
Proof.
  eapply post_mono; [apply processWallets_shape |].
  intros r w' t [(Hp & Hv & -> & -> & ->) | (H & result & rounds & -> & _)]; auto.
Qed.

(** X13. A run over [n] query ids sets at most [n - 1] timers. A round sets
    at most one, only when its account is not the last, and the timer is
    then the last event of the round. *)
Theorem at_most_one_timer_between_accounts
    (action : string) (queryIds : list string) (walletData : list WalletData)
    (version : option string) (platform : string) (w : World) :
  post (processWallets action queryIds walletData version platform) w
       (fun _ _ t => length (filter isSetTimeout t) <= length queryIds - 1)
  /\
  forall (i : nat) (vars : Vars Num),
    post (processAccount action queryIds walletData version platform i) (vars, w)
         (fun _ _ t =>
            length (filter isSetTimeout t) <= 1 /\
            (existsb isSetTimeout t = true ->
             S i < length queryIds /\ exists ms t0, t = t0 ++ [SetTimeout i ms])).
Proof.
  split.
  - eapply post_mono; [apply processWallets_shape |].
    intros r w' t [(_ & _ & _ & _ & ->) | (_ & result & rounds & _ & -> & _ & Hfacts)];
      [cbn; lia |].
    rewrite filter_run by (intros [[] | | | | | | | | |]; cbn; congruence).
    apply Hfacts.
  - intros i vars.
    eapply post_mono; [apply processAccount_facts |].
    intros r s' t (_ & _ & _ & _ & Hn & Hlast & _).
    destruct (Nat.ltb_spec (S i) (length queryIds)) as [Hlt | Hge].
    + split; [exact Hn |]. intros Ht. split; [exact Hlt | exact (Hlast Ht)].
    + split; [lia |]. intros Ht. exfalso.
      assert (Hnil : filter isSetTimeout t = []) by (apply length_zero_iff_nil; lia).
      apply existsb_exists in Ht. destruct Ht as (e & Hin & He).
      assert (Hin' : In e (filter isSetTimeout t)) by (apply filter_In; auto).
      rewrite Hnil in Hin'. contradiction.
Qed.


(** X15. A query id without a wallet entry, at an index beyond the wallet
    list, costs one failure and no service call: the round writes its two
    heading lines and the error line with the message of the [TypeError],
    wrapped by [processWalletData] off PAWS, raises the failure count and
    changes nothing else. *)
Theorem account_without_entry_fails
    (action : string) (queryIds : list string) (walletData : list WalletData)
    (version : option string) (platform : string) (i : nat) (vars : Vars Num) (w : World) :
  nth_error walletData i = None ->
  processAccount action queryIds walletData version platform i (vars, w) =
    (Normal tt,
     ({| totalBalance := totalBalance vars;
         successCount := successCount vars;
         failCount := S (failCount vars) |}, w),
     [Console (LProcessing i (length queryIds)); Console (LDashes 30);
      Console (LAccountError i (missingEntry platform))]).
Proof.
  intros Hnone.
  unfold processAccount, prepare, missingEntry.
  destruct (platform =? "paws")%string.
  - unfold tryCatch, bind at 1 2 3 4. rewrite Hnone. reflexivity.
  - unfold tryCatch, bind at 1 2 3 4. rewrite Hnone. reflexivity.
Qed.

(** X16. What a run shows of a wallet. A seed line holds at most 20 code
    units, the first 20 of the seed phrase of its account, and is written
    only off PAWS and not when disconnecting. An address line holds the
    address of the wallet that the service of the account was initialised
    with. *)
Theorem wallet_lines_show_prefix_and_address
    (action : string) (queryIds : list string) (walletData : list WalletData)
    (version : option string) (platform : string) (w : World) :
  post (processWallets action queryIds walletData version platform) w
       (fun _ _ t =>
          (forall j shown, In (Console (LSeed j shown)) t ->
             String.length shown <= 20 /\ platform <> "paws" /\ action <> "2" /\
             exists entry phrase,
               nth_error walletData j = Some entry /\ mnemonic entry = Some phrase /\
               shown = substring 0 20 phrase) /\
          (forall j a, In (Console (LAddress j a)) t ->
             exists service token wallet o,
               In (Init j service token wallet o) t /\ address wallet = a)).
Proof.
  assert (Hlen : forall n s, String.length (substring 0 n s) <= n).
  { induction n as [| n IH]; intros [| c s]; cbn; try lia. specialize (IH s). lia. }
  eapply post_mono; [apply processWallets_traceFacts |].
  intros r w' t (_ & Ha & _ & _ & _ & Hs & Hd & _).
  rewrite Forall_forall in Ha, Hs.
  split; [| exact Hd].
  intros j shown Hin. pose proof (Ha _ Hin) as Ha'. pose proof (Hs _ Hin) as Hs'.
  cbn in Ha', Hs'. destruct Hs' as (entry & phrase & He & Hp & ->).
  split; [apply Hlen |]. split; [tauto |]. split; [tauto |]. eauto.
Qed.

(** X17. The summary shows what is returned. A run that returns ends with
    the line of the returned success and failure counts and a rule; every
    summary line of the trace shows these counts; and the total balance line
    is written exactly for action 1 on Blum, with the returned balance. *)
Theorem summary_shows_what_is_returned
    (action : string) (queryIds : list string) (walletData : list WalletData)
    (version : option string) (platform : string) (w : World) :
  post (processWallets action queryIds walletData version platform) w
       (fun r _ t =>
          forall result, r = Normal result ->
            (exists before,
                t = before ++ [Console (LSummary (successCount result) (failCount result));
                               Console (LRule 50)]) /\
            (forall s f, In (Console (LSummary s f)) t ->
               s = successCount result /\ f = failCount result) /\
            (forall b, In (Console (LTotalBalance b)) t <->
               action = "1" /\ platform = "blum" /\ b = totalBalance result)).
Proof.
  eapply post_mono; [apply processWallets_shape |].
  intros r w' t [(_ & _ & -> & _) | (_ & result & rounds & -> & -> & _ & Hfacts)];
    intros result' Hr; [discriminate Hr |].
  injection Hr as <-.
  destruct Hfacts as (_ & Hframe & _). rewrite Forall_forall in Hframe.
  assert (Hrounds : forall e, isFrame e = true -> ~ In e rounds).
  { intros e He Hin. specialize (Hframe e Hin). cbn in Hframe. congruence. }
  unfold banner, footer.
  split; [| split].
  - exists ([Console (LBlankRule 90);
             Console (LHeader action (if (platform =? "paws")%string then None else version)
                        platform);
             Console (LRuleBlank 90)] ++ rounds ++
            Console (LBlankRule 50) ::
            (if ((action =? "1") && (platform =? "blum"))%string
             then [Console (LTotalBalance (totalBalance result))] else [])).
    cbn [app]. rewrite <- app_assoc. reflexivity.
  - intros s f Hin.
    apply in_app_or in Hin. destruct Hin as [Hin | Hin]; [in_cases Hin |].
    apply in_app_or in Hin. destruct Hin as [Hin | Hin];
      [exfalso; eapply Hrounds; [| exact Hin]; reflexivity |].
    destruct ((action =? "1") && (platform =? "blum"))%string; in_cases Hin;
      injection Hin as <- <-; auto.
  - intros b. split.
    + intros Hin.
      apply in_app_or in Hin. destruct Hin as [Hin | Hin]; [in_cases Hin |].
      apply in_app_or in Hin. destruct Hin as [Hin | Hin];
        [exfalso; eapply Hrounds; [| exact Hin]; reflexivity |].
      destruct (String.eqb_spec action "1"), (String.eqb_spec platform "blum");
        in_cases Hin; injection Hin as <-; auto.
    + intros (-> & -> & ->). apply in_or_app. right. apply in_or_app. right.
      cbn. auto.
Qed.

(** X18. A "Detailed error:" line in a run of [processWallets] means a bad
    version: the line is written off PAWS only, and then the version is
    [null] or is not one of the three supported ones. *)
Theorem detailed_error_means_bad_version
    (action : string) (queryIds : list string) (walletData : list WalletData)
    (version : option string) (platform : string) (w : World) :
  post (processWallets action queryIds walletData version platform) w
       (fun _ _ t =>
          forall message, In (Console (LDetailedError message)) t ->
            platform <> "paws" /\
            ((version = None /\ message = typeError "null" "toLowerCase") \/
             (exists v, version = Some v /\ ~ supportedVersion v /\
                        message = "Unsupported wallet version"))).
Proof.
  eapply post_mono; [apply processWallets_traceFacts |].
  intros r w' t (_ & _ & _ & _ & _ & _ & _ & _ & H). rewrite Forall_forall in H.
  intros message Hin. exact (H _ Hin).
Qed.

End MoreClaims.

(** ** The session *)

Ltac shape platform version setup rest :=
  split; [reflexivity |];
  exists platform, version, setup, rest;
  split; [repeat (first [progress cbn [app] | rewrite <- app_assoc]); reflexivity |];
  split; [cbn [app map]; repeat constructor |];
  split; [rewrite ?in_app_iff; cbn; tauto |];
  split; [assumption |];
  split;
    [first [ left; split; [assumption | reflexivity]
           | right; split; [assumption |]; eexists; split; [reflexivity |];
             split; [tauto | rewrite ?in_app_iff; cbn; tauto] ] |];
  first [ left; eexists; reflexivity
        | right; eexists _, _; split; [reflexivity | assumption] ].

Section MainProofs.

Context {Num World : Type} {ton : Ton} {numbers : Numbers Num}
        {env : Environment World}.


(** What [selectPlatform] returns for an answer. *)
Lemma selectPlatform_answer (w : World) :
  exists p : string,
    selectPlatform (Num := Num) w =
      (Normal p, snd (env_question platformPrompt w),
       [Console (LBlankRule 50); Console (LTitle "Select Platform");
        Console (LRule 50);
        Question platformPrompt (fst (env_question platformPrompt w))]) /\
    let answer := fst (env_question platformPrompt w) in
    ((answer = "2" /\ p = "yescoin") \/ (answer = "3" /\ p = "tsubasa") \/
     (answer = "4" /\ p = "paws") \/
     (answer <> "2" /\ answer <> "3" /\ answer <> "4" /\ p = "blum"))%string.
Proof.
  unfold selectPlatform, bind, console, emit, askQuestion.
  destruct (env_question platformPrompt w) as [answer w']. cbn -[platformPrompt].
  destruct (String.eqb_spec answer "2");
    [eexists; split; [reflexivity | auto] |].
  destruct (String.eqb_spec answer "3");
    [eexists; split; [reflexivity | auto] |].
  destruct (String.eqb_spec answer "4");
    [eexists; split; [reflexivity | auto] |].
  eexists; split; [reflexivity | auto 10].
Qed.

Lemma mainMenu_answer (w : World) :
  mainMenu (Num := Num) w =
    (Normal (fst (env_question menuPrompt w)), snd (env_question menuPrompt w),
     [Console (LBlankRule 50); Console (LTitle "Main Menu"); Console (LRule 50);
      Question menuPrompt (fst (env_question menuPrompt w))]).
Proof.
  unfold mainMenu, bind, console, emit, askQuestion.
  destruct (env_question menuPrompt w) as [answer w']. reflexivity.
Qed.

(** [loadData], case by case. *)
Lemma loadData_cases (platform : string) (w : World) :
  loadData (Num := Num) platform w =
    match env_readFileSync (firstFile platform) w with
    | Throws message => (Normal None, w, [Console (LErrorLoading message)])
    | Returns first =>
        match env_readFileSync "query.txt" w with
        | Throws message => (Normal None, w, [Console (LErrorLoading message)])
        | Returns queries =>
            if length (lines first) =? length (lines queries) then
              (Normal (Some {| walletData := map (entryOf platform) (lines first);
                               queryIds := lines queries |}), w,
               [Console (LLoaded (length (lines first)))])
            else
              (Normal None, w,
               [Console (LErrorLoading
                           (mismatch (if (platform =? "paws")%string
                                      then "wallets" else "seeds")
                                     (length (lines first)) (length (lines queries))))])
        end
    end.
Proof.
  unfold loadData, firstFile, entryOf, tryCatch, bind, readFileSync, when.
  destruct (platform =? "paws")%string.
  - destruct (env_readFileSync "wallet.txt" w) as [first | message]; [| reflexivity].
    destruct (env_readFileSync "query.txt" w) as [queries | message]; [| reflexivity].
    destruct (length (lines first) =? length (lines queries)); reflexivity.
  - destruct (env_readFileSync "seed.txt" w) as [first | message]; [| reflexivity].
    destruct (env_readFileSync "query.txt" w) as [queries | message]; [| reflexivity].
    destruct (length (lines first) =? length (lines queries)); reflexivity.
Qed.

(** [loadData] ends normally, in the world it started from, with one line
    on the console. *)
Lemma loadData_ends (platform : string) (w : World) :
  (exists message,
      loadData (Num := Num) platform w = (Normal None, w, [Console (LErrorLoading message)])) \/
  (exists data,
      loadData (Num := Num) platform w =
        (Normal (Some data), w, [Console (LLoaded (length (walletData data)))]) /\
      length (walletData data) = length (queryIds data) /\
      exists first, walletData data = map (entryOf platform) (lines first)).
Proof.
  rewrite loadData_cases.
  destruct (env_readFileSync (firstFile platform) w) as [first | message]; [| eauto].
  destruct (env_readFileSync "query.txt" w) as [queries | message]; [| eauto].
  destruct (Nat.eqb_spec (length (lines first)) (length (lines queries))); [| eauto].
  right. exists {| walletData := map (entryOf platform) (lines first);
                   queryIds := lines queries |}.
  cbn. rewrite length_map. split; [reflexivity |]. split; [assumption |].
  eauto.
Qed.

Lemma sessionEvent_inner (version : option string) (platform : string)
    (t : list (Event Num)) :
  Forall (fun e => match e with
                   | Console (LHeader _ _ _) | Console (LDetailedError _) => False
                   | _ => True
                   end) t ->
  Forall (sessionEvent version platform) (map Inner t).
Proof.
  intros H. apply Forall_map. eapply Forall_impl; [| exact H].
  intros [[] | | | | | | | | |]; cbn; tauto.
Qed.

(** A batch started from the menu returns, and its events are those of a
    session. *)
Lemma processWallets_session (action : string) (queryIds : list string)
    (walletData : list WalletData) (version : option string) (platform : string)
    (w : World) :
  includes ["1"; "2"; "3"] action = true ->
  platform = "paws" \/ version <> None ->
  post (processWallets action queryIds walletData version platform) w
       (fun r _ t =>
          (exists result, r = Normal result) /\
          Forall (sessionEvent version platform) (map Inner t)).
Proof.
  intros Haction Hversion.
  eapply post_mono; [apply processWallets_shape |].
  intros r w' t [(Hp & Hv & _) | (_ & result & rounds & -> & -> & _ & Hfacts)];
    [exfalso; tauto |].
  split; [eauto |].
  destruct Hfacts as ((_ & _ & _ & _ & _ & _ & _ & _ & Hd) & Hframe & _).
  rewrite !map_app. apply Forall_app. split; [| apply Forall_app; split].
  - unfold banner. cbn. repeat constructor; cbn; auto.
  - apply Forall_map. rewrite Forall_forall in *. intros e Hin.
    specialize (Hd e Hin). specialize (Hframe e Hin).
    destruct e as [[] | | | | | | | | |]; cbn in *; try exact I; try discriminate.
    exact Hd.
  - apply sessionEvent_inner. unfold footer.
    destruct (_ && _); repeat constructor.
Qed.

(** When the menu loop ends, it ends normally, on the goodbye line. *)
Lemma menuLoop_ends (rounds : nat) (data : Loaded) (version : option string)
    (platform : string) :
  platform = "paws" \/ version <> None ->
  forall (w w' : World) (r : Completion unit) (t : list (MainEvent Num)),
    menuLoop rounds data version platform w = Some (r, w', t) ->
    r = Normal tt /\
    exists t0 : list (MainEvent Num),
      t = t0 ++ [Say LGoodbye] /\ Forall (sessionEvent version platform) t0.
Proof.
  intros Hversion. induction rounds as [| rounds IH]; intros w w' r t H; [discriminate H |].
  cbn [menuLoop] in H. unfold pbind at 1, run at 1 in H.
  rewrite mainMenu_answer in H.
  set (action := fst (env_question menuPrompt w)) in *.
  set (w1 := snd (env_question menuPrompt w)) in *.
  set (tm := map Inner [Console (LBlankRule 50); Console (LTitle "Main Menu");
                        Console (LRule 50); Question menuPrompt action]) in *.
  assert (Hmenu : Forall (sessionEvent (Num := Num) version platform) tm).
  { repeat constructor. }
  clearbody tm.
  cbv beta iota zeta in H.
  destruct (String.eqb_spec action "0") as [H0 | H0].
  - unfold say in H. injection H as <- <- <-. split; [reflexivity |].
    exists tm. split; [reflexivity | exact Hmenu].
  - destruct (includes ["1"; "2"; "3"] action) eqn:Hinc.
    + unfold pbind at 1, run at 1 in H.
      pose proof (processWallets_session action (queryIds data) (walletData data)
                    version platform w1 Hinc Hversion) as Hpw.
      unfold post in Hpw.
      destruct (processWallets action (queryIds data) (walletData data) version platform w1)
        as [[r2 w2] t2].
      destruct Hpw as ((result & ->) & Ht2).
      unfold pbind at 1, run at 1, askQuestion in H.
      destruct (env_question postActionPrompt w2) as [postAction w3].
      set (tq := map Inner [Question postActionPrompt postAction]) in *.
      assert (Hpost : Forall (sessionEvent (Num := Num) version platform) tq).
      { repeat constructor. }
      clearbody tq.
      cbv beta iota zeta in H.
      destruct (String.eqb_spec postAction "2") as [H2 | H2].
      * unfold say in H. injection H as <- <- <-.
        split; [reflexivity |].
        exists (tm ++ map Inner t2 ++ tq). split; [rewrite <- !app_assoc; reflexivity |].
        repeat (apply Forall_app; split); assumption.
      * destruct (menuLoop rounds data version platform w3) as [[[r4 w4] t4] |] eqn:Hloop;
          [| discriminate H].
        destruct (IH _ _ _ _ Hloop) as (-> & t0 & -> & Ht0).
        injection H as <- <- <-.
        split; [reflexivity |].
        exists (tm ++ map Inner t2 ++ tq ++ t0).
        split; [rewrite <- !app_assoc; reflexivity |].
        repeat (apply Forall_app; split); assumption.
    + unfold pbind at 1, say at 1 in H.
      destruct (menuLoop rounds data version platform w1) as [[[r4 w4] t4] |] eqn:Hloop;
        [| discriminate H].
      destruct (IH _ _ _ _ Hloop) as (-> & t0 & -> & Ht0).
      injection H as <- <- <-.
      split; [reflexivity |].
      exists (tm ++ [Say LInvalidOption] ++ t0).
      split; [rewrite <- !app_assoc; reflexivity |].
      repeat (apply Forall_app; split); try assumption. repeat constructor.
Qed.

Abbreviation Ends A :=
  (Completion A -> World -> list (MainEvent Num) -> Prop) (only parsing).

Lemma ends_pret {A} (a : A) (w : World) (Q : Ends A) :
  Q (Normal a) w [] -> ends (pret a) w Q.
Proof. exact (fun H => H). Qed.

Lemma ends_pthrow {A} (message : string) (w : World) (Q : Ends A) :
  Q (Throw message) w [] -> ends (pthrow message) w Q.
Proof. exact (fun H => H). Qed.

Lemma ends_say (line : MainLine) (w : World) (Q : Ends unit) :
  Q (Normal tt) w [Say line] -> ends (say line) w Q.
Proof. exact (fun H => H). Qed.

Lemma ends_close (w : World) (Q : Ends unit) :
  Q (Normal tt) w [Close] -> ends close w Q.
Proof. exact (fun H => H). Qed.

Lemma ends_run {A} (m : M Num World A) (w : World) (Q : Ends A) :
  post m w (fun r w' t => Q r w' (map Inner t)) -> ends (run m) w Q.
Proof. unfold post, ends, run. destruct (m w) as [[r w'] t]. auto. Qed.

Lemma ends_pbind {A B} (m : Prog Num World A) (k : A -> Prog Num World B) (w : World)
    (Q : Ends B) :
  ends m w (fun r w1 t1 =>
              match r with
              | Normal a => ends (k a) w1 (fun r' w2 t2 => Q r' w2 (t1 ++ t2))
              | Throw e => Q (Throw e) w1 t1
              | Continue => Q Continue w1 t1
              end) ->
  ends (pbind m k) w Q.
Proof.
  unfold ends, pbind. destruct (m w) as [[[[a | e |] w1] t1] |]; auto.
  destruct (k a w1) as [[[r w2] t2] |]; auto.
Qed.

Lemma ends_ptryCatch {A} (m : Prog Num World A) (h : string -> Prog Num World A)
    (w : World) (Q : Ends A) :
  ends m w (fun r w1 t1 =>
              match r with
              | Normal a => Q (Normal a) w1 t1
              | Throw e => ends (h e) w1 (fun r' w2 t2 => Q r' w2 (t1 ++ t2))
              | Continue => Q Continue w1 t1
              end) ->
  ends (ptryCatch m h) w Q.
Proof.
  unfold ends, ptryCatch. destruct (m w) as [[[[a | e |] w1] t1] |]; auto.
  destruct (h e w1) as [[[r w2] t2] |]; auto.
Qed.

Lemma ends_pfinally {A} (m : Prog Num World A) (f : Prog Num World unit)
    (w : World) (Q : Ends A) :
  ends m w (fun r w1 t1 =>
              ends f w1 (fun r' w2 t2 =>
                           match r' with
                           | Normal _ => Q r w2 (t1 ++ t2)
                           | Throw e => Q (Throw e) w2 (t1 ++ t2)
                           | Continue => Q Continue w2 (t1 ++ t2)
                           end)) ->
  ends (pfinally m f) w Q.
Proof.
  unfold ends, pfinally. destruct (m w) as [[[r w1] t1] |]; auto.
  destruct (f w1) as [[[[[] | e |] w2] t2] |]; auto.
Qed.

Lemma ends_mono {A} (m : Prog Num World A) (w : World) (Q Q' : Ends A) :
  ends m w Q -> (forall r w' t, Q r w' t -> Q' r w' t) -> ends m w Q'.
Proof. unfold ends. destruct (m w) as [[[r w'] t] |]; auto. Qed.

(** Loading and the menu loop: the run ends by the throw of line 361 or
    on the goodbye line. *)
Lemma loading_and_menu (rounds : nat) (platform : string) (version : option string)
    (w : World) :
  platform = "paws" \/ version <> None ->
  ends (pbind (run (loadData platform)) (fun data =>
        pbind (match data with
               | Some data => pret data
               | None => pthrow "Failed to load data"
               end) (fun data =>
        pbind (run (console (LLoaded (length (walletData data))))) (fun _ =>
        menuLoop rounds data version platform)))) w
       (fun r _ t =>
          (exists message,
              r = Throw "Failed to load data" /\
              t = [Inner (Console (LErrorLoading message))]) \/
          (r = Normal tt /\
           exists (n : nat) (session : list (MainEvent Num)),
             t = Inner (Console (LLoaded n)) :: Inner (Console (LLoaded n)) ::
                 session ++ [Say LGoodbye] /\
             Forall (sessionEvent version platform) session)).
Proof.
  intros Hversion.
  apply ends_pbind, ends_run. unfold post.
  destruct (loadData_ends platform w) as [(message & ->) | (data & -> & _)].
  - apply ends_pbind, ends_pthrow. left. exists message. split; reflexivity.
  - apply ends_pbind, ends_pret. apply ends_pbind, ends_run.
    unfold console. apply post_emit.
    unfold ends.
    destruct (menuLoop rounds data version platform w) as [[[r w'] t] |] eqn:Hloop;
      [| exact I].
    destruct (menuLoop_ends rounds data version platform Hversion _ _ _ _ Hloop)
      as (-> & session & -> & Hsession).
    right. split; [reflexivity |]. exists (length (walletData data)), session.
    split; [reflexivity | exact Hsession].
Qed.

Lemma main_shape (rounds : nat) (w : World) :
  ends (main rounds) w (fun r _ t => mainShape r t).
Proof.
  unfold main.
  apply ends_pfinally, ends_ptryCatch, ends_pbind, ends_run. unfold post.
  destruct (selectPlatform_answer w) as (platform & -> & Hplatform).
  assert (Hfour : platform = "yescoin" \/ platform = "tsubasa" \/ platform = "paws" \/
                  platform = "blum") by (cbv zeta in Hplatform; tauto).
  clear Hplatform.
  set (w1 := snd (env_question platformPrompt w)).
  set (t1 := [Console (LBlankRule 50); Console (LTitle "Select Platform");
              Console (LRule 50);
              Question platformPrompt (fst (env_question platformPrompt w))]).
  apply ends_pbind, ends_say. apply ends_pbind.
  destruct (String.eqb_spec platform "paws") as [Hp | Hp].
  - apply ends_pret. apply ends_pbind, ends_pret.
    eapply ends_mono; [apply loading_and_menu; auto |].
    intros r w' t [(message & -> & ->) | (-> & n & session & -> & Hsession)].
    + apply ends_say, ends_close.
      shape platform (@None string)
            (map Inner t1 ++ [Say (LSelectedPlatform platform)])
            [Inner (Console (LErrorLoading message));
             Say (Num := Num) (LMainError "Failed to load data")].
    + apply ends_close.
      shape platform (@None string)
            (map Inner t1 ++ [Say (LSelectedPlatform platform)])
            (Inner (Console (LLoaded n)) :: Inner (Console (LLoaded n)) ::
             session ++ [Say LGoodbye]).
  - apply ends_pbind, ends_run. unfold post.
    destruct (selectWalletVersion_answer (Num := Num) w1) as (v & -> & Hthree).
    assert (H3 : v = "v3r2" \/ v = "v4" \/ v = "v5") by (cbv zeta in Hthree; tauto).
    clear Hthree.
    set (t2 := [Console (LBlankRule 50); Console (LTitle "Select Wallet Version");
                Console (LRule 50);
                Question versionPrompt (fst (env_question versionPrompt w1))]).
    apply ends_pret. apply ends_pbind.
    assert (Ht : JSString.truthy v = true) by (destruct H3 as [-> | [-> | ->]]; reflexivity).
    rewrite Ht. apply ends_say.
    eapply ends_mono; [apply loading_and_menu; right; discriminate |].
    intros r w' t [(message & -> & ->) | (-> & n & session & -> & Hsession)].
    + apply ends_say, ends_close.
      shape platform (Some v)
            (map Inner t1 ++ [Say (LSelectedPlatform platform)] ++ map Inner t2 ++
             [Say (LSelectedVersion v)])
            [Inner (Console (LErrorLoading message));
             Say (Num := Num) (LMainError "Failed to load data")].
    + apply ends_close.
      shape platform (Some v)
            (map Inner t1 ++ [Say (LSelectedPlatform platform)] ++ map Inner t2 ++
             [Say (LSelectedVersion v)])
            (Inner (Console (LLoaded n)) :: Inner (Console (LLoaded n)) ::
             session ++ [Say LGoodbye]).
Qed.

Lemma setupEvent_not (t : list (MainEvent Num)) (e : MainEvent Num) :
  Forall setupEvent t -> In e t -> setupEvent e.
Proof. intros H. rewrite Forall_forall in H. apply H. Qed.

Lemma sessionEvent_not (version : option string) (platform : string)
    (t : list (MainEvent Num)) (e : MainEvent Num) :
  Forall (sessionEvent version platform) t -> In e t -> sessionEvent version platform e.
Proof. intros H. rewrite Forall_forall in H. apply H. Qed.

(** X19. A run of [main] that ends, ends normally: no error leaves it. Its
    last event is the closing of the terminal, which happens once. Before it
    comes the goodbye line or, when loading failed, the error line of the
    loader and "Error: Failed to load data", after nothing but the
    selections. [main] writes no other error line. *)
Theorem main_ends_by_closing_the_terminal
    (rounds : nat) (w w' : World) (r : Completion unit) (t : list (MainEvent Num)) :
  main rounds w = Some (r, w', t) ->
  r = Normal tt /\
  (exists before : list (MainEvent Num),
      t = before ++ [Close] /\ ~ In Close before /\
      ((exists session, before = session ++ [Say LGoodbye]) \/
       (exists setup message,
           before = setup ++ [Inner (Console (LErrorLoading message));
                              Say (LMainError "Failed to load data")] /\
           Forall setupEvent setup))) /\
  (forall message, In (Say (LMainError message)) t -> message = "Failed to load data").
Proof.
  intros H. pose proof (main_shape rounds w) as Hs. unfold ends in Hs. rewrite H in Hs.
  destruct Hs as (-> & platform & version & setup & rest & -> & Hsetup & _ & _ & _ & Hrest).
  split; [reflexivity |].
  destruct Hrest as [(message & ->) | (n & session & -> & Hsession)].
  - split.
    + exists (setup ++ [Inner (Console (LErrorLoading message));
                        Say (LMainError "Failed to load data")]).
      split; [rewrite <- app_assoc; reflexivity |]. split.
      * intros Hin. apply in_app_or in Hin. destruct Hin as [Hin | Hin].
        -- exact (setupEvent_not _ _ Hsetup Hin).
        -- in_cases Hin.
      * right. eauto.
    + intros m Hin. apply in_app_or in Hin. destruct Hin as [Hin | Hin].
      * destruct (setupEvent_not _ _ Hsetup Hin).
      * in_cases Hin. injection Hin as <-. reflexivity.
  - split.
    + exists (setup ++ Inner (Console (LLoaded n)) :: Inner (Console (LLoaded n)) ::
                       session ++ [Say LGoodbye]).
      split; [rewrite <- app_assoc; reflexivity |]. split.
      * intros Hin. apply in_app_or in Hin. destruct Hin as [Hin | Hin].
        -- exact (setupEvent_not _ _ Hsetup Hin).
        -- destruct Hin as [Hin | [Hin | Hin]]; try discriminate Hin.
           apply in_app_or in Hin. destruct Hin as [Hin | Hin].
           ++ exact (sessionEvent_not _ _ _ _ Hsession Hin).
           ++ in_cases Hin.
      * left. eexists (setup ++ _ :: _ :: session).
        rewrite <- app_assoc. reflexivity.
    + intros m Hin. apply in_app_or in Hin. destruct Hin as [Hin | Hin].
      * destruct (setupEvent_not _ _ Hsetup Hin).
      * apply in_app_or in Hin. destruct Hin as [Hin | Hin]; [| in_cases Hin].
        destruct Hin as [Hin | [Hin | Hin]]; try discriminate Hin.
        apply in_app_or in Hin. destruct Hin as [Hin | Hin].
        -- destruct (sessionEvent_not _ _ _ _ Hsession Hin).
        -- in_cases Hin.
Qed.

(** X20. A session has one platform and one version. The platform shown
    after the selection is one of the four; the version is none on PAWS and
    one of v3r2, v4 and v5 elsewhere; every batch of the session is run for
    action 1, 2 or 3 with this platform and this version; and no "Detailed
    error:" line is written in the session. *)
Theorem main_keeps_platform_and_version
    (rounds : nat) (w w' : World) (r : Completion unit) (t : list (MainEvent Num)) :
  main rounds w = Some (r, w', t) ->
  exists (platform : string) (version : option string),
    In (Say (LSelectedPlatform platform)) t /\
    (platform = "yescoin" \/ platform = "tsubasa" \/ platform = "paws" \/
     platform = "blum") /\
    ((platform = "paws" /\ version = None) \/
     (platform <> "paws" /\
      exists v, version = Some v /\ (v = "v3r2" \/ v = "v4" \/ v = "v5") /\
                In (Say (LSelectedVersion v)) t)) /\
    (forall act shown p,
        In (Inner (Console (LHeader act shown p))) t ->
        (act = "1" \/ act = "2" \/ act = "3") /\ p = platform /\ shown = version) /\
    (forall message, ~ In (Inner (Console (LDetailedError message))) t).
Proof.
  intros H. pose proof (main_shape rounds w) as Hs. unfold ends in Hs. rewrite H in Hs.
  destruct Hs as (-> & platform & version & setup & rest & -> & Hsetup & Hp & Hfour &
                  Hversion & Hrest).
  exists platform, version.
  split; [apply in_or_app; auto |]. split; [exact Hfour |].
  split.
  { destruct Hversion as [? | (Hne & v & Hv & H3 & Hin)]; [left; assumption |].
    right. split; [exact Hne |]. exists v. repeat split; auto. apply in_or_app; auto. }
  assert (Hsession : forall e : Event Num,
             In (Inner e) (setup ++ rest ++ [Close]) ->
             setupEvent (Inner e) \/ sessionEvent version platform (Inner e)).
  { intros e Hin. apply in_app_or in Hin. destruct Hin as [Hin | Hin].
    - left. exact (setupEvent_not _ _ Hsetup Hin).
    - apply in_app_or in Hin. destruct Hin as [Hin | Hin]; [| in_cases Hin].
      destruct Hrest as [(message & ->) | (n & session & -> & Hsession)].
      + in_cases Hin. injection Hin as <-. left. exact I.
      + destruct Hin as [Hin | [Hin | Hin]];
          [injection Hin as <-; left; exact I | injection Hin as <-; left; exact I |].
        apply in_app_or in Hin. destruct Hin as [Hin | Hin]; [| in_cases Hin].
        right. exact (sessionEvent_not _ _ _ _ Hsession Hin). }
  split.
  - intros act shown p Hin. destruct (Hsession _ Hin) as [[] | (Hact & -> & ->)].
    split; [| split; [reflexivity |]].
    + unfold includes in Hact. cbn in Hact.
      destruct (String.eqb_spec act "1"); [auto |].
      destruct (String.eqb_spec act "2"); [auto |].
      destruct (String.eqb_spec act "3"); [auto | discriminate Hact].
    + destruct Hversion as [(-> & ->) | (Hne & _)]; [reflexivity |].
      apply String.eqb_neq in Hne. rewrite Hne. reflexivity.
  - intros message Hin. destruct (Hsession _ Hin) as [[] | (Hne & Hfail)].
    destruct Hversion as [(-> & _) | (_ & v & -> & H3 & _)]; [congruence |].
    destruct Hfail as [(Hnone & _) | (v' & Hv' & Hbad & _)]; [discriminate Hnone |].
    injection Hv' as <-. apply Hbad.
    unfold supportedVersion. destruct H3 as [-> | [-> | ->]]; cbn; auto.
Qed.

(** X21.  When [loadData] returns [null] for the platform that was
    selected, in the world after the selections (the question of the
    platform and, off PAWS, the one of the version), [main] ends whatever
    number of rounds the menu loop is allowed, even none: after the
    selections it writes the error line of the loader and "Error: Failed to
    load data", closes the terminal and returns.  The menu is not shown. *)
Theorem main_ends_when_loading_fails
    (rounds : nat) (platform : string) (w w1 w2 w3 : World)
    (t1 t3 : list (Event Num)) :
  selectPlatform w = (Normal platform, w1, t1) ->
  w2 = (if (platform =? "paws")%string then w1
        else snd (env_question versionPrompt w1)) ->
  loadData platform w2 = (Normal None, w3, t3) ->
  exists (setup : list (MainEvent Num)) (message : string),
    t3 = [Console (LErrorLoading message)] /\
    w3 = w2 /\
    main rounds w =
      Some (Normal tt, w2,
            setup ++ [Inner (Console (LErrorLoading message));
                      Say (LMainError "Failed to load data"); Close]) /\
    Forall setupEvent setup.
Proof.
  intros Hsel Hw2 Hload.
  destruct (loadData_ends platform w2)
    as [(message & Hm) | (data & Hd & _)];
    [| rewrite Hd in Hload; discriminate Hload].
  rewrite Hm in Hload. injection Hload as <- <-.
  assert (Ht1 : Forall (setupEvent (Num := Num)) (map Inner t1)).
  { destruct (selectPlatform_answer w) as (p & Hp & _).
    rewrite Hp in Hsel. injection Hsel as _ _ <-. repeat constructor. }
  unfold main, pfinally, ptryCatch.
  unfold pbind at 1, run at 1. rewrite Hsel. cbv beta iota zeta.
  unfold pbind at 1, say at 1. cbv beta iota zeta.
  unfold pbind at 1.
  destruct (String.eqb_spec platform "paws") as [Hp | Hp].
  - subst w2. unfold pret at 1. cbv beta iota zeta.
    unfold pbind at 1, pret at 1. cbv beta iota zeta.
    unfold pbind at 1, run at 1. rewrite Hm.
    cbv beta iota zeta. unfold pbind at 1, pthrow at 1. cbv beta iota zeta.
    unfold say, close. cbv beta iota zeta.
    exists (map Inner t1 ++ [Say (LSelectedPlatform platform)]), message.
    split; [reflexivity |]. split; [reflexivity |]. split.
    + cbn [app map]. rewrite <- !app_assoc. reflexivity.
    + apply Forall_app. split; [exact Ht1 | repeat constructor].
  - destruct (selectWalletVersion_answer (Num := Num) w1) as (v & Hv & Hthree).
    assert (Ht : JSString.truthy v = true).
    { cbv zeta in Hthree.
      destruct Hthree as [[_ ->] | [[_ ->] | [[_ ->] | (_ & _ & _ & ->)]]]; reflexivity. }
    subst w2.
    unfold pbind at 1, run at 1. rewrite Hv. cbv beta iota zeta.
    unfold pret at 1. cbv beta iota zeta.
    unfold pbind at 1. rewrite Ht. unfold say at 1. cbv beta iota zeta.
    unfold pbind at 1, run at 1. rewrite Hm.
    cbv beta iota zeta. unfold pbind at 1, pthrow at 1. cbv beta iota zeta.
    unfold say, close. cbv beta iota zeta.
    exists (map Inner t1 ++ [Say (LSelectedPlatform platform)] ++
            map Inner [Console (LBlankRule 50); Console (LTitle "Select Wallet Version");
                       Console (LRule 50);
                       Question versionPrompt (fst (env_question versionPrompt w1))] ++
            [Say (LSelectedVersion v)]), message.
    split; [reflexivity |]. split; [reflexivity |]. split.
    + cbn [app map]. rewrite <- !app_assoc. reflexivity.
    + apply Forall_app. split; [exact Ht1 | repeat constructor].
Qed.

End MainProofs.

(** ** Loading, and the platform menu *)

Section LoadingMore.

Context {Num World : Type} {ton : Ton} {numbers : Numbers Num}
        {env : Environment World}.

Lemma split_allWhiteSpace (sep : ascii) (s : string) :
  allWhiteSpace s = true ->
  Forall (fun piece => allWhiteSpace piece = true) (JSString.split sep s).
Proof.
  induction s as [| c s IH]; [repeat constructor |].
  cbn. intros H. apply andb_prop in H. destruct H as [Hc Hs]. specialize (IH Hs).
  destruct (Ascii.eqb c sep); [constructor; [reflexivity | exact IH] |].
  destruct (JSString.split sep s) as [| piece pieces].
  - repeat constructor. cbn. rewrite Hc. reflexivity.
  - inversion IH; subst. constructor; [| assumption]. cbn. rewrite Hc. assumption.
Qed.

Lemma nonBlank_allWhiteSpace (s : string) :
  allWhiteSpace s = true -> nonBlank s = false.
Proof.
  intros H. unfold nonBlank, JSString.trim.
  rewrite (trimStart_allWhiteSpace s H). reflexivity.
Qed.

(** A text of white space only has no line to load. *)
Lemma lines_blank (text : string) : allWhiteSpace text = true -> lines text = [].
Proof.
  intros H. unfold lines.
  pose proof (split_allWhiteSpace (ascii_of_nat 10) text H) as Hs.
  induction Hs as [| piece pieces Hp _ IH]; [reflexivity |].
  cbn. rewrite (nonBlank_allWhiteSpace piece Hp). exact IH.
Qed.

(** X22. [selectPlatform] always returns, and the numbers of its menu select
    the service classes they name: 2 YesCoin, 3 Tsubasa, 4 PAWS, and any
    other answer Blum. *)
Theorem menu_numbers_select_services (w : World) :
  exists (platform : string) (w' : World) (t : list (Event Num)),
    selectPlatform (Num := Num) w = (Normal platform, w', t) /\
    let answer := fst (env_question platformPrompt w) in
    (answer = "2" -> platform = "yescoin" /\ serviceFor platform = YesCoinService) /\
    (answer = "3" -> platform = "tsubasa" /\ serviceFor platform = TsubasaService) /\
    (answer = "4" -> platform = "paws" /\ serviceFor platform = PawsService) /\
    (answer <> "2" -> answer <> "3" -> answer <> "4" ->
     platform = "blum" /\ serviceFor platform = BlumService).
Proof.
  destruct (selectPlatform_answer (Num := Num) w) as (platform & Hrun & Hcases).
  exists platform. eexists _, _. split; [exact Hrun |].
  cbv zeta in *.
  destruct Hcases as [(Ha & ->) | [(Ha & ->) | [(Ha & ->) | (H2 & H3 & H4 & ->)]]];
    repeat split; intros; try reflexivity; try congruence.
Qed.

(** X23. [loadData] reports the first thing that fails: the message of the
    first file when that cannot be read, whatever query.txt is; else the
    message of query.txt; else the mismatch, with both line counts in
    decimal, of "wallets" on PAWS and of "seeds" elsewhere. *)
Theorem loadData_reports_the_first_failure (platform : string) (w : World) :
  (forall message,
      env_readFileSync (firstFile platform) w = Throws message ->
      loadData (Num := Num) platform w =
        (Normal None, w, [Console (LErrorLoading message)])) /\
  (forall first message,
      env_readFileSync (firstFile platform) w = Returns first ->
      env_readFileSync "query.txt" w = Throws message ->
      loadData (Num := Num) platform w =
        (Normal None, w, [Console (LErrorLoading message)])) /\
  (forall first queries,
      env_readFileSync (firstFile platform) w = Returns first ->
      env_readFileSync "query.txt" w = Returns queries ->
      length (lines first) <> length (lines queries) ->
      loadData (Num := Num) platform w =
        (Normal None, w,
         [Console (LErrorLoading
                     ("Mismatch between " ++
                      (if (platform =? "paws")%string then "wallets" else "seeds") ++
                      " (" ++ decimal (length (lines first)) ++ ") and query (" ++
                      decimal (length (lines queries)) ++ ") count"))])).
Proof.
  repeat split.
  - intros message H. rewrite loadData_cases, H. reflexivity.
  - intros first message H1 H2. rewrite loadData_cases, H1, H2. reflexivity.
  - intros first queries H1 H2 Hlen. rewrite loadData_cases, H1, H2.
    apply Nat.eqb_neq in Hlen. rewrite Hlen. reflexivity.
Qed.

(** X24. What [loadData] returns is fit for [processWallets]: every query id
    has a wallet entry, with a non-empty address on PAWS and a non-blank
    seed phrase elsewhere; so a run on loaded data never writes "Invalid
    wallet address". *)
Theorem loaded_addresses_are_never_invalid
    (action : string) (version : option string) (platform : string)
    (data : Loaded) (w0 w1 w : World) (t0 : list (Event Num)) :
  loadData (Num := Num) platform w0 = (Normal (Some data), w1, t0) ->
  (forall i, i < length (queryIds data) ->
     exists entry,
       nth_error (walletData data) i = Some entry /\
       (platform = "paws" -> truthyOpt (data_address entry) = true) /\
       (platform <> "paws" ->
        exists phrase, mnemonic entry = Some phrase /\ nonBlank phrase = true)) /\
  post (processWallets action (queryIds data) (walletData data) version platform) w
       (fun _ _ t => forall j, ~ In (Console (LInvalidAddress j)) t).
Proof.
  intros H. rewrite loadData_cases in H.
  destruct (env_readFileSync (firstFile platform) w0) as [first | message];
    [| discriminate H].
  destruct (env_readFileSync "query.txt" w0) as [queries | message]; [| discriminate H].
  destruct (Nat.eqb_spec (length (lines first)) (length (lines queries))) as [Hlen | Hlen];
    [| discriminate H].
  injection H as <- _ _. cbn [walletData queryIds].
  assert (Hentries : forall i entry,
             nth_error (map (entryOf platform) (lines first)) i = Some entry ->
             (platform = "paws" -> truthyOpt (data_address entry) = true) /\
             (platform <> "paws" ->
              exists phrase, mnemonic entry = Some phrase /\ nonBlank phrase = true)).
  { intros i entry Hi. apply nth_error_In in Hi. apply in_map_iff in Hi.
    destruct Hi as (line & <- & Hline).
    pose proof (lines_nonBlank first) as Hnb. rewrite Forall_forall in Hnb.
    specialize (Hnb line Hline). unfold entryOf. split.
    - intros ->. cbn. exact Hnb.
    - intros Hp. apply String.eqb_neq in Hp. rewrite Hp. cbn. eauto. }
  split.
  - intros i Hi.
    destruct (nth_error (map (entryOf platform) (lines first)) i) as [entry |] eqn:Hnth.
    + exists entry. split; [reflexivity |]. exact (Hentries i entry Hnth).
    + apply nth_error_None in Hnth. rewrite length_map in Hnth. lia.
  - eapply post_mono; [apply processWallets_traceFacts |].
    intros r w' t (_ & _ & _ & _ & Hinvalid & _). rewrite Forall_forall in Hinvalid.
    intros j Hin. specialize (Hinvalid _ Hin). cbn in Hinvalid.
    destruct Hinvalid as (Hp & entry & Hnth & Hfalse).
    destruct (Hentries j entry Hnth) as (Htrue & _). rewrite (Htrue Hp) in Hfalse.
    discriminate Hfalse.
Qed.

(** X25. Blank files are not an error. When both files hold white space
    only, [loadData] returns two empty lists after the line "Loaded 0
    wallet(s)", and [processWallets] on them writes the banner and the
    summary with zero counts, and returns zero counts. *)
Theorem blank_files_load_no_account
    (platform first queries : string) (w : World) :
  allWhiteSpace first = true ->
  allWhiteSpace queries = true ->
  env_readFileSync (firstFile platform) w = Returns first ->
  env_readFileSync "query.txt" w = Returns queries ->
  loadData (Num := Num) platform w =
    (Normal (Some {| walletData := []; queryIds := [] |}), w, [Console (LLoaded 0)]) /\
  forall (action : string) (version : option string) (w1 : World),
    platform = "paws" \/ version <> None ->
    processWallets action [] [] version platform w1 =
      (Normal {| totalBalance := numZero; successCount := 0; failCount := 0 |}, w1,
       [Console (LBlankRule 90);
        Console (LHeader action (if (platform =? "paws")%string then None else version)
                   platform);
        Console (LRuleBlank 90);
        Console (LBlankRule 50)] ++
       (if ((action =? "1") && (platform =? "blum"))%string
        then [Console (LTotalBalance numZero)] else []) ++
       [Console (LSummary 0 0); Console (LRule 50)]).
Proof.
  intros Hfirst Hqueries H1 H2. split.
  - rewrite loadData_cases, H1, H2, (lines_blank first Hfirst), (lines_blank queries Hqueries).
    reflexivity.
  - intros action version w1 Hversion.
    unfold processWallets, scope, header, summary, when, console, property.
    destruct (platform =? "paws")%string eqn:Hp.
    + destruct ((action =? "1") && (platform =? "blum"))%string; reflexivity.
    + destruct version as [v |].
      * destruct ((action =? "1") && (platform =? "blum"))%string; reflexivity.
      * destruct Hversion as [-> | Hv]; [discriminate Hp | congruence].
Qed.

Lemma split_app (sep : ascii) (a b : string) :
  JSString.split sep (a ++ String sep b) = JSString.split sep a ++ JSString.split sep b.
Proof.
  induction a as [| c a IH]; cbn.
  - rewrite Ascii.eqb_refl. reflexivity.
  - destruct (Ascii.eqb c sep); [rewrite IH; reflexivity |].
    rewrite IH. pose proof (split_length sep a) as Hlen.
    destruct (JSString.split sep a) as [| piece pieces]; [discriminate Hlen | reflexivity].
Qed.

Lemma split_one (sep : ascii) (s : string) :
  occurrences sep s = 0 -> JSString.split sep s = [s].
Proof.
  induction s as [| c s IH]; cbn; [reflexivity |].
  destruct (Ascii.eqb c sep); [discriminate |].
  intros H. rewrite (IH H). reflexivity.
Qed.

(** X26. The lists are made line by line: the lines that [loadData] keeps of
    two texts joined by a line break are those of the first followed by
    those of the second, a text of white space only gives none, and a
    non-blank text without a line break gives itself, untrimmed. *)
Theorem loaded_lists_follow_the_lines :
  (forall a b : string, lines (a ++ newline ++ b) = lines a ++ lines b) /\
  (forall blank : string, allWhiteSpace blank = true -> lines blank = []) /\
  (forall line : string,
      occurrences (ascii_of_nat 10) line = 0 -> nonBlank line = true ->
      lines line = [line]).
Proof.
  split; [| split].
  - intros a b. unfold lines, newline. cbn [String.append].
    rewrite split_app. apply filter_app.
  - apply lines_blank.
  - intros line Hone Hline. unfold lines. rewrite (split_one _ _ Hone). cbn.
    rewrite Hline. reflexivity.
Qed.

End LoadingMore.

(** ** The further properties on the sample environments *)

(** X1, on a phrase of 24 words and the version "V5". *)
Lemma processWalletData_returns_only_witness :
  exists (phrase v : string) (keyPair : KeyPair),
    mnemonic (Sample.entry Sample.seed24) = Some phrase /\
    length (JSString.split " " (JSString.trim phrase)) = 24 /\
    Some "V5" = Some v /\ supportedVersion v /\
    mnemonicToWalletKey (Ton := Sample.ton) (JSString.split " " (JSString.trim phrase)) =
      Returns keyPair.
Proof.
  destruct (processWalletData_returns_only (Num := Z) (ton := Sample.ton)
              (Some (Sample.entry Sample.seed24)) (Some "V5") tt tt
              {| address := "UQ-v5"; private_key := Some "abcd" |} []
              ltac:(vm_compute; reflexivity))
    as (entry & phrase & v & keyPair & He & Hp & Hl & Hv & Hs & Hk & _).
  injection He as <-. exists phrase, v, keyPair. auto.
Defined.

(** X2, on a phrase with a doubled space between two of its 24 words, and
    on the phrase without it. *)
Lemma processWalletData_counts_spaces_witness :
  processWalletData (Num := Z) (ton := Sample.ton)
    (Some (Sample.entry "a  b c d e f g h i j k l m n o p q r s t u v w x")) (Some "v4") tt =
    (Throw "Error processing wallet data: Invalid seed phrase length - must be 24 words",
     tt, []) /\
  exists derived : string,
    processWalletData (Num := Z) (ton := Sample.ton)
      (Some (Sample.entry Sample.seed24)) (Some "v4") tt =
      (Normal {| address := derived; private_key := Some "abcd" |}, tt, []).
Proof.
  split.
  - apply (proj1 (processWalletData_counts_spaces (Num := Z) (ton := Sample.ton)
                    (Sample.entry "a  b c d e f g h i j k l m n o p q r s t u v w x")
                    "a  b c d e f g h i j k l m n o p q r s t u v w x" (Some "v4") tt
                    eq_refl)).
    vm_compute. discriminate.
  - apply (proj2 (processWalletData_counts_spaces (Num := Z) (ton := Sample.ton)
                    (Sample.entry Sample.seed24) Sample.seed24 (Some "v4") tt eq_refl)
                 ltac:(vm_compute; reflexivity) "v4"
                 {| publicKey := [x01]; secretKey := [xab; xcd] |} eq_refl
                 (or_intror (or_introl eq_refl)) eq_refl).
Defined.

(** X4, on the 24 words between a tab and a carriage return. *)
Lemma seed_phrase_padding_is_ignored_witness :
  processWalletData (Num := Z) (ton := Sample.ton)
    (Some (Sample.entry (String (ascii_of_nat 9) "" ++ Sample.seed24 ++
                         String (ascii_of_nat 13) ""))) (Some "v4") tt =
  processWalletData (Num := Z) (ton := Sample.ton)
    (Some (Sample.entry Sample.seed24)) (Some "v4") tt.
Proof.
  apply (seed_phrase_padding_is_ignored (Num := Z) (ton := Sample.ton)
           (Sample.entry (String (ascii_of_nat 9) "" ++ Sample.seed24 ++
                          String (ascii_of_nat 13) ""))
           (Sample.entry Sample.seed24)
           (String (ascii_of_nat 9) "") Sample.seed24 (String (ascii_of_nat 13) "")
           (Some "v4") tt eq_refl eq_refl eq_refl eq_refl).
Defined.

(** X5, on the sample phrase and its key of two bytes. *)
Lemma private_key_is_hex_witness :
  exists (phrase : string) (keyPair : KeyPair) (hex : string),
    mnemonic (Sample.entry Sample.seed24) = Some phrase /\
    mnemonicToWalletKey (Ton := Sample.ton) (JSString.split " " (JSString.trim phrase)) =
      Returns keyPair /\
    Some "abcd" = Some hex /\
    hex = toHex (secretKey keyPair) /\
    String.length hex = 2 * length (secretKey keyPair) /\
    allHex hex = true.
Proof.
  destruct (private_key_is_hex (Num := Z) (ton := Sample.ton)
              (Some (Sample.entry Sample.seed24)) (Some "v4") tt tt
              {| address := "UQ-v4"; private_key := Some "abcd" |} []
              ltac:(vm_compute; reflexivity))
    as (entry & phrase & keyPair & hex & He & Hp & Hk & H1 & H2 & H3 & H4 & _).
  injection He as <-. exists phrase, keyPair, hex. auto 10.
Defined.

(** X15, on a second query id without a wallet entry. *)
Lemma account_without_entry_fails_witness :
  processAccount (ton := Sample.ton) (numbers := Sample.numbers) (env := Sample.env)
    "1" ["q1"; "q2"] [Sample.entry Sample.seed24] (Some "v4") "blum" 1
    ({| totalBalance := 0%Z; successCount := 1; failCount := 0 |}, tt) =
    (Normal tt, ({| totalBalance := 0%Z; successCount := 1; failCount := 1 |}, tt),
     [Console (LProcessing 1 2); Console (LDashes 30);
      Console (LAccountError 1
                 "Error processing wallet data: Cannot read properties of undefined (reading 'mnemonic')")]).
Proof.
  apply (account_without_entry_fails
           (ton := Sample.ton) (numbers := Sample.numbers) (env := Sample.env)
           "1" ["q1"; "q2"] [Sample.entry Sample.seed24] (Some "v4") "blum" 1
           {| totalBalance := 0%Z; successCount := 1; failCount := 0 |} tt eq_refl).
Defined.

(** X19, on a PAWS session: an invalid option, a display of the two
    wallets, back to the menu, and exit. *)
Lemma main_ends_by_closing_the_terminal_witness :
  match main (ton := Sample.ton) (numbers := Sample.numbers)
             (env := Scripted.env Scripted.files) 3 ["4"; "9"; "3"; "1"; "0"] with
  | Some (r, _, t) =>
      r = Normal tt /\
      forall message, In (Say (LMainError message)) t -> message = "Failed to load data"
  | None => False
  end.
Proof.
  destruct (main (ton := Sample.ton) (numbers := Sample.numbers)
                 (env := Scripted.env Scripted.files) 3 ["4"; "9"; "3"; "1"; "0"])
    as [[[r w'] t] |] eqn:H; [| vm_compute in H; discriminate H].
  destruct (main_ends_by_closing_the_terminal
              (ton := Sample.ton) (numbers := Sample.numbers)
              (env := Scripted.env Scripted.files) 3 _ w' r t H) as (Hr & _ & Hm).
  split; assumption.
Defined.

(** X20, on a Blum session that connects and exits. *)
Lemma main_keeps_platform_and_version_witness :
  match main (ton := Sample.ton) (numbers := Sample.numbers)
             (env := Scripted.env Scripted.files) 3 ["1"; "1"; "1"; "2"] with
  | Some (_, _, t) =>
      In (Inner (Console (LHeader "1" (Some "v3r2") "blum"))) t /\
      forall message, ~ In (Inner (Console (LDetailedError message))) t
  | None => False
  end.
Proof.
  destruct (main (ton := Sample.ton) (numbers := Sample.numbers)
                 (env := Scripted.env Scripted.files) 3 ["1"; "1"; "1"; "2"])
    as [[[r w'] t] |] eqn:H; [| vm_compute in H; discriminate H].
  destruct (main_keeps_platform_and_version
              (ton := Sample.ton) (numbers := Sample.numbers)
              (env := Scripted.env Scripted.files) 3 _ w' r t H)
    as (platform & version & _ & _ & _ & _ & Hd).
  split; [| exact Hd].
  vm_compute in H. injection H as _ _ <-. cbn. tauto.
Defined.

(** X21, on PAWS with the sample files, which have no wallet.txt (loading
    for Blum succeeds there), and without a round of the menu loop. *)
Lemma main_ends_when_loading_fails_witness :
  (exists data : Loaded,
      loadData (Num := Z) (env := Scripted.env Sample.files) "blum" [] =
        (Normal (Some data), [], [Console (LLoaded 2)])) /\
  exists (setup : list (MainEvent Z)) (message : string),
    main (ton := Sample.ton) (numbers := Sample.numbers)
         (env := Scripted.env Sample.files) 0 ["4"] =
      Some (Normal tt, [],
            setup ++ [Inner (Console (LErrorLoading message));
                      Say (LMainError "Failed to load data"); Close]) /\
    Forall setupEvent setup.
Proof.
  split; [eexists; vm_compute; reflexivity |].
  destruct (main_ends_when_loading_fails
              (ton := Sample.ton) (numbers := Sample.numbers)
              (env := Scripted.env Sample.files) 0 "paws" ["4"] [] [] []
              [Console (LBlankRule 50); Console (LTitle "Select Platform");
               Console (LRule 50); Question platformPrompt "4"]
              [Console (LErrorLoading "ENOENT: no such file or directory")]
              ltac:(vm_compute; reflexivity) eq_refl ltac:(vm_compute; reflexivity))
    as (setup & message & _ & _ & Hrun & Hsetup).
  exists setup, message. split; assumption.
Defined.

(** X23, on the sample files, where there is no wallet.txt. *)
Lemma loadData_reports_the_first_failure_witness :
  loadData (Num := Z) (env := Sample.env) "paws" tt =
    (Normal None, tt, [Console (LErrorLoading "ENOENT: no such file or directory")]).
Proof.
  apply (proj1 (loadData_reports_the_first_failure (Num := Z) (env := Sample.env)
                  "paws" tt)).
  reflexivity.
Defined.

(** X24, on the two addresses of the scripted wallet.txt. *)
Lemma loaded_addresses_are_never_invalid_witness :
  let '(_, _, t) :=
    processWallets (ton := Sample.ton) (numbers := Sample.numbers)
      (env := Scripted.env Scripted.files)
      "1" ["q1"; "q2"]
      [{| data_address := Some "UQ-one"; mnemonic := None |};
       {| data_address := Some "UQ-two"; mnemonic := None |}] None "paws" [] in
  forall j, ~ In (Console (LInvalidAddress j)) t.
Proof.
  pose proof (proj2 (loaded_addresses_are_never_invalid
                (ton := Sample.ton) (numbers := Sample.numbers)
                (env := Scripted.env Scripted.files)
                "1" None "paws"
                {| walletData := [{| data_address := Some "UQ-one"; mnemonic := None |};
                                  {| data_address := Some "UQ-two"; mnemonic := None |}];
                   queryIds := ["q1"; "q2"] |}
                [] [] [] [Console (LLoaded 2)] ltac:(vm_compute; reflexivity))) as H.
  unfold post in H. cbn [walletData queryIds] in H. exact H.
Defined.

(** X25, on blank files. *)
Lemma blank_files_load_no_account_witness :
  loadData (Num := Z) (env := Scripted.env Scripted.blankFiles) "blum" [] =
    (Normal (Some {| walletData := []; queryIds := [] |}), [], [Console (LLoaded 0)]) /\
  processWallets (ton := Sample.ton) (numbers := Sample.numbers)
    (env := Scripted.env Scripted.blankFiles) "1" [] [] (Some "v4") "blum" [] =
    (Normal {| totalBalance := 0%Z; successCount := 0; failCount := 0 |}, [],
     [Console (LBlankRule 90); Console (LHeader "1" (Some "v4") "blum");
      Console (LRuleBlank 90); Console (LBlankRule 50); Console (LTotalBalance 0%Z);
      Console (LSummary 0 0); Console (LRule 50)]).
Proof.
  destruct (blank_files_load_no_account
              (ton := Sample.ton) (numbers := Sample.numbers)
              (env := Scripted.env Scripted.blankFiles)
              "blum" (newline ++ "  " ++ newline) (newline ++ "  " ++ newline) []
              eq_refl eq_refl eq_refl eq_refl) as (Hload & Hrun).
  split; [exact Hload |].
  assert (Hv : "blum" = "paws" \/ Some "v4" <> @None string) by (right; discriminate).
  pose proof (Hrun "1" (Some "v4") [] Hv) as H.
  vm_compute in H |- *. exact H.
Defined.

(** X26, on two addresses and a last line of two spaces. *)
Lemma loaded_lists_follow_the_lines_witness :
  lines ("UQ-one" ++ newline ++ "  UQ-two  " ++ newline ++ "  ") =
    ["UQ-one"; "  UQ-two  "].
Proof.
  destruct loaded_lists_follow_the_lines as (Happ & Hblank & Hone).
  rewrite Happ, Happ.
  rewrite (Hone "UQ-one" eq_refl eq_refl), (Hone "  UQ-two  " eq_refl eq_refl).
  rewrite (Hblank "  " eq_refl). reflexivity.
Defined.
